(** * OrderBook_TradingBot: a shallow embedding of data_stream.py, signal.py
    and main.py, and the properties of the design document checked on it.

    Conventions of the embedding.
    - A Python float is an exact rational ([Q]); a comparison of floats is the
      comparison of the rationals ([Qeq_bool], [Qle_bool], [Qltb]).  Rounding
      error is not modelled, except in the two tests that turn on it alone,
      which [FloatResidue] leaves open.  Where Python raises on a division
      by zero the embedding raises too; where numpy and pandas return [inf]
      or [nan] the embedding returns [PInf], [NInf] or [NaN] of [xnum].
    - A function that can raise returns an [outcome]; a function of main.py,
      which also reads and writes module globals and calls the exchange, is a
      computation of the monad [M]: the state survives an exception, as the
      side effects of a Python function do.
    - Module globals are explicit state.  data_stream.py and main.py each
      bind a dict named [position]; a function takes the record of the module
      it is defined in.
    - [with lock:] makes the body atomic: each function is one transition.
    - Calls of [logging] are left out, except the warnings of the feed
      handlers and what [fetch_initial_data] logs.  [start_streams] and
      [set_margin_and_leverage], which run once before the loops start, are
      not modelled. *)

From Stdlib Require Import QArith Qround Qabs Lqa ZArith List String Lia.
From stdpp Require Import gmap list sorting.
Import ListNotations.

Local Open Scope string_scope.
Local Open Scope list_scope.
Local Open Scope Q_scope.

(** ** Numbers *)

Definition Qltb (x y : Q) : bool := negb (Qle_bool y x).

(** ** What rounding error decides

    A Python float is taken for the rational it stands for, and the rounding
    error of float arithmetic is not modelled.  Two tests of the code turn on
    that error alone: [round] at a midpoint between two multiples of
    [10^-ndigits], where the float lies below, on or above the midpoint; and
    the standard deviation of three or more equal values compared with zero,
    where the summation leaves a residue or none.  An instance of
    [FloatResidue] says how these come out in an execution; the properties
    are proved for every instance. *)
Class FloatResidue := {
  (** [round] of the float that stands for the midpoint [x] goes up. *)
  rounds_up : Q -> bool;
  (** [(last - mean) / std] of the floats that stand for the equal values
      [series]: [Eq] when the deviation computed is zero, [Gt] for a
      quotient of 1 and [Lt] for a quotient of -1. *)
  std_residue : list Q -> comparison
}.

(** [round(x, ndigits)]: the nearest multiple of [10^-ndigits]; at a
    midpoint, the neighbour on the side of the float. *)
Definition py_round `{FloatResidue} (x : Q) (ndigits : nat) : Q :=
  let scale := inject_Z (10 ^ Z.of_nat ndigits) in
  let f := Qfloor (x * scale) in
  let r := x * scale - inject_Z f in
  let n := if Qltb r (1 # 2) then f
           else if Qltb (1 # 2) r then (f + 1)%Z
           else if rounds_up x then (f + 1)%Z else f in
  inject_Z n / scale.

(** An execution in which [round] goes down at every midpoint and equal
    values have a deviation of zero. *)
Definition no_residue : FloatResidue :=
  {| rounds_up _ := false; std_residue _ := Eq |}.

(** An execution in which [round] goes up at every midpoint and equal
    values leave a deviation above zero. *)
Definition residue_up : FloatResidue :=
  {| rounds_up _ := true; std_residue _ := Gt |}.

(** The values of a numpy or pandas float: finite, infinite or not a number. *)
Inductive xnum := Fin (q : Q) | PInf | NInf | NaN.

(** ** Exceptions *)

Inductive exn :=
| TypeError
| ZeroDivisionError
| KeyError (key : string)
| IndexError
| ValueError
| NameError (name : string)
| Full
| APIError.

Inductive outcome (A : Type) := Ok (a : A) | Raise (err : exn).
Arguments Ok {A} a.
Arguments Raise {A} err.

#[global] Instance outcome_ret : MRet outcome := fun A a => Ok a.
#[global] Instance outcome_bind : MBind outcome := fun A B f c =>
  match c with Ok a => f a | Raise err => Raise err end.

(** Python's [a / b] on floats. *)
Definition py_div (a b : Q) : outcome Q :=
  if Qeq_bool b 0 then Raise ZeroDivisionError else Ok (a / b).

(** ** The position record (the dict [position] of either module) *)

Inductive PosState := none | long | short.

Definition state_str (s : PosState) : string :=
  match s with none => "none" | long => "long" | short => "short" end.

Record Position := {
  state : PosState;
  entry_order_id : option Z;
  stop_order_id : option Z;
  entry : option Q;
  qty : Q;
  max_pnl : Q;
  stop_price : option Q
}.

(** [position[field] = v]. *)
Definition set_state (v : PosState) (p : Position) : Position :=
  {| state := v; entry_order_id := entry_order_id p;
     stop_order_id := stop_order_id p; entry := entry p; qty := qty p;
     max_pnl := max_pnl p; stop_price := stop_price p |}.
Definition set_entry_order_id (v : option Z) (p : Position) : Position :=
  {| state := state p; entry_order_id := v;
     stop_order_id := stop_order_id p; entry := entry p; qty := qty p;
     max_pnl := max_pnl p; stop_price := stop_price p |}.
Definition set_stop_order_id (v : option Z) (p : Position) : Position :=
  {| state := state p; entry_order_id := entry_order_id p;
     stop_order_id := v; entry := entry p; qty := qty p;
     max_pnl := max_pnl p; stop_price := stop_price p |}.
Definition set_entry (v : option Q) (p : Position) : Position :=
  {| state := state p; entry_order_id := entry_order_id p;
     stop_order_id := stop_order_id p; entry := v; qty := qty p;
     max_pnl := max_pnl p; stop_price := stop_price p |}.
Definition set_qty (v : Q) (p : Position) : Position :=
  {| state := state p; entry_order_id := entry_order_id p;
     stop_order_id := stop_order_id p; entry := entry p; qty := v;
     max_pnl := max_pnl p; stop_price := stop_price p |}.
Definition set_max_pnl (v : Q) (p : Position) : Position :=
  {| state := state p; entry_order_id := entry_order_id p;
     stop_order_id := stop_order_id p; entry := entry p; qty := qty p;
     max_pnl := v; stop_price := stop_price p |}.
Definition set_stop_price (v : option Q) (p : Position) : Position :=
  {| state := state p; entry_order_id := entry_order_id p;
     stop_order_id := stop_order_id p; entry := entry p; qty := qty p;
     max_pnl := max_pnl p; stop_price := v |}.

(** The literal both modules bind [position] to. *)
Definition position_init : Position :=
  {| state := none; entry_order_id := None; stop_order_id := None;
     entry := None; qty := 0; max_pnl := 0; stop_price := None |}.

(** A command of [command_queue]: the tuple
    [('place_stop_order', side, qty, stop_price)]. *)
Record Command := {
  cmd_name : string;
  cmd_side : string;
  cmd_qty : Q;
  cmd_stop_price : Q
}.

(** * data_stream.py *)
Module DataStream.

Definition MAX_QUEUE : nat := 1000.

(** The order of an [ORDER_TRADE_UPDATE]: [i] the order id, [X] the status,
    [S] the side, [z] the cumulative filled quantity, [ap] the average
    price (the last two already read by [float]). *)
Record Order := {
  o_i : Z;
  o_X : string;
  o_S : string;
  o_z : Q;
  o_ap : Q
}.

(** A decoded message: its event tag [msg['e']] and the fields the
    consumers read. *)
Inductive Payload :=
| DepthFields (b a : list (Q * Q)) (u : Z)
| TradeFields (p q : Q) (m : bool) (T : Z)
| TickerFields (P : option Q)
| OrderFields (o : Order)
| NoFields.

Record Msg := { msg_e : string; msg_payload : Payload }.

(** [queue.Queue(MAX_QUEUE).put_nowait]. *)
Definition put_nowait (q : list Msg) (msg : Msg) : outcome (list Msg) :=
  if (List.length q <? MAX_QUEUE)%nat then Ok (q ++ [msg]) else Raise Full.

(** The feed handlers return the queue and the warnings they log. *)
Definition depth_handler (depth_queue : list Msg) (msg : Msg)
  : list Msg * list string :=
  if negb (String.eqb (msg_e msg) "depthUpdate") then (depth_queue, [])
  else match put_nowait depth_queue msg with
       | Ok q => (q, [])
       | Raise _ => (depth_queue, ["Depth queue full, message dropped."])
       end.

Definition trade_handler (trade_queue : list Msg) (msg : Msg)
  : list Msg * list string :=
  match put_nowait trade_queue msg with
  | Ok q => (q, [])
  | Raise _ => (trade_queue, ["Trade queue full, message dropped."])
  end.

Definition aggtrade_handler (aggtrade_queue : list Msg) (msg : Msg)
  : list Msg * list string :=
  match put_nowait aggtrade_queue msg with
  | Ok q => (q, [])
  | Raise _ => (aggtrade_queue, ["AggTrade queue full, message dropped."])
  end.

Definition ticker_handler (ticker_queue : list Msg) (msg : Msg)
  : list Msg * list string :=
  match put_nowait ticker_queue msg with
  | Ok q => (q, [])
  | Raise _ => (ticker_queue, ["Ticker queue full, message dropped."])
  end.

(** [msg['o']]. *)
Definition msg_order (msg : Msg) : outcome Order :=
  match msg_payload msg with
  | OrderFields o => Ok o
  | _ => Raise (KeyError "o")
  end.

(** [order_id == position[...]]: an int against an int or [None]. *)
Definition id_eqb (order_id : Z) (recorded : option Z) : bool :=
  match recorded with Some i => (order_id =? i)%Z | None => false end.

Definition user_handler (position : Position) (command_queue : list Command)
    (msg : Msg) : outcome (Position * list Command) :=
  if String.eqb (msg_e msg) "ORDER_TRADE_UPDATE" then
    order ← msg_order msg;
    let order_id := o_i order in
    let status := o_X order in
    if String.eqb status "FILLED" then
      if id_eqb order_id (entry_order_id position) then
        let side := o_S order in
        let qty := o_z order in
        let entry_price := o_ap order in
        let position :=
          set_state (if String.eqb side "BUY" then long else short) position in
        let position := set_entry (Some entry_price) position in
        let position := set_qty qty position in
        let position := set_max_pnl 0 position in
        let stop_price :=
          entry_price *
          (if String.eqb side "BUY" then 1 - (2 # 100) else 1 + (2 # 100)) in
        let stop_side := if String.eqb side "BUY" then "SELL" else "BUY" in
        mret (position,
              command_queue ++
                [{| cmd_name := "place_stop_order"; cmd_side := stop_side;
                    cmd_qty := qty; cmd_stop_price := stop_price |}])
      else if id_eqb order_id (stop_order_id position) then
        let position := set_state none position in
        let position := set_entry None position in
        let position := set_qty 0 position in
        let position := set_max_pnl 0 position in
        let position := set_stop_price None position in
        let position := set_stop_order_id None position in
        let position := set_entry_order_id None position in
        mret (position, command_queue)
      else mret (position, command_queue)
    else mret (position, command_queue)
  else mret (position, command_queue).

(** *** The shared state

    [state] holds two dicts of floats (the sides of the order book), two
    deques and two scalars.  The deques hold references: a trade or a volume
    bucket is a dict of its own, reached through its address in [trade_objs]
    or [bucket_objs], and whoever holds the address reads and writes the same
    dict. *)

Record Trade := {
  t_price : Q;
  t_qty : Q;
  t_is_buyer_maker : bool;
  t_time : Z;
  t_side : string
}.

Record Bucket := { b_time : Z; b_volume : Q }.

Abbreviation loc := nat (only parsing).

Record Store := {
  bids : list (Q * Q);
  asks : list (Q * Q);
  last_update_id : Z;
  trades : list loc;
  volume_history : list loc;
  ticker_pct : Q;
  trade_objs : gmap loc Trade;
  bucket_objs : gmap loc Bucket
}.

Definition set_bids (v : list (Q * Q)) (s : Store) : Store :=
  {| bids := v; asks := asks s; last_update_id := last_update_id s;
     trades := trades s; volume_history := volume_history s;
     ticker_pct := ticker_pct s; trade_objs := trade_objs s;
     bucket_objs := bucket_objs s |}.
Definition set_asks (v : list (Q * Q)) (s : Store) : Store :=
  {| bids := bids s; asks := v; last_update_id := last_update_id s;
     trades := trades s; volume_history := volume_history s;
     ticker_pct := ticker_pct s; trade_objs := trade_objs s;
     bucket_objs := bucket_objs s |}.
Definition set_last_update_id (v : Z) (s : Store) : Store :=
  {| bids := bids s; asks := asks s; last_update_id := v;
     trades := trades s; volume_history := volume_history s;
     ticker_pct := ticker_pct s; trade_objs := trade_objs s;
     bucket_objs := bucket_objs s |}.
Definition set_trades (v : list loc) (s : Store) : Store :=
  {| bids := bids s; asks := asks s; last_update_id := last_update_id s;
     trades := v; volume_history := volume_history s;
     ticker_pct := ticker_pct s; trade_objs := trade_objs s;
     bucket_objs := bucket_objs s |}.
Definition set_volume_history (v : list loc) (s : Store) : Store :=
  {| bids := bids s; asks := asks s; last_update_id := last_update_id s;
     trades := trades s; volume_history := v;
     ticker_pct := ticker_pct s; trade_objs := trade_objs s;
     bucket_objs := bucket_objs s |}.
Definition set_ticker_pct (v : Q) (s : Store) : Store :=
  {| bids := bids s; asks := asks s; last_update_id := last_update_id s;
     trades := trades s; volume_history := volume_history s;
     ticker_pct := v; trade_objs := trade_objs s;
     bucket_objs := bucket_objs s |}.
Definition set_trade_objs (v : gmap loc Trade) (s : Store) : Store :=
  {| bids := bids s; asks := asks s; last_update_id := last_update_id s;
     trades := trades s; volume_history := volume_history s;
     ticker_pct := ticker_pct s; trade_objs := v;
     bucket_objs := bucket_objs s |}.
Definition set_bucket_objs (v : gmap loc Bucket) (s : Store) : Store :=
  {| bids := bids s; asks := asks s; last_update_id := last_update_id s;
     trades := trades s; volume_history := volume_history s;
     ticker_pct := ticker_pct s; trade_objs := trade_objs s;
     bucket_objs := v |}.

(** The literal [state] is bound to. *)
Definition state_init : Store :=
  {| bids := []; asks := []; last_update_id := 0; trades := [];
     volume_history := []; ticker_pct := 0; trade_objs := ∅;
     bucket_objs := ∅ |}.

(** The dicts a list of references leads to. *)
Definition deref {A} (h : gmap loc A) (refs : list loc) : list A :=
  omap (fun l => h !! l) refs.

(** [d[k] = v] on a dict, which keeps its keys in insertion order. *)
Fixpoint dict_set (d : list (Q * Q)) (k v : Q) : list (Q * Q) :=
  match d with
  | [] => [(k, v)]
  | (k', v') :: d' =>
      if Qeq_bool k' k then (k', v) :: d' else (k', v') :: dict_set d' k v
  end.

(** [deque(maxlen=n).append]: the oldest item leaves a full deque. *)
Definition deque_append {A} (maxlen : nat) (d : list A) (x : A) : list A :=
  let d' := d ++ [x] in
  if (maxlen <? List.length d')%nat then drop 1 d' else d'.

(** Python's [sum] of floats. *)
Definition py_sum (l : list Q) : Q := fold_left Qplus l 0.

(** *** The consumers: the body of each [while True] loop, for the message
    [queue.get()] returned.  The two trade consumers take the clock reading
    of their call of [_update_volumes_locked]; a new trade is a new dict. *)

Definition _process_depth (msg : Msg) (s : Store) : outcome Store :=
  match msg_payload msg with
  | DepthFields b a u =>
      let s := set_bids (fold_left (fun d pq => dict_set d pq.1 pq.2) b (bids s)) s in
      let s := set_asks (fold_left (fun d pq => dict_set d pq.1 pq.2) a (asks s)) s in
      Ok (set_last_update_id u s)
  | _ => Raise (KeyError "b")
  end.

(** [now] is the value of [time.time()], in seconds.  A new bucket is a new
    dict, at an address not in use; the last bucket of the current minute is
    overwritten where it is. *)
Definition _update_volumes_locked (now : Q) (s : Store) : Store :=
  let current_time := (Qfloor (now / 60) * 60)%Z in
  let current_volume :=
    py_sum (map t_qty
              (filter (fun trade => (current_time <=? t_time trade / 1000)%Z)
                      (deref (trade_objs s) (trades s)))) in
  let fresh_bucket :=
    let l := fresh (dom (bucket_objs s)) in
    let s := set_bucket_objs
               (<[l := {| b_time := current_time; b_volume := current_volume |}]>
                  (bucket_objs s)) s in
    set_volume_history (deque_append 20 (volume_history s) l) s in
  match last (volume_history s) with
  | Some l =>
      match bucket_objs s !! l with
      | Some bucket =>
          if (b_time bucket =? current_time)%Z then
            set_bucket_objs
              (<[l := {| b_time := b_time bucket; b_volume := current_volume |}]>
                 (bucket_objs s)) s
          else fresh_bucket
      | None => fresh_bucket
      end
  | None => fresh_bucket
  end.

Definition _process_aggtrades (now : Q) (msg : Msg) (s : Store) : outcome Store :=
  match msg_payload msg with
  | TradeFields p q m T =>
      let trade := {| t_price := p; t_qty := q; t_is_buyer_maker := m;
                      t_time := T; t_side := if m then "SELL" else "BUY" |} in
      let l := fresh (dom (trade_objs s)) in
      let s := set_trade_objs (<[l := trade]> (trade_objs s)) s in
      let s := set_trades (deque_append 100 (trades s) l) s in
      Ok (_update_volumes_locked now s)
  | _ => Raise (KeyError "p")
  end.

Definition _process_trades (now : Q) (msg : Msg) (s : Store) : outcome Store :=
  match msg_payload msg with
  | TradeFields p q m T =>
      let trade := {| t_price := p; t_qty := q; t_is_buyer_maker := m;
                      t_time := T; t_side := if m then "SELL" else "BUY" |} in
      let l := fresh (dom (trade_objs s)) in
      let s := set_trade_objs (<[l := trade]> (trade_objs s)) s in
      let s := set_trades (deque_append 100 (trades s) l) s in
      Ok (_update_volumes_locked now s)
  | _ => Raise (KeyError "p")
  end.

Definition _process_ticker (msg : Msg) (s : Store) : outcome Store :=
  match msg_payload msg with
  | TickerFields P => Ok (set_ticker_pct (default 0 P) s)
  | _ => Ok (set_ticker_pct 0 s)
  end.

(** *** The snapshot: [dict(...)] and [list(...)] build a new dict and a new
    list of the same items, so the snapshot has its own order-book sides and
    its own lists, whose items are the references of the deques. *)

Record Snapshot := {
  snap_bids : list (Q * Q);
  snap_asks : list (Q * Q);
  snap_trades : list loc;
  snap_volume_history : list loc;
  snap_ticker_pct : Q
}.

Definition get_snapshot (s : Store) : Snapshot :=
  {| snap_bids := bids s;
     snap_asks := asks s;
     snap_trades := trades s;
     snap_volume_history := volume_history s;
     snap_ticker_pct := ticker_pct s |}.

End DataStream.

(** * signal.py *)
Module Signal.

(** ** Arithmetic of numpy and pandas floats: no operation raises.  An
    idealised zero has no sign, so [x / 0] takes the sign of [x]. *)

Definition xneg (a : xnum) : xnum :=
  match a with Fin x => Fin (- x) | PInf => NInf | NInf => PInf | NaN => NaN end.

Definition xadd (a b : xnum) : xnum :=
  match a, b with
  | NaN, _ | _, NaN => NaN
  | Fin x, Fin y => Fin (x + y)
  | PInf, NInf | NInf, PInf => NaN
  | PInf, _ | _, PInf => PInf
  | NInf, _ | _, NInf => NInf
  end.

Definition xsub (a b : xnum) : xnum := xadd a (xneg b).

Definition xdiv (a b : xnum) : xnum :=
  match a, b with
  | NaN, _ | _, NaN => NaN
  | Fin x, Fin y =>
      if Qeq_bool y 0 then
        if Qeq_bool x 0 then NaN else if Qltb 0 x then PInf else NInf
      else Fin (x / y)
  | Fin _, _ => Fin 0
  | PInf, Fin y => if Qltb y 0 then NInf else PInf
  | NInf, Fin y => if Qltb y 0 then PInf else NInf
  | _, _ => NaN
  end.

(** [a < b]: false as soon as one side is not a number. *)
Definition xltb (a b : xnum) : bool :=
  match a, b with
  | NaN, _ | _, NaN => false
  | Fin x, Fin y => Qltb x y
  | NInf, NInf | PInf, _ | _, NInf => false
  | NInf, _ | _, PInf => true
  end.

Definition xgtb (a b : xnum) : bool := xltb b a.

(** ** Data frames: the column labels and the rows.  [R] is the type of a
    row; a column is read through the field of the row it names. *)

Record Frame (R : Type) := { columns : list string; rows : list R }.
Arguments columns {R} f.
Arguments rows {R} f.

(** [df.empty]: an axis of length zero. *)
Definition empty {R} (df : Frame R) : bool :=
  (List.length (columns df) =? 0)%nat || (List.length (rows df) =? 0)%nat.

Definition has_column {R} (df : Frame R) (name : string) : bool :=
  existsb (String.eqb name) (columns df).

(** [df[name]]. *)
Definition getitem {R V} (df : Frame R) (name : string) (field : R -> V)
  : outcome (list V) :=
  if has_column df name then Ok (map field (rows df)) else Raise (KeyError name).

(** [series.iloc[-1]]. *)
Definition iloc_last {A} (series : list A) : outcome A :=
  match last series with Some x => Ok x | None => Raise IndexError end.

(** A row of the order-book frame built by [run_trading]. *)
Record Level := {
  lv_price : Q;
  lv_bid_qty : Q;
  lv_ask_price : Q;
  lv_ask_qty : Q
}.

Definition Trade := DataStream.Trade.
Definition Bucket := DataStream.Bucket.

(** ** Indicators *)

Fixpoint ewm_mean_from (alpha prev : Q) (series : list Q) : list Q :=
  match series with
  | [] => []
  | x :: rest =>
      let y := (1 - alpha) * prev + alpha * x in
      y :: ewm_mean_from alpha y rest
  end.

(** [series.ewm(span=span, adjust=False).mean()]. *)
Definition calculate_ema (series : list Q) (span : Z) : list Q :=
  match series with
  | [] => []
  | x :: rest => x :: ewm_mean_from (2 / (inject_Z span + 1)) x rest
  end.

(** [series.diff()]. *)
Definition diff (series : list Q) : list xnum :=
  match series with
  | [] => []
  | x :: rest => NaN :: zip_with (fun later earlier => Fin (later - earlier)) rest series
  end.

Definition clip_lower0 (a : xnum) : xnum :=
  match a with
  | Fin x => if Qltb x 0 then Fin 0 else Fin x
  | NInf => Fin 0
  | other => other
  end.

Definition clip_upper0 (a : xnum) : xnum :=
  match a with
  | Fin x => if Qltb 0 x then Fin 0 else Fin x
  | PInf => Fin 0
  | other => other
  end.

Definition finite (a : xnum) : option Q :=
  match a with Fin x => Some x | _ => None end.

(** One value of [series.rolling(window=window)]: [agg] of the last
    [window] items of [seen], when there are [window] of them and all are
    numbers. *)
Definition window_apply (agg : list Q -> Q) (window : nat) (seen : list xnum)
  : xnum :=
  let w := drop (List.length seen - window) seen in
  let valid := omap finite w in
  if (List.length valid =? window)%nat && (0 <? window)%nat
  then Fin (agg valid)
  else NaN.

Definition rolling (agg : list Q -> Q) (window : nat) (series : list xnum)
  : list xnum :=
  map (fun i => window_apply agg window (take (S i) series))
      (seq 0 (List.length series)).

(** [series.rolling(window=window).mean()], [.max()] and [.min()]. *)
Definition rolling_mean (window : nat) (series : list xnum) : list xnum :=
  rolling (fun v => DataStream.py_sum v / inject_Z (Z.of_nat window)) window series.

Definition Qmax (a b : Q) : Q := if Qltb a b then b else a.
Definition Qmin (a b : Q) : Q := if Qltb b a then b else a.

Definition list_max (v : list Q) : Q :=
  match v with [] => 0 | x :: rest => fold_left Qmax rest x end.
Definition list_min (v : list Q) : Q :=
  match v with [] => 0 | x :: rest => fold_left Qmin rest x end.

Definition rolling_max (window : nat) (series : list xnum) : list xnum :=
  rolling list_max window series.
Definition rolling_min (window : nat) (series : list xnum) : list xnum :=
  rolling list_min window series.

(** [series.shift()] and [series.abs()]. *)
Definition shift (series : list xnum) : list xnum :=
  match series with [] => [] | _ => NaN :: removelast series end.

Definition xabs (a : xnum) : xnum :=
  match a with
  | Fin x => Fin (Qabs x)
  | NInf => PInf
  | other => other
  end.

(** The greatest of the numbers of a row of [pd.concat(..., axis=1)], as
    [.max(axis=1)] gives it: what is not a number is skipped. *)
Definition row_max (row : list xnum) : xnum :=
  match omap finite row with
  | [] => NaN
  | x :: rest => Fin (fold_left Qmax rest x)
  end.

Definition calculate_rsi (prices : list Q) (period : nat) : list xnum :=
  let delta := diff prices in
  let gain := map clip_lower0 delta in
  let loss := map (fun d => xneg (clip_upper0 d)) delta in
  let avg_gain := rolling_mean period gain in
  let avg_loss := rolling_mean period loss in
  let rs := zip_with xdiv avg_gain avg_loss in
  map (fun r => xsub (Fin 100) (xdiv (Fin 100) (xadd (Fin 1) r))) rs.

Definition calculate_vwap (df : Frame Trade) : outcome (option xnum) :=
  if empty df then Ok None
  else
    price ← getitem df "price" DataStream.t_price;
    qty ← getitem df "qty" DataStream.t_qty;
    qty' ← getitem df "qty" DataStream.t_qty;
    Ok (Some (xdiv (Fin (DataStream.py_sum (zip_with Qmult price qty)))
                   (Fin (DataStream.py_sum qty')))).

Definition calculate_atr (prices : list Q) (period : nat)
  : outcome (option xnum) :=
  if (List.length prices <? period + 1)%nat then Ok None
  else
    let series := map Fin prices in
    let highs := rolling_max 2 series in
    let lows := rolling_min 2 series in
    let close := series in
    let tr :=
      map row_max
          (zip_with (fun a bc => [a; bc.1; bc.2])
             (zip_with xsub highs lows)
             (zip (map xabs (zip_with xsub highs (shift close)))
                  (map xabs (zip_with xsub lows (shift close))))) in
    let atr := rolling_mean period tr in
    atr_last ← iloc_last atr;
    Ok (Some atr_last).

(** ** Metrics *)

Definition order_book_pressure (df : Frame Level) : outcome xnum :=
  bid_qty ← getitem df "bid_qty" lv_bid_qty;
  let bid_volume := DataStream.py_sum bid_qty in
  ask_qty ← getitem df "ask_qty" lv_ask_qty;
  let ask_volume := DataStream.py_sum ask_qty in
  if Qeq_bool ask_volume 0 then Ok (Fin 1)
  else Ok (xdiv (Fin bid_volume) (Fin ask_volume)).

(** [trades_df[trades_df["side"] == label]["qty"].sum()]. *)
Definition side_qty_sum (trades_df : Frame Trade) (label : string) : outcome Q :=
  side ← getitem trades_df "side" DataStream.t_side;
  let selected :=
    {| columns := columns trades_df;
       rows := filter (fun t => String.eqb (DataStream.t_side t) label)
                      (rows trades_df) |} in
  qty ← getitem selected "qty" DataStream.t_qty;
  Ok (DataStream.py_sum qty).

Definition trade_dominance (trades_df : Frame Trade) : outcome xnum :=
  if empty trades_df then Ok (Fin 1)
  else
    buys ← side_qty_sum trades_df "BUY";
    sells ← side_qty_sum trades_df "SELL";
    if Qeq_bool sells 0 then Ok (Fin 1)
    else Ok (xdiv (Fin buys) (Fin sells)).

(** A value [rr_num / sqrt rr_sq], with [0 < rr_sq]: the quotient of
    [volume_trend], whose divisor is a standard deviation.  The comparisons
    with a rational are decided on the squares. *)
Record RootRatio := { rr_num : Q; rr_sq : Q }.

Definition root_gtb (r : RootRatio) (c : Q) : bool :=
  let n := rr_num r in
  if Qle_bool 0 c
  then Qltb 0 n && Qltb (c * c * rr_sq r) (n * n)
  else Qle_bool 0 n || Qltb (n * n) (c * c * rr_sq r).

Definition root_ltb (r : RootRatio) (c : Q) : bool :=
  root_gtb {| rr_num := - rr_num r; rr_sq := rr_sq r |} (- c).

(** [series.mean()] of a series that is not empty. *)
Definition mean (series : list Q) : Q :=
  DataStream.py_sum series / inject_Z (Z.of_nat (List.length series)).

(** The square of [series.std(ddof=0)]. *)
Definition variance (series : list Q) : Q :=
  let m := mean series in
  mean (map (fun x => (x - m) * (x - m)) series).

(** [volumes.std(ddof=0) == 0] holds of one value and of two equal values,
    whose mean is exact; of three or more equal values it holds when the
    summation leaves no residue, and the quotient is 1 or -1 otherwise. *)
Definition volume_trend `{FloatResidue} (volume_df : Frame Bucket)
  : outcome RootRatio :=
  if empty volume_df || negb (has_column volume_df "volume")
  then Ok {| rr_num := 0; rr_sq := 1 |}
  else
    volumes ← getitem volume_df "volume" DataStream.b_volume;
    if Qeq_bool (variance volumes) 0 then
      if (List.length volumes <=? 2)%nat then Ok {| rr_num := 0; rr_sq := 1 |}
      else
        match std_residue volumes with
        | Eq => Ok {| rr_num := 0; rr_sq := 1 |}
        | Gt => Ok {| rr_num := 1; rr_sq := 1 |}
        | Lt => Ok {| rr_num := - (1); rr_sq := 1 |}
        end
    else
      last_volume ← iloc_last volumes;
      Ok {| rr_num := last_volume - mean volumes; rr_sq := variance volumes |}.

(** ** The decision *)

(** [a and b], where evaluating [b] may raise. *)
Definition and_then (a : bool) (b : outcome bool) : outcome bool :=
  if a then b else Ok false.

(** [latest_price > vwap] and [latest_price < vwap]; [vwap] may be [None]. *)
Definition gt_vwap (latest_price : Q) (vwap : option xnum) : outcome bool :=
  match vwap with
  | Some v => Ok (xgtb (Fin latest_price) v)
  | None => Raise TypeError
  end.

Definition lt_vwap (latest_price : Q) (vwap : option xnum) : outcome bool :=
  match vwap with
  | Some v => Ok (xltb (Fin latest_price) v)
  | None => Raise TypeError
  end.

(** The values of [volumes], [ticker_pct] and [atr] are never read. *)
Definition generate_signal `{FloatResidue} (df : Frame Level)
    (trades_df : Frame Trade)
    (volume_df : Frame Bucket) (ticker_data : Q) : outcome string :=
  if empty df || empty trades_df then Ok "HOLD"
  else
    ob_ratio ← order_book_pressure df;
    trade_ratio ← trade_dominance trades_df;
    volumes ← getitem volume_df "volume" DataStream.b_volume;
    all_prices ← getitem trades_df "price" DataStream.t_price;
    let prices := drop (List.length all_prices - 100) all_prices in
    let ema_fast := calculate_ema prices 12 in
    let ema_slow := calculate_ema prices 26 in
    let rsi := calculate_rsi prices 14 in
    vwap ← calculate_vwap trades_df;
    atr ← calculate_atr prices 14;
    let latest_price := default 0 (last prices) in
    last_fast ← iloc_last ema_fast;
    last_slow ← iloc_last ema_slow;
    vol_score ← volume_trend volume_df;
    rsi_last ← iloc_last rsi;
    buy ← and_then (xgtb ob_ratio (Fin (13 # 10)) &&
                    xgtb trade_ratio (Fin (12 # 10)) &&
                    root_gtb vol_score (1 # 2) &&
                    Qltb last_slow last_fast &&
                    xltb rsi_last (Fin 70))
                   (gt_vwap latest_price vwap);
    if (buy : bool) then Ok "BUY"
    else
      sell ← and_then (xltb ob_ratio (Fin (7 # 10)) &&
                       xltb trade_ratio (Fin (8 # 10)) &&
                       root_ltb vol_score (- (1 # 2)) &&
                       Qltb last_fast last_slow &&
                       xgtb rsi_last (Fin 30))
                      (lt_vwap latest_price vwap);
      if (sell : bool) then Ok "SELL" else Ok "HOLD".

End Signal.

(** * main.py *)
Module Main.

Definition SYMBOL : string := "LTCUSDT".
Definition LEVERAGE : Q := 20.
Definition RISK_PER_TRADE : Q := 9 # 10.
Definition INITIAL_SL : Q := 2 # 100.
Definition DYNAMIC_SL : Q := 2 # 100.
Definition DRY_RUN : bool := false.

(** The names main.py imports from [binance.enums]. *)
Definition SIDE_BUY : string := "BUY".
Definition SIDE_SELL : string := "SELL".
Definition ORDER_TYPE_MARKET : string := "MARKET".
Definition ORDER_TYPE_STOP_LOSS : string := "STOP_LOSS".

(** [place_stop_order] reads [ORDER_TYPE_STOP_MARKET], which main.py neither
    imports nor binds: evaluating the name raises. *)
Definition ORDER_TYPE_STOP_MARKET : outcome string :=
  Raise (NameError "ORDER_TYPE_STOP_MARKET").

(** ** The exchange client *)

Record OrderRequest := {
  rq_symbol : string;
  rq_side : string;
  rq_type : string;
  rq_quantity : Q;
  rq_stopPrice : option Q;
  rq_reduceOnly : bool
}.

(** The fields read of the order the exchange returns. *)
Record OrderReply := { rp_status : string; rp_orderId : Z }.

(** The requests made of the client, in the order they are made. *)
Inductive Call :=
| CallSymbolTicker
| CallAccount
| CallCreateOrder (rq : OrderRequest)
| CallCancelOrder (orderId : Z).

(** The exchange is any state [X] with the calls of [client] the trading
    loop uses.  Each call may raise.  [futures_symbol_ticker] answers the
    price, read by [float]; [futures_account] answers the available USDT
    balance, and raises when no asset is USDT. *)
Class Exchange (X : Type) := {
  futures_symbol_ticker : X -> outcome Q * X;
  futures_account : X -> outcome Q * X;
  futures_create_order : OrderRequest -> X -> outcome OrderReply * X;
  futures_cancel_order : Z -> X -> outcome unit * X
}.

(** The globals of main.py ([position], and [command_queue], which it
    imports from data_stream.py), the exchange and the requests made. *)
Record World (X : Type) := {
  exchange : X;
  calls : list Call;
  position : Position;
  command_queue : list Command
}.
Arguments exchange {X} w.
Arguments calls {X} w.
Arguments position {X} w.
Arguments command_queue {X} w.

Definition M (X A : Type) : Type := World X -> outcome A * World X.

#[global] Instance M_ret X : MRet (M X) := fun A a w => (Ok a, w).
#[global] Instance M_bind X : MBind (M X) := fun A B f c w =>
  match c w with
  | (Ok a, w') => f a w'
  | (Raise err, w') => (Raise err, w')
  end.

(** ** The frames of the trading loop *)

(** [pd.DataFrame(records)] of a list of dicts with the keys [keys]: no
    record, no column. *)
Definition DataFrame_records {R} (keys : list string) (records : list R)
  : Signal.Frame R :=
  {| Signal.columns := match records with [] => [] | _ => keys end;
     Signal.rows := records |}.

(** [pd.DataFrame({"price": .., "bid_qty": .., "ask_price": .., "ask_qty": ..})]:
    the four lists must have one length. *)
Definition DataFrame_levels (price bid_qty ask_price ask_qty : list Q)
  : outcome (Signal.Frame Signal.Level) :=
  let n := List.length price in
  if (List.length bid_qty =? n)%nat && (List.length ask_price =? n)%nat &&
     (List.length ask_qty =? n)%nat
  then Ok {| Signal.columns := ["price"; "bid_qty"; "ask_price"; "ask_qty"];
             Signal.rows :=
               zip_with (fun b a =>
                           {| Signal.lv_price := b.1; Signal.lv_bid_qty := b.2;
                              Signal.lv_ask_price := a.1; Signal.lv_ask_qty := a.2 |})
                        (zip price bid_qty) (zip ask_price ask_qty) |}
  else Raise ValueError.

Record DecisionInputs := {
  in_df : Signal.Frame Signal.Level;
  in_trades_df : Signal.Frame Signal.Trade;
  in_volume_df : Signal.Frame Signal.Bucket;
  in_ticker : Q
}.

(** What [run_trading] builds from a snapshot and passes to
    [generate_signal].  The frames of trades and of volumes copy the dicts
    the snapshot refers to, as they are in [s]. *)
Definition decision_inputs (s : DataStream.Store) (snapshot : DataStream.Snapshot)
  : outcome DecisionInputs :=
  let trades := DataStream.snap_trades snapshot in
  let volumes := DataStream.snap_volume_history snapshot in
  let ticker := DataStream.snap_ticker_pct snapshot in
  let bids := DataStream.snap_bids snapshot in
  let asks := DataStream.snap_asks snapshot in
  let min_len := Nat.min (List.length bids) (List.length asks) in
  let bids := take min_len bids in
  let asks := take min_len asks in
  df ← DataFrame_levels (map fst bids) (map snd bids) (map fst asks) (map snd asks);
  let trades_df :=
    DataFrame_records ["price"; "qty"; "is_buyer_maker"; "time"; "side"]
                      (DataStream.deref (DataStream.trade_objs s) trades) in
  let volume_df :=
    DataFrame_records ["time"; "volume"]
                      (DataStream.deref (DataStream.bucket_objs s) volumes) in
  Ok {| in_df := df; in_trades_df := trades_df; in_volume_df := volume_df;
        in_ticker := ticker |}.

(** [str.lower] on ASCII. *)
Definition lower_ascii (c : Ascii.ascii) : Ascii.ascii :=
  let n := Ascii.nat_of_ascii c in
  if (65 <=? n)%nat && (n <=? 90)%nat then Ascii.ascii_of_nat (n + 32) else c.

Fixpoint lower (s : string) : string :=
  match s with
  | EmptyString => EmptyString
  | String c rest => String (lower_ascii c) (lower rest)
  end.

Section Trading.
Context {X : Type} `{Exchange X} `{FloatResidue}.

Definition lift {A} (o : outcome A) : M X A := fun w => (o, w).

(** [try: body except Exception as e: handler]. *)
Definition try_except {A} (body : M X A) (handler : exn -> M X A) : M X A :=
  fun w =>
    match body w with
    | (Ok a, w') => (Ok a, w')
    | (Raise err, w') => handler err w'
    end.

Definition get_position : M X Position := fun w => (Ok (position w), w).

Definition update_position (f : Position -> Position) : M X unit := fun w =>
  (Ok tt, {| exchange := exchange w; calls := calls w;
             position := f (position w);
             command_queue := command_queue w |}).

Definition set_command_queue (q : list Command) : M X unit := fun w =>
  (Ok tt, {| exchange := exchange w; calls := calls w;
             position := position w; command_queue := q |}).

(** A call of the client: the exchange moves and the request is recorded. *)
Definition request {A} (c : Call) (f : X -> outcome A * X) : M X A := fun w =>
  let (r, x) := f (exchange w) in
  (r, {| exchange := x; calls := calls w ++ [c];
         position := position w; command_queue := command_queue w |}).

(** ** Helpers *)

Definition fetch_balance : M X Q :=
  try_except (request CallAccount futures_account) (fun _ => mret 0).

Definition calc_qty (balance price : Q) : outcome Q :=
  let risk_amount := balance * RISK_PER_TRADE in
  qty ← py_div (risk_amount * LEVERAGE) price;
  Ok (py_round qty 3).

(** The dict [place_market_order] returns. *)
Record MarketResult := { res_status : string; res_orderId : option Z }.

Definition place_market_order (side : string) (qty : Q) : M X MarketResult :=
  if DRY_RUN then mret {| res_status := "FILLED"; res_orderId := None |}
  else
    try_except
      (let rq := {| rq_symbol := SYMBOL; rq_side := side;
                    rq_type := ORDER_TYPE_MARKET; rq_quantity := qty;
                    rq_stopPrice := None; rq_reduceOnly := false |} in
       order ← request (CallCreateOrder rq) (futures_create_order rq);
       mret {| res_status := rp_status order;
               res_orderId := Some (rp_orderId order) |})
      (fun _ => mret {| res_status := "FAILED"; res_orderId := None |}).

(** Returns the ["orderId"] of the dict the source returns. *)
Definition place_stop_order (side : string) (qty stop_price : Q)
  : M X (option Z) :=
  if DRY_RUN then mret (Some 999999%Z)
  else
    try_except
      (order_type ← lift ORDER_TYPE_STOP_MARKET;
       let rq := {| rq_symbol := SYMBOL; rq_side := side;
                    rq_type := order_type; rq_quantity := qty;
                    rq_stopPrice := Some (py_round stop_price 2);
                    rq_reduceOnly := true |} in
       order ← request (CallCreateOrder rq) (futures_create_order rq);
       mret (Some (rp_orderId order)))
      (fun _ => mret None).

(** [not order_id] holds of [None] and of [0]. *)
Definition cancel_stop_order (order_id : option Z) : M X unit :=
  match order_id with
  | None => mret tt
  | Some i =>
      if DRY_RUN || (i =? 0)%Z then mret tt
      else try_except (request (CallCancelOrder i) (futures_cancel_order i))
                      (fun _ => mret tt)
  end.

(** [x - entry] and the like, where [entry] may be [None]. *)
Definition as_float (v : option Q) : outcome Q :=
  match v with Some x => Ok x | None => Raise TypeError end.

(** [new_stop != position["stop_price"]]. *)
Definition differs (new_stop : Q) (recorded : option Q) : bool :=
  match recorded with Some s => negb (Qeq_bool new_stop s) | None => true end.

Definition update_trailing_stop (current_price : Q) : M X unit :=
  p ← get_position;
  match state p with
  | none => mret tt
  | st =>
      entry ← lift (as_float (entry p));
      let qty := qty p in
      let pnl :=
        match st with
        | long => (current_price - entry) * qty * LEVERAGE
        | _ => (entry - current_price) * qty * LEVERAGE
        end in
      if Qltb (max_pnl p) pnl then
        _ ← update_position (set_max_pnl pnl);
        let trail_pnl := pnl * (1 - DYNAMIC_SL) in
        price_diff ← lift (py_div trail_pnl (qty * LEVERAGE));
        let new_stop :=
          match st with
          | long => entry + price_diff
          | _ => entry - price_diff
          end in
        if differs new_stop (stop_price p) then
          _ ← cancel_stop_order (stop_order_id p);
          let stop_side :=
            match st with long => SIDE_SELL | _ => SIDE_BUY end in
          stop_res ← place_stop_order stop_side qty new_stop;
          update_position
            (fun p => set_stop_order_id stop_res (set_stop_price (Some new_stop) p))
        else mret tt
      else mret tt
  end.

(** The argument [snapshot] is not read. *)
Definition enter_position (signal : string) (snapshot : DataStream.Snapshot)
  : M X unit :=
  price ← request CallSymbolTicker futures_symbol_ticker;
  balance ← fetch_balance;
  qty ← lift (calc_qty balance price);
  if Qltb (qty * price) 20 then mret tt
  else
    let side := if String.eqb signal "BUY" then SIDE_BUY else SIDE_SELL in
    res ← place_market_order side qty;
    if String.eqb (res_status res) "FAILED" then mret tt
    else update_position (set_entry_order_id (res_orderId res)).

Definition close_position (current_price : Q) : M X unit :=
  p ← get_position;
  match state p with
  | none => mret tt
  | st =>
      let side := match st with long => SIDE_SELL | _ => SIDE_BUY end in
      let qty := qty p in
      res ← place_market_order side qty;
      if String.eqb (res_status res) "FAILED" then mret tt
      else
        _ ← cancel_stop_order (stop_order_id p);
        update_position (fun _ => position_init)
  end.

(** ** The trading loop: one pass of the body of [while True] *)

(** The [while not command_queue.empty()] loop over the commands present. *)
Fixpoint apply_commands (commands : list Command) : M X unit :=
  match commands with
  | [] => mret tt
  | command :: rest =>
      _ ← set_command_queue rest;
      _ ← (if String.eqb (cmd_name command) "place_stop_order" then
             stop_res ← place_stop_order (cmd_side command) (cmd_qty command)
                                         (cmd_stop_price command);
             _ ← update_position (set_stop_price (Some (cmd_stop_price command)));
             update_position (set_stop_order_id stop_res)
           else mret tt);
      apply_commands rest
  end.

Definition drain_commands : M X unit :=
  fun w => apply_commands (command_queue w) w.

(** The stop-out test; a comparison with a stop price of [None] raises. *)
Definition stop_crossed (p : Position) (price : Q) : outcome bool :=
  match state p with
  | long => stop ← as_float (stop_price p); Ok (Qle_bool price stop)
  | short => stop ← as_float (stop_price p); Ok (Qle_bool stop price)
  | none => Ok false
  end.

(** [s] is the state of data_stream.py when the pass takes its snapshot and
    builds its frames.  The snapshot always has both sides of the book, so
    the pass is never skipped for a missing side. *)
Definition run_trading_iteration (s : DataStream.Store) : M X unit :=
  _ ← drain_commands;
  let snapshot := DataStream.get_snapshot s in
  inputs ← lift (decision_inputs s snapshot);
  signal ← lift (Signal.generate_signal (in_df inputs) (in_trades_df inputs)
                   (in_volume_df inputs) (in_ticker inputs));
  price ← request CallSymbolTicker futures_symbol_ticker;
  p ← get_position;
  _ ← (match state p with
       | none => mret tt
       | _ =>
           _ ← update_trailing_stop price;
           p ← get_position;
           crossed ← lift (stop_crossed p price);
           if (crossed : bool) then close_position price else mret tt
       end);
  p ← get_position;
  if (String.eqb signal "BUY" || String.eqb signal "SELL") &&
     negb (String.eqb (state_str (state p)) (lower signal))
  then
    _ ← close_position price;
    enter_position signal snapshot
  else mret tt.

End Trading.
End Main.

(** * A paper exchange, to run the embedding on concrete inputs *)

(** The runs on concrete inputs are runs of the execution [no_residue]. *)
#[local] Existing Instance no_residue.

Record Paper := { paper_price : Q; paper_balance : Q; paper_next_id : Z }.

#[global] Instance paper_exchange : Main.Exchange Paper := {|
  Main.futures_symbol_ticker x := (Ok (paper_price x), x);
  Main.futures_account x := (Ok (paper_balance x), x);
  Main.futures_create_order rq x :=
    (Ok {| Main.rp_status := "NEW"; Main.rp_orderId := paper_next_id x |},
     {| paper_price := paper_price x; paper_balance := paper_balance x;
        paper_next_id := (paper_next_id x + 1)%Z |});
  Main.futures_cancel_order i x := (Ok tt, x)
|}.

Definition paper_world (price balance : Q) (p : Position) (q : list Command)
  : Main.World Paper :=
  {| Main.exchange := {| paper_price := price; paper_balance := balance;
                         paper_next_id := 42 |};
     Main.calls := []; Main.position := p; Main.command_queue := q |}.

(** * The statements of the properties: predicates, runs and inputs *)

(** ** The trailing stop *)

(** The stop price [max_pnl] stands for, on a position entered at [e]. *)
Definition stop_of_max_pnl (p : Position) (e : Q) : Q :=
  match state p with
  | long => e + max_pnl p * (1 - Main.DYNAMIC_SL) / (qty p * Main.LEVERAGE)
  | _ => e - max_pnl p * (1 - Main.DYNAMIC_SL) / (qty p * Main.LEVERAGE)
  end.

(** The stop moved from [old] to [new] without moving against a position of
    direction [st]: up for a long position, down for a short one. *)
Definition never_against (st : PosState) (old new : option Q) : Prop :=
  match old, new with
  | Some a, Some b =>
      match st with long => a <= b | short => b <= a | none => True end
  | None, _ => True
  | Some _, None => False
  end.

Fixpoint ratchets (st : PosState) (prev : option Q) (stops : list (option Q))
  : Prop :=
  match stops with
  | [] => True
  | x :: rest => never_against st prev x /\ ratchets st x rest
  end.

(** An open position as the fill and the trailing updates leave it: a
    positive quantity, an entry price, and a stop (once it is recorded) no
    further than the one [max_pnl] stands for. *)
Definition open_position (p : Position) : Prop :=
  state p <> none /\ 0 < qty p /\
  exists e, entry p = Some e /\
            never_against (state p) (stop_price p) (Some (stop_of_max_pnl p e)).

Section TrailingRun.
Context {X : Type} `{Main.Exchange X} `{FloatResidue}.

(** The outcome of each call of [update_trailing_stop] along [prices] and
    the stop price recorded after it. *)
Fixpoint trailing_run (prices : list Q) (w : Main.World X)
  : list (outcome unit * option Q) :=
  match prices with
  | [] => []
  | current_price :: rest =>
      let (r, w') := Main.update_trailing_stop current_price w in
      (r, stop_price (Main.position w')) :: trailing_run rest w'
  end.

End TrailingRun.

(** A long position of 1 entered at 100, its stop at 98. *)
Definition long_100 : Position :=
  {| state := long; entry_order_id := Some 42%Z; stop_order_id := None;
     entry := Some 100; qty := 1; max_pnl := 0; stop_price := Some 98 |}.

(** ** The fill of the entry order *)

(** The scenario of the design document: order 42, BUY, quantity 1 at 100. *)
Definition fill_42 : DataStream.Msg :=
  {| DataStream.msg_e := "ORDER_TRADE_UPDATE";
     DataStream.msg_payload :=
       DataStream.OrderFields
         {| DataStream.o_i := 42; DataStream.o_X := "FILLED";
            DataStream.o_S := "BUY"; DataStream.o_z := 1;
            DataStream.o_ap := 100 |} |}.

(** ** Frames *)

Definition no_asks_frame : Signal.Frame Signal.Level :=
  {| Signal.columns := ["price"; "bid_qty"; "ask_price"; "ask_qty"];
     Signal.rows := [{| Signal.lv_price := 100; Signal.lv_bid_qty := 2;
                        Signal.lv_ask_price := 101; Signal.lv_ask_qty := 0 |}] |}.

(** The frame of one trade, a BUY. *)
Definition buys_only_frame : Signal.Frame Signal.Trade :=
  Main.DataFrame_records ["price"; "qty"; "is_buyer_maker"; "time"; "side"]
    [{| DataStream.t_price := 100; DataStream.t_qty := 1;
        DataStream.t_is_buyer_maker := false; DataStream.t_time := 0;
        DataStream.t_side := "BUY" |}].

Definition one_level_frame : Signal.Frame Signal.Level :=
  {| Signal.columns := ["price"; "bid_qty"; "ask_price"; "ask_qty"];
     Signal.rows := [{| Signal.lv_price := 100; Signal.lv_bid_qty := 2;
                        Signal.lv_ask_price := 101; Signal.lv_ask_qty := 3 |}] |}.

(** [pd.DataFrame([])], the frame the trading loop builds from an empty
    [volume_history]. *)
Definition no_volume_frame : Signal.Frame Signal.Bucket :=
  Main.DataFrame_records ["time"; "volume"] [].

(** ** The pass of the trading loop *)

Section Pass.
Context {X : Type} `{Main.Exchange X} `{FloatResidue}.

(** What a pass of [run_trading] does once [generate_signal] has answered
    [signal]: main.py, lines 233 to 244. *)
Definition pass_on_signal (signal : string) (snapshot : DataStream.Snapshot)
  : Main.M X unit :=
  price ← Main.request Main.CallSymbolTicker Main.futures_symbol_ticker;
  p ← Main.get_position;
  _ ← (match state p with
       | none => mret tt
       | _ =>
           _ ← Main.update_trailing_stop price;
           p ← Main.get_position;
           crossed ← Main.lift (Main.stop_crossed p price);
           if (crossed : bool) then Main.close_position price else mret tt
       end);
  p ← Main.get_position;
  if (String.eqb signal "BUY" || String.eqb signal "SELL") &&
     negb (String.eqb (state_str (state p)) (Main.lower signal))
  then
    _ ← Main.close_position price;
    Main.enter_position signal snapshot
  else mret tt.

End Pass.

(** ** The feed handlers *)

(** A message that is no depth update, trade or ticker: the notice the
    websocket manager hands a callback when its stream fails. *)
Definition error_notice : DataStream.Msg :=
  {| DataStream.msg_e := "error"; DataStream.msg_payload := DataStream.NoFields |}.

(** ** The snapshot *)

(** [snapshot["trades"][i]["qty"] = v] and
    [snapshot["volume_history"][i]["volume"] = v], as a holder of the
    snapshot may write them: the dict the item refers to is updated. *)
Definition snapshot_set_trade_qty (snapshot : DataStream.Snapshot) (i : nat)
    (v : Q) (s : DataStream.Store) : DataStream.Store :=
  match DataStream.snap_trades snapshot !! i with
  | Some l =>
      match DataStream.trade_objs s !! l with
      | Some t =>
          DataStream.set_trade_objs
            (<[l := {| DataStream.t_price := DataStream.t_price t;
                       DataStream.t_qty := v;
                       DataStream.t_is_buyer_maker := DataStream.t_is_buyer_maker t;
                       DataStream.t_time := DataStream.t_time t;
                       DataStream.t_side := DataStream.t_side t |}]>
               (DataStream.trade_objs s)) s
      | None => s
      end
  | None => s
  end.

Definition snapshot_set_bucket_volume (snapshot : DataStream.Snapshot) (i : nat)
    (v : Q) (s : DataStream.Store) : DataStream.Store :=
  match DataStream.snap_volume_history snapshot !! i with
  | Some l =>
      match DataStream.bucket_objs s !! l with
      | Some b =>
          DataStream.set_bucket_objs
            (<[l := {| DataStream.b_time := DataStream.b_time b;
                       DataStream.b_volume := v |}]>
               (DataStream.bucket_objs s)) s
      | None => s
      end
  | None => s
  end.

(** The trades and the buckets the live state holds. *)
Definition live_trades (s : DataStream.Store) : list DataStream.Trade :=
  DataStream.deref (DataStream.trade_objs s) (DataStream.trades s).

Definition live_buckets (s : DataStream.Store) : list DataStream.Bucket :=
  DataStream.deref (DataStream.bucket_objs s) (DataStream.volume_history s).

(** The buckets a snapshot shows when it is read in the state [s]. *)
Definition snapshot_buckets (snapshot : DataStream.Snapshot)
    (s : DataStream.Store) : list DataStream.Bucket :=
  DataStream.deref (DataStream.bucket_objs s)
                   (DataStream.snap_volume_history snapshot).

Definition trade_msg (p q : Q) (m : bool) (T : Z) : DataStream.Msg :=
  {| DataStream.msg_e := "trade";
     DataStream.msg_payload := DataStream.TradeFields p q m T |}.

(** The state after one trade of quantity 1 at second 30, consumed at
    second 30. *)
Definition store_one_trade : DataStream.Store :=
  match DataStream._process_trades 30 (trade_msg 100 1 false 30000)
          DataStream.state_init with
  | Ok s => s
  | Raise _ => DataStream.state_init
  end.

(** ** The position invariant *)

(** The invariant as the design document states it. *)
Definition documented_position_invariant (p : Position) : Prop :=
  (state p = none ->
   entry_order_id p = None /\ stop_order_id p = None /\ entry p = None /\
   stop_price p = None /\ qty p == 0 /\ max_pnl p == 0) /\
  (state p <> none ->
   exists e, entry p = Some e /\ ~ e == 0 /\ ~ qty p == 0).

(** The invariant without [entry_order_id]. *)
Definition position_invariant (p : Position) : Prop :=
  (state p = none ->
   stop_order_id p = None /\ entry p = None /\ stop_price p = None /\
   qty p == 0 /\ max_pnl p == 0) /\
  (state p <> none -> exists e, entry p = Some e /\ 0 < e /\ 0 < qty p).

(** The invariant without [entry_order_id] and [stop_price]: no stop order
    is recorded, the entry and the quantity go with the state. *)
Definition shared_record_invariant (p : Position) : Prop :=
  stop_order_id p = None /\
  (state p = none -> entry p = None /\ qty p == 0 /\ max_pnl p == 0) /\
  (state p <> none -> exists e, entry p = Some e /\ 0 < e /\ 0 < qty p).

(** A fill reports a positive cumulative quantity and average price. *)
Definition fill_reported (msg : DataStream.Msg) : Prop :=
  forall o, DataStream.msg_payload msg = DataStream.OrderFields o ->
            DataStream.o_X o = "FILLED" ->
            0 < DataStream.o_z o /\ 0 < DataStream.o_ap o.

(** A write that leaves the state, the entry and the quantity, and the best
    profit of a closed position, and records no stop order, keeps the
    invariant. *)
Definition same_core (p p' : Position) : Prop :=
  state p' = state p /\ entry p' = entry p /\ qty p' = qty p /\
  (state p = none -> max_pnl p' = max_pnl p) /\
  (stop_order_id p = None -> stop_order_id p' = None).

Section Writers.
Context {X : Type} `{Main.Exchange X} `{FloatResidue}.

(** One writer of a position record runs from start to end, whatever it
    returns.  data_stream.py writes its record through [user_handler] only
    and main.py writes its own through the others, so a state either record
    reaches is reachable here, and an invariant of [reachable] holds of
    both. *)
Inductive step : Main.World X -> Main.World X -> Prop :=
| step_user_handler w msg p q :
    fill_reported msg ->
    DataStream.user_handler (Main.position w) (Main.command_queue w) msg = Ok (p, q) ->
    step w {| Main.exchange := Main.exchange w; Main.calls := Main.calls w;
              Main.position := p; Main.command_queue := q |}
| step_drain_commands w r w' :
    Main.drain_commands w = (r, w') -> step w w'
| step_update_trailing_stop w current_price r w' :
    Main.update_trailing_stop current_price w = (r, w') -> step w w'
| step_close_position w current_price r w' :
    Main.close_position current_price w = (r, w') -> step w w'
| step_enter_position w signal snapshot r w' :
    Main.enter_position signal snapshot w = (r, w') -> step w w'
| step_run_trading_iteration w s r w' :
    Main.run_trading_iteration s w = (r, w') -> step w w'.

Inductive reachable : Main.World X -> Prop :=
| reachable_init x :
    reachable {| Main.exchange := x; Main.calls := [];
                 Main.position := position_init; Main.command_queue := [] |}
| reachable_step w w' : reachable w -> step w w' -> reachable w'.

(** A computation keeps the invariant; a computation leaves the position
    as it is. *)
Definition keeps {A} (c : Main.M X A) : Prop :=
  forall w r w', c w = (r, w') ->
    shared_record_invariant (Main.position w) ->
    shared_record_invariant (Main.position w').

Definition frame {A} (c : Main.M X A) : Prop :=
  forall w r w', c w = (r, w') -> Main.position w' = Main.position w.

End Writers.

(** The world once [enter_position] has placed a BUY order on the paper
    exchange, and once the fill of that order has been handled. *)
Definition world_after_entry : Main.World Paper :=
  (Main.enter_position "BUY" (DataStream.get_snapshot DataStream.state_init)
     (paper_world 100 1000 position_init [])).2.

Definition world_after_fill : Main.World Paper :=
  match DataStream.user_handler (Main.position world_after_entry)
          (Main.command_queue world_after_entry) fill_42 with
  | Ok (p, q) =>
      {| Main.exchange := Main.exchange world_after_entry;
         Main.calls := Main.calls world_after_entry;
         Main.position := p; Main.command_queue := q |}
  | Raise _ => world_after_entry
  end.

(** The world after that fill once its stop command is drained and the stop
    trailed at a price of 110, and once the fill of order 42, reported a
    second time, has been handled again. *)
Definition world_trailed : Main.World Paper :=
  (Main.update_trailing_stop 110 (Main.drain_commands world_after_fill).2).2.

Definition world_refilled : Main.World Paper :=
  match DataStream.user_handler (Main.position world_trailed)
          (Main.command_queue world_trailed) fill_42 with
  | Ok (p, q) =>
      {| Main.exchange := Main.exchange world_trailed;
         Main.calls := Main.calls world_trailed;
         Main.position := p; Main.command_queue := q |}
  | Raise _ => world_trailed
  end.

(** The world after the first fill once [close_position] has run and the
    stop command of the fill, still on the queue, is drained. *)
Definition world_closed : Main.World Paper :=
  (Main.drain_commands (Main.close_position 100 world_after_fill).2).2.

(** A record in state [long] with a negative quantity. *)
Definition long_sold : Position :=
  {| state := long; entry_order_id := Some 42%Z; stop_order_id := None;
     entry := Some 100; qty := - (1); max_pnl := 0; stop_price := Some 98 |}.

(** ** The volume buckets *)

(** A trade event: the clock reading [time.time()] when its consumer applies
    it, the consumer that applies it, and the fields of the message. *)
Record TradeEvent := {
  ev_now : Q;
  ev_agg : bool;
  ev_p : Q;
  ev_q : Q;
  ev_m : bool;
  ev_T : Z
}.

Definition consume_event (ev : TradeEvent) (s : DataStream.Store)
  : outcome DataStream.Store :=
  let msg := trade_msg (ev_p ev) (ev_q ev) (ev_m ev) (ev_T ev) in
  if ev_agg ev then DataStream._process_aggtrades (ev_now ev) msg s
  else DataStream._process_trades (ev_now ev) msg s.

Fixpoint consume (events : list TradeEvent) (s : DataStream.Store)
  : outcome DataStream.Store :=
  match events with
  | [] => Ok s
  | ev :: rest => s' ← consume_event ev s; consume rest s'
  end.

(** The start, in seconds, of the minute a clock reading lies in. *)
Definition clock_minute (now : Q) : Z := (Qfloor (now / 60) * 60)%Z.

(** The volume [_update_volumes_locked] computes: the quantities of the
    trades of the ring stamped at or after second [since]. *)
Definition volume_since (since : Z) (s : DataStream.Store) : Q :=
  DataStream.py_sum
    (map DataStream.t_qty
         (filter (fun trade => (since <=? DataStream.t_time trade / 1000)%Z)
                 (live_trades s))).

Definition wf_buckets (s : DataStream.Store) : Prop :=
  forall l, l ∈ DataStream.volume_history s ->
            is_Some (DataStream.bucket_objs s !! l).

(** The ring of bucket times after [events]: strictly increasing, at most
    20 long, made of clock minutes of the events; a clock minute of an event
    is missing only when the ring is full of later minutes; the last time is
    the clock minute of the last event. *)
Definition ring_ok (events : list TradeEvent) (times : list Z) : Prop :=
  StronglySorted Z.lt times /\
  (List.length times <= 20)%nat /\
  (forall m, m ∈ times -> exists ev, ev ∈ events /\ clock_minute (ev_now ev) = m) /\
  (forall ev, ev ∈ events ->
     clock_minute (ev_now ev) ∈ times \/
     (List.length times = 20%nat /\ Forall (Z.lt (clock_minute (ev_now ev))) times)) /\
  (forall ev, last events = Some ev -> last times = Some (clock_minute (ev_now ev))).

(** The minute, in seconds, a timestamp in milliseconds lies in. *)
Definition trade_minute (T : Z) : Z := (T / 1000 / 60 * 60)%Z.

(** The property as the design document states it, for the trades [events]
    and the state [s] they lead to: one bucket for each distinct minute a
    trade is stamped in, and in the last bucket the quantities of the trades
    of the ring stamped in its minute. *)
Definition documented_volume_history (events : list TradeEvent)
    (s : DataStream.Store) : Prop :=
  NoDup (map DataStream.b_time (live_buckets s)) /\
  (forall m, m ∈ map DataStream.b_time (live_buckets s) <->
             exists ev, ev ∈ events /\ trade_minute (ev_T ev) = m) /\
  (forall b, last (live_buckets s) = Some b ->
     DataStream.b_volume b ==
     DataStream.py_sum
       (map DataStream.t_qty
            (filter (fun t => (trade_minute (DataStream.t_time t) =? DataStream.b_time b)%Z)
                    (live_trades s)))).

(** A trade of quantity 1 at the start of minute [k], applied at once. *)
Definition minute_trade (k : nat) : TradeEvent :=
  {| ev_now := inject_Z (60 * Z.of_nat k); ev_agg := false; ev_p := 100;
     ev_q := 1; ev_m := false; ev_T := 60000 * Z.of_nat k |}.

(** A trade stamped at second 360 and applied when the local clock, a tenth
    of a second behind, reads 359.9. *)
Definition early_clock_trade : TradeEvent :=
  {| ev_now := 3599 # 10; ev_agg := true; ev_p := 100; ev_q := 1;
     ev_m := false; ev_T := 360000 |}.

(** The state the consumers reach from the initial state. *)
Definition store_after (events : list TradeEvent) : DataStream.Store :=
  match consume events DataStream.state_init with
  | Ok s => s
  | Raise _ => DataStream.state_init
  end.

(** ** A rising market *)

(** Twenty trades, one every three seconds from second 54 on, each applied
    at its own second, by the two consumers in turn: the price goes up 2
    and down 1 in turn, the rises bought (quantity 2), the falls sold
    (quantity 1). *)
Definition zigzag_trade (k : nat) : TradeEvent :=
  let T := (1000 * (54 + 3 * Z.of_nat k))%Z in
  {| ev_now := inject_Z (T / 1000); ev_agg := Nat.even k;
     ev_p := inject_Z (100 + Z.of_nat k / 2 + (if Nat.odd k then 2 else 0));
     ev_q := if Nat.odd k then 2 else 1;
     ev_m := Nat.even k;
     ev_T := T |}.

Definition book_update : DataStream.Msg :=
  {| DataStream.msg_e := "depthUpdate";
     DataStream.msg_payload :=
       DataStream.DepthFields [(100, 2); (99, 4)] [(101, 1)] 7 |}.

(** The state after the twenty trades and the update of the book. *)
Definition rising_market : DataStream.Store :=
  match DataStream._process_depth book_update
          (store_after (map zigzag_trade (seq 0 20))) with
  | Ok s => s
  | Raise _ => DataStream.state_init
  end.

(** * Further statements: observations and runs of the other functions *)

(** ** The feed handlers on a burst *)

(** The messages [msgs] handed to a feed handler one after the other: the
    queue they leave and the warnings logged. *)
Definition deliver (handler : list DataStream.Msg -> DataStream.Msg ->
                              list DataStream.Msg * list string)
    (queue : list DataStream.Msg) (msgs : list DataStream.Msg)
  : list DataStream.Msg * list string :=
  fold_left (fun st msg => let (q, log) := handler st.1 msg in (q, st.2 ++ log))
            msgs (queue, []).

(** A message that no handler expects. *)
Definition error_msg : DataStream.Msg :=
  {| DataStream.msg_e := "error"; DataStream.msg_payload := DataStream.NoFields |}.

(** The messages of a burst that carry the tag of the depth stream. *)
Definition depth_tagged (msgs : list DataStream.Msg) : list DataStream.Msg :=
  filter (fun msg => DataStream.msg_e msg = "depthUpdate") msgs.

(** ** The order book *)

(** [d.get(k)] on a side of the book. *)
Fixpoint dict_get (d : list (Q * Q)) (k : Q) : option Q :=
  match d with
  | [] => None
  | (k', v) :: d' => if Qeq_bool k' k then Some v else dict_get d' k
  end.

(** The quantity the last pair of [updates] for the level [k] carries. *)
Definition last_write (updates : list (Q * Q)) (k : Q) : option Q :=
  snd <$> last (filter (fun pq => Qeq_bool pq.1 k) updates).

(** The quantity of the level [k] in the book [d] after the writes
    [updates]. *)
Definition book_after (d : list (Q * Q)) (updates : list (Q * Q)) (k : Q)
  : option Q :=
  match last_write updates k with
  | Some v => Some v
  | None => dict_get d k
  end.

(** The keys of a dict whose keys were [known], after writes at the keys
    [arrivals]: a key not yet known goes to the end. *)
Definition arrival_order (known arrivals : list Q) : list Q :=
  fold_left (fun ks k =>
               if existsb (fun k' => Qeq_bool k' k) ks then ks else ks ++ [k])
            arrivals known.

(** The writes a run of depth updates makes on each side, in order. *)
Definition bid_writes (updates : list (list (Q * Q) * list (Q * Q) * Z))
  : list (Q * Q) := concat (map (fun u => u.1.1) updates).

Definition ask_writes (updates : list (list (Q * Q) * list (Q * Q) * Z))
  : list (Q * Q) := concat (map (fun u => u.1.2) updates).

(** A depth message, and the depth consumer on a run of them. *)
Definition depth_msg (update : list (Q * Q) * list (Q * Q) * Z) : DataStream.Msg :=
  {| DataStream.msg_e := "depthUpdate";
     DataStream.msg_payload :=
       DataStream.DepthFields update.1.1 update.1.2 update.2 |}.

Fixpoint consume_depth (updates : list (list (Q * Q) * list (Q * Q) * Z))
    (s : DataStream.Store) : outcome DataStream.Store :=
  match updates with
  | [] => Ok s
  | u :: rest => s' ← DataStream._process_depth (depth_msg u) s; consume_depth rest s'
  end.

(** ** The ring of trades *)

(** The dict the trade consumers build from an event. *)
Definition event_trade (ev : TradeEvent) : DataStream.Trade :=
  {| DataStream.t_price := ev_p ev; DataStream.t_qty := ev_q ev;
     DataStream.t_is_buyer_maker := ev_m ev; DataStream.t_time := ev_T ev;
     DataStream.t_side := if ev_m ev then "SELL" else "BUY" |}.

Definition wf_trades (s : DataStream.Store) : Prop :=
  forall l, l ∈ DataStream.trades s ->
            is_Some (DataStream.trade_objs s !! l).

(** The trades the ring holds after [events]: the last 100. *)
Definition recent_trades (events : list TradeEvent) : list DataStream.Trade :=
  drop (List.length events - 100) (map event_trade events).

(** The bucket of the clock minute of the last event, counted on the ring. *)
Definition current_bucket (events : list TradeEvent) : option DataStream.Bucket :=
  ev ← last events;
  Some {| DataStream.b_time := clock_minute (ev_now ev);
          DataStream.b_volume :=
            DataStream.py_sum
              (map DataStream.t_qty
                 (filter (fun trade =>
                            (clock_minute (ev_now ev) <=?
                             DataStream.t_time trade / 1000)%Z)
                         (recent_trades events))) |}.

(** ** The initial fetch *)

(** What the three REST calls of [fetch_initial_data] answer, read by
    [float]: the order book, the recent trades and the 24 h ticker, whose
    [priceChangePercent] may be missing. *)
Record RestTrade := {
  rt_price : Q;
  rt_qty : Q;
  rt_isBuyerMaker : bool;
  rt_time : Z
}.

Record RestData := {
  rest_bids : list (Q * Q);
  rest_asks : list (Q * Q);
  rest_lastUpdateId : Z;
  rest_trades : list RestTrade;
  rest_priceChangePercent : option Q
}.

Inductive LogRecord :=
| LogInfo (text : string)
| LogError (text : string) (err : exn).

(** The dict built from a REST trade. *)
Definition rest_trade (t : RestTrade) : DataStream.Trade :=
  {| DataStream.t_price := rt_price t; DataStream.t_qty := rt_qty t;
     DataStream.t_is_buyer_maker := rt_isBuyerMaker t;
     DataStream.t_time := rt_time t;
     DataStream.t_side := if rt_isBuyerMaker t then "SELL" else "BUY" |}.

(** [state["trades"].append(trade)] of a new dict. *)
Definition append_trade (s : DataStream.Store) (trade : DataStream.Trade)
  : DataStream.Store :=
  let l := fresh (dom (DataStream.trade_objs s)) in
  let s := DataStream.set_trade_objs (<[l := trade]> (DataStream.trade_objs s)) s in
  DataStream.set_trades (DataStream.deque_append 100 (DataStream.trades s) l) s.

(** [rest] is the outcome of the three REST calls, made before the state is
    touched: any of them may raise.  [now] is the value of [time.time()]
    read by [_update_volumes_locked].  Returns the state and what is
    logged. *)
Definition fetch_initial_data (now : Q) (rest : outcome RestData)
    (s : DataStream.Store) : DataStream.Store * list LogRecord :=
  match rest with
  | Ok d =>
      let s := DataStream.set_bids
                 (fold_left (fun d pq => DataStream.dict_set d pq.1 pq.2)
                            (rest_bids d) (DataStream.bids s)) s in
      let s := DataStream.set_asks
                 (fold_left (fun d pq => DataStream.dict_set d pq.1 pq.2)
                            (rest_asks d) (DataStream.asks s)) s in
      let s := DataStream.set_last_update_id (rest_lastUpdateId d) s in
      let s := fold_left append_trade (map rest_trade (rest_trades d)) s in
      let s := DataStream._update_volumes_locked now s in
      let s := DataStream.set_ticker_pct (default 0 (rest_priceChangePercent d)) s in
      (s, [LogInfo "Initial data fetched."])
  | Raise err => (s, [LogError "Failed to fetch initial data: %s" err])
  end.

(** ** The feeds together *)

(** What writes the shared state: the initial fetch and the four
    consumers, in any order. *)
Inductive FeedEvent :=
| FeedInitial (now : Q) (rest : outcome RestData)
| FeedDepth (update : list (Q * Q) * list (Q * Q) * Z)
| FeedTrade (ev : TradeEvent)
| FeedTicker (P : option Q).

Definition ticker_msg (P : option Q) : DataStream.Msg :=
  {| DataStream.msg_e := "24hrTicker";
     DataStream.msg_payload := DataStream.TickerFields P |}.

Definition feed_event (f : FeedEvent) (s : DataStream.Store)
  : outcome DataStream.Store :=
  match f with
  | FeedInitial now rest => Ok (fetch_initial_data now rest s).1
  | FeedDepth update => DataStream._process_depth (depth_msg update) s
  | FeedTrade ev => consume_event ev s
  | FeedTicker P => DataStream._process_ticker (ticker_msg P) s
  end.

Fixpoint feed (events : list FeedEvent) (s : DataStream.Store)
  : outcome DataStream.Store :=
  match events with
  | [] => Ok s
  | f :: rest => s' ← feed_event f s; feed rest s'
  end.

(** The state is fit for a decision: a trade in the ring has its bucket. *)
Definition fit_for_decision (s : DataStream.Store) : Prop :=
  wf_trades s /\ wf_buckets s /\
  (live_trades s <> [] -> live_buckets s <> []).

(** ** The user stream *)

Definition order_update (order : DataStream.Order) : DataStream.Msg :=
  {| DataStream.msg_e := "ORDER_TRADE_UPDATE";
     DataStream.msg_payload := DataStream.OrderFields order |}.

(** The entry order 42 and the stop order 43 of a long position, filled. *)
Definition entry_fill_order : DataStream.Order :=
  {| DataStream.o_i := 42; DataStream.o_X := "FILLED"; DataStream.o_S := "BUY";
     DataStream.o_z := 1; DataStream.o_ap := 100 |}.

Definition stop_fill_order : DataStream.Order :=
  {| DataStream.o_i := 43; DataStream.o_X := "FILLED"; DataStream.o_S := "SELL";
     DataStream.o_z := 1; DataStream.o_ap := 98 |}.

(** ** The command drain *)

(** The last [place_stop_order] command of a queue. *)
Definition last_stop_command (commands : list Command) : option Command :=
  last (filter (fun c => String.eqb (cmd_name c) "place_stop_order") commands).

(** What the drain records of the queue [commands]. *)
Definition record_stop (commands : list Command) (p : Position) : Position :=
  match last_stop_command commands with
  | Some c => set_stop_order_id None (set_stop_price (Some (cmd_stop_price c)) p)
  | None => p
  end.

(** ** The trailing stop in closed form *)

(** The profit [update_trailing_stop] computes at [current_price] on the
    position [p] entered at [e]. *)
Definition pnl_at (p : Position) (e current_price : Q) : Q :=
  match state p with
  | long => (current_price - e) * qty p * Main.LEVERAGE
  | _ => (e - current_price) * qty p * Main.LEVERAGE
  end.

(** The stop that trails the price by the share [DYNAMIC_SL] of the distance
    gained since the entry. *)
Definition trailed_stop (st : PosState) (e current_price : Q) : Q :=
  match st with
  | long => e + (1 - Main.DYNAMIC_SL) * (current_price - e)
  | _ => e - (1 - Main.DYNAMIC_SL) * (e - current_price)
  end.

(** A short position entered at 100, its stop at 102. *)
Definition short_100 : Position :=
  {| state := short; entry_order_id := Some 42%Z; stop_order_id := None;
     entry := Some 100; qty := 1; max_pnl := 0; stop_price := Some 102 |}.

(** ** Market orders *)

(** The request [place_market_order] makes. *)
Definition market_request (side : string) (qty : Q) : Main.OrderRequest :=
  {| Main.rq_symbol := Main.SYMBOL; Main.rq_side := side;
     Main.rq_type := Main.ORDER_TYPE_MARKET; Main.rq_quantity := qty;
     Main.rq_stopPrice := None; Main.rq_reduceOnly := false |}.

(** The order id of a market order the caller goes on with: the exchange
    answered, with a status other than FAILED. *)
Definition accepted_id (r : outcome Main.OrderReply) : option Z :=
  match r with
  | Ok reply =>
      if String.eqb (Main.rp_status reply) "FAILED" then None
      else Some (Main.rp_orderId reply)
  | Raise _ => None
  end.

(** The request [cancel_stop_order] makes. *)
Definition cancel_calls (order_id : option Z) : list Main.Call :=
  match order_id with
  | Some i => if (i =? 0)%Z then [] else [Main.CallCancelOrder i]
  | None => []
  end.

(** The side that closes a position, and the side [enter_position] sends
    for a signal. *)
Definition closing_side (st : PosState) : string :=
  match st with long => Main.SIDE_SELL | _ => Main.SIDE_BUY end.

Definition entry_side (signal : string) : string :=
  if String.eqb signal "BUY" then Main.SIDE_BUY else Main.SIDE_SELL.

(** ** The record of main.py *)

(** The decision of a pass of [run_trading] taken in the state [s]: the
    frames are built from the snapshot and handed to [generate_signal]. *)
Definition decision `{FloatResidue} (s : DataStream.Store) : outcome string :=
  inputs ← Main.decision_inputs s (DataStream.get_snapshot s);
  Signal.generate_signal (Main.in_df inputs) (Main.in_trades_df inputs)
                         (Main.in_volume_df inputs) (Main.in_ticker inputs).

(** No position is held: the fields [user_handler] sets on a fill have their
    initial values. *)
Definition flat (p : Position) : Prop :=
  state p = none /\ entry p = None /\ qty p = 0 /\ max_pnl p = 0.

Section MainWriters.
Context {X : Type} `{Main.Exchange X} `{FloatResidue}.

(** The writers of the record [position] of main.py, run one at a time from
    start to end, whatever they return.  The command queue is shared with
    data_stream.py, which may put commands on it at any time. *)
Inductive main_step : Main.World X -> Main.World X -> Prop :=
| main_command_put w q :
    main_step w {| Main.exchange := Main.exchange w; Main.calls := Main.calls w;
                   Main.position := Main.position w; Main.command_queue := q |}
| main_drain_commands w r w' :
    Main.drain_commands w = (r, w') -> main_step w w'
| main_update_trailing_stop w current_price r w' :
    Main.update_trailing_stop current_price w = (r, w') -> main_step w w'
| main_close_position w current_price r w' :
    Main.close_position current_price w = (r, w') -> main_step w w'
| main_enter_position w signal snapshot r w' :
    Main.enter_position signal snapshot w = (r, w') -> main_step w w'
| main_run_trading_iteration w s r w' :
    Main.run_trading_iteration s w = (r, w') -> main_step w w'.

Inductive main_reachable : Main.World X -> Prop :=
| main_reachable_init x :
    main_reachable {| Main.exchange := x; Main.calls := [];
                      Main.position := position_init; Main.command_queue := [] |}
| main_reachable_step w w' : main_reachable w -> main_step w w' -> main_reachable w'.

(** A computation keeps a flat record flat. *)
Definition keeps_flat {A} (c : Main.M X A) : Prop :=
  forall w r w', c w = (r, w') ->
    flat (Main.position w) -> flat (Main.position w').

(** A pass of [run_trading] while no position is held. *)
Definition flat_pass (s : DataStream.Store) : Main.M X unit :=
  _ ← Main.drain_commands;
  signal ← Main.lift (decision s);
  price ← Main.request Main.CallSymbolTicker Main.futures_symbol_ticker;
  if String.eqb signal "BUY" || String.eqb signal "SELL"
  then Main.enter_position signal (DataStream.get_snapshot s)
  else mret tt.

End MainWriters.

(** ** The decision *)

(** The frames of a pass taken in the state [rising_market]. *)
Definition rising_inputs : Main.DecisionInputs :=
  match Main.decision_inputs rising_market (DataStream.get_snapshot rising_market) with
  | Ok inputs => inputs
  | Raise _ =>
      {| Main.in_df := {| Signal.columns := []; Signal.rows := [] |};
         Main.in_trades_df := {| Signal.columns := []; Signal.rows := [] |};
         Main.in_volume_df := {| Signal.columns := []; Signal.rows := [] |};
         Main.in_ticker := 0 |}
  end.

(** ** The indicators *)

(** A value an RSI may take: not a number, or a number from 0 to 100. *)
Definition rsi_value (v : xnum) : Prop :=
  match v with
  | NaN => True
  | Fin r => 0 <= r <= 100
  | _ => False
  end.

(** A rolling mean of gains or of losses: not a number, or not negative. *)
Definition mean_value (v : xnum) : Prop :=
  match v with
  | NaN => True
  | Fin r => 0 <= r
  | _ => False
  end.

(** An item of a series of gains or of losses. *)
Definition gain_value (v : xnum) : Prop :=
  match v with
  | Fin r => 0 <= r
  | _ => True
  end.

(** ** The two records together *)

(** The record of data_stream.py, written by [user_handler], beside the
    world of main.py: main.py binds its own [position] and imports from
    data_stream.py the command queue, not the record. *)
Record System (X : Type) := {
  stream_position : Position;
  main_world : Main.World X
}.
Arguments stream_position {X} s.
Arguments main_world {X} s.

(** No stop is recorded and no position is held. *)
Definition untracked (p : Position) : Prop :=
  flat p /\ stop_order_id p = None /\ stop_price p = None.

Section Bot.
Context {X : Type} `{Main.Exchange X} `{FloatResidue}.

(** The program at work: the user stream hands a message to
    [user_handler], which reads and writes the record of data_stream.py and
    the shared queue; or a function of main.py that writes its record runs
    from start to end. *)
Inductive system_step : System X -> System X -> Prop :=
| system_user_handler (sys : System X) msg p q :
    DataStream.user_handler (stream_position sys)
      (Main.command_queue (main_world sys)) msg = Ok (p, q) ->
    system_step sys
      {| stream_position := p;
         main_world :=
           {| Main.exchange := Main.exchange (main_world sys);
              Main.calls := Main.calls (main_world sys);
              Main.position := Main.position (main_world sys);
              Main.command_queue := q |} |}
| system_run_trading_iteration (sys : System X) s r w' :
    Main.run_trading_iteration s (main_world sys) = (r, w') ->
    system_step sys {| stream_position := stream_position sys; main_world := w' |}
| system_drain_commands (sys : System X) r w' :
    Main.drain_commands (main_world sys) = (r, w') ->
    system_step sys {| stream_position := stream_position sys; main_world := w' |}
| system_update_trailing_stop (sys : System X) current_price r w' :
    Main.update_trailing_stop current_price (main_world sys) = (r, w') ->
    system_step sys {| stream_position := stream_position sys; main_world := w' |}
| system_close_position (sys : System X) current_price r w' :
    Main.close_position current_price (main_world sys) = (r, w') ->
    system_step sys {| stream_position := stream_position sys; main_world := w' |}
| system_enter_position (sys : System X) signal snapshot r w' :
    Main.enter_position signal snapshot (main_world sys) = (r, w') ->
    system_step sys {| stream_position := stream_position sys; main_world := w' |}.

Inductive system_reachable : System X -> Prop :=
| system_reachable_init x :
    system_reachable
      {| stream_position := position_init;
         main_world := {| Main.exchange := x; Main.calls := [];
                          Main.position := position_init;
                          Main.command_queue := [] |} |}
| system_reachable_step sys sys' :
    system_reachable sys -> system_step sys sys' -> system_reachable sys'.

(** No order of [calls] is a stop order or closes a position, and none is
    cancelled. *)
Definition market_orders_only (calls : list Main.Call) : Prop :=
  Forall (fun c => match c with
                   | Main.CallCreateOrder rq =>
                       Main.rq_type rq = Main.ORDER_TYPE_MARKET /\
                       Main.rq_reduceOnly rq = false
                   | Main.CallCancelOrder _ => False
                   | _ => True
                   end) calls.

(** The world of main.py while nothing is tracked. *)
Definition quiet_world (w : Main.World X) : Prop :=
  untracked (Main.position w) /\ Main.command_queue w = [] /\
  market_orders_only (Main.calls w).

Definition keeps_quiet {A} (c : Main.M X A) : Prop :=
  forall w r w', c w = (r, w') -> quiet_world w -> quiet_world w'.

End Bot.

(** The system once [enter_position] has placed a BUY order on the paper
    exchange and the fill of that order has been handed to
    [user_handler]. *)
Definition system_after_entry : System Paper :=
  {| stream_position := position_init; main_world := world_after_entry |}.

Definition system_after_fill : System Paper :=
  match DataStream.user_handler (stream_position system_after_entry)
          (Main.command_queue (main_world system_after_entry)) fill_42 with
  | Ok (p, q) =>
      {| stream_position := p;
         main_world :=
           {| Main.exchange := Main.exchange (main_world system_after_entry);
              Main.calls := Main.calls (main_world system_after_entry);
              Main.position := Main.position (main_world system_after_entry);
              Main.command_queue := q |} |}
  | Raise _ => system_after_entry
  end.

(** ** An exchange out of reach: every call raises *)

Inductive Offline := offline.

#[global] Instance offline_exchange : Main.Exchange Offline := {|
  Main.futures_symbol_ticker x := (Raise APIError, x);
  Main.futures_account x := (Raise APIError, x);
  Main.futures_create_order rq x := (Raise APIError, x);
  Main.futures_cancel_order i x := (Raise APIError, x)
|}.

Definition offline_world (p : Position) (q : list Command) : Main.World Offline :=
  {| Main.exchange := offline; Main.calls := []; Main.position := p;
     Main.command_queue := q |}.

(** ** An exchange that answers the price and nothing else *)

Record PriceOnly := { quoted_price : Q }.

#[global] Instance price_only_exchange : Main.Exchange PriceOnly := {|
  Main.futures_symbol_ticker x := (Ok (quoted_price x), x);
  Main.futures_account x := (Raise APIError, x);
  Main.futures_create_order rq x := (Raise APIError, x);
  Main.futures_cancel_order i x := (Raise APIError, x)
|}.

Definition price_only_world (price : Q) : Main.World PriceOnly :=
  {| Main.exchange := {| quoted_price := price |}; Main.calls := [];
     Main.position := position_init; Main.command_queue := [] |}.

(** The frame of six buckets of volume 1.1, one a minute. *)
Definition equal_volumes_frame : Signal.Frame Signal.Bucket :=
  Main.DataFrame_records ["time"; "volume"]
    (map (fun i => {| DataStream.b_time := 60 * i;
                      DataStream.b_volume := 11 # 10 |})
         [0; 1; 2; 3; 4; 5]%Z).


(** * Properties *)

(** ** Runs on the paper exchange *)

Lemma reachable_after_entry : reachable world_after_entry.
Proof.
  eapply reachable_step.
  - apply (reachable_init {| paper_price := 100; paper_balance := 1000;
                             paper_next_id := 42 |}).
  - eapply step_enter_position
      with (signal := "BUY")
           (snapshot := DataStream.get_snapshot DataStream.state_init).
    apply surjective_pairing.
Qed.

Lemma reachable_after_fill : reachable world_after_fill.
Proof.
  eapply reachable_step; [exact reachable_after_entry|].
  apply (step_user_handler world_after_entry fill_42
           (Main.position world_after_fill) (Main.command_queue world_after_fill)).
  - intros o Ho _. injection Ho as <-. split; reflexivity.
  - reflexivity.
Qed.

Lemma reachable_refilled : reachable world_refilled.
Proof.
  eapply reachable_step.
  - eapply reachable_step.
    + eapply reachable_step; [exact reachable_after_fill|].
      eapply step_drain_commands. apply surjective_pairing.
    + eapply (step_update_trailing_stop _ 110). apply surjective_pairing.
  - apply (step_user_handler world_trailed fill_42
             (Main.position world_refilled) (Main.command_queue world_refilled)).
    + intros o Ho _. injection Ho as <-. split; reflexivity.
    + reflexivity.
Qed.

(** ** The trailing stop *)

Section TrailingStop.
Context {X : Type} `{Main.Exchange X} `{FloatResidue}.

Lemma Qltb_lt x y : Qltb x y = true <-> x < y.
Proof.
  unfold Qltb. rewrite negb_true_iff. split; intros Hx.
  - apply Qnot_le_lt. intros Hle. apply Qle_bool_iff in Hle. congruence.
  - destruct (Qle_bool y x) eqn:E; [|reflexivity].
    apply Qle_bool_iff in E. exfalso. apply (Qlt_not_le _ _ Hx E).
Qed.

Lemma Qltb_ge x y : Qltb x y = false <-> y <= x.
Proof.
  unfold Qltb. rewrite negb_false_iff. apply Qle_bool_iff.
Qed.

Lemma M_bind_run {A B} (c : Main.M X A) (f : A -> Main.M X B) (w : Main.World X) :
  (c ≫= f) w =
  match c w with
  | (Ok a, w') => f a w'
  | (Raise err, w') => (Raise err, w')
  end.
Proof. reflexivity. Qed.

Lemma place_stop_order_run side qty stop_price (w : Main.World X) :
  Main.place_stop_order side qty stop_price w = (Ok None, w).
Proof. reflexivity. Qed.

Lemma cancel_stop_order_run order_id (w : Main.World X) :
  exists w', Main.cancel_stop_order order_id w = (Ok tt, w') /\
             Main.position w' = Main.position w /\
             Main.command_queue w' = Main.command_queue w.
Proof.
  destruct order_id as [i|]; simpl; [|by eexists].
  destruct (i =? 0)%Z; simpl; [by eexists|].
  unfold Main.try_except, Main.request.
  destruct (Main.futures_cancel_order i (Main.exchange w)) as [[[]|err] x];
    by eexists.
Qed.

Lemma ratchet_arith (q m pnl : Q) :
  0 < q -> m < pnl ->
  m * (1 - Main.DYNAMIC_SL) / (q * Main.LEVERAGE) <
  pnl * (1 - Main.DYNAMIC_SL) / (q * Main.LEVERAGE).
Proof.
  intros Hq Hm. unfold Main.DYNAMIC_SL, Main.LEVERAGE.
  apply Qmult_lt_compat_r.
  - apply Qinv_lt_0_compat. lra.
  - lra.
Qed.

Lemma py_div_pos a b : 0 < b -> py_div a b = Ok (a / b).
Proof.
  intros Hb. unfold py_div. destruct (Qeq_bool b 0) eqn:E; [|reflexivity].
  apply Qeq_bool_eq in E. lra.
Qed.

Lemma differs_false new_stop recorded :
  Main.differs new_stop recorded = false -> exists s, recorded = Some s /\ new_stop == s.
Proof.
  destruct recorded as [s|]; simpl; [|discriminate].
  rewrite negb_false_iff. intros E. exists s. split; [reflexivity|].
  by apply Qeq_bool_eq.
Qed.

Lemma update_trailing_stop_step (w : Main.World X) cp :
  open_position (Main.position w) ->
  exists w', Main.update_trailing_stop cp w = (Ok tt, w') /\
    state (Main.position w') = state (Main.position w) /\
    open_position (Main.position w') /\
    never_against (state (Main.position w)) (stop_price (Main.position w))
                  (stop_price (Main.position w')).
Proof.
  intros (Hst & Hq & e & He & Hb).
  assert (Hd : 0 < qty (Main.position w) * Main.LEVERAGE)
    by (unfold Main.LEVERAGE; lra).
  unfold Main.update_trailing_stop, mbind, Main.M_bind, Main.get_position.
  unfold open_position, stop_of_max_pnl in *.
  destruct (state (Main.position w)) eqn:Est; [congruence| |];
    rewrite He; simpl;
    match goal with |- context [Qltb ?a ?b] => destruct (Qltb a b) eqn:Elt end.
  all: try (exists w; simpl; rewrite Est; do 3 (split; [by eauto 8|]);
            destruct (stop_price (Main.position w)); simpl; lra).
  all: apply Qltb_lt in Elt; rewrite (py_div_pos _ _ Hd);
    match goal with |- context [Main.differs ?a ?b] =>
      destruct (Main.differs a b) eqn:Ed end.
  all: pose proof (ratchet_arith _ _ _ Hq Elt) as Har.
  all: try (destruct (cancel_stop_order_run (stop_order_id (Main.position w))
      {| Main.exchange := Main.exchange w; Main.calls := Main.calls w;
         Main.position := set_max_pnl
           (match state (Main.position w) with
            | long => (cp - e) * qty (Main.position w) * Main.LEVERAGE
            | _ => (e - cp) * qty (Main.position w) * Main.LEVERAGE end)
           (Main.position w);
         Main.command_queue := Main.command_queue w |}) as (w1 & Hc & Hp & _);
    rewrite Est in Hc, Hp; rewrite Hc; simpl in Hp |- *;
    eexists; split; [reflexivity|]; simpl; rewrite Hp; simpl; rewrite Est;
    split; [reflexivity|]; split;
    [ split; [done|]; split; [exact Hq|];
      eexists; split; [exact He|]; simpl; lra
    | destruct (stop_price (Main.position w)); simpl in *; lra ]).
  all: apply differs_false in Ed as (s & Es & Eq);
    eexists; split; [reflexivity|]; simpl; rewrite Est, Es in *; simpl in *;
    split; [reflexivity|]; split; [|lra];
    split; [done|]; split; [exact Hq|];
    eexists; split; [exact He|]; simpl; lra.
Qed.

(** The position the fill of the entry order and the command it enqueues
    lead to is an open position in the sense of [open_position]. *)
Lemma fill_then_command_open_position (w : Main.World X) (msg : DataStream.Msg)
    (order : DataStream.Order) (p : Position) (q : list Command) :
  DataStream.msg_e msg = "ORDER_TRADE_UPDATE" ->
  DataStream.msg_payload msg = DataStream.OrderFields order ->
  DataStream.o_X order = "FILLED" ->
  entry_order_id (Main.position w) = Some (DataStream.o_i order) ->
  0 < DataStream.o_z order -> 0 < DataStream.o_ap order ->
  DataStream.user_handler (Main.position w) [] msg = Ok (p, q) ->
  open_position
    (Main.position
       (Main.drain_commands
          {| Main.exchange := Main.exchange w; Main.calls := Main.calls w;
             Main.position := p; Main.command_queue := q |}).2).
Proof.
  intros He Hp HX Hid Hz Hap Hrun.
  unfold DataStream.user_handler, DataStream.msg_order, DataStream.id_eqb in Hrun.
  rewrite He, Hp in Hrun. simpl in Hrun. rewrite HX, Hid, Z.eqb_refl in Hrun.
  simpl in Hrun. inversion Hrun; subst p q. clear Hrun.
  unfold Main.drain_commands. simpl.
  unfold open_position, stop_of_max_pnl. simpl.
  destruct (String.eqb (DataStream.o_S order) "BUY"); simpl;
    (split; [discriminate|]; split; [exact Hz|];
     eexists; split; [reflexivity|]; simpl;
     unfold Qdiv; rewrite Qmult_0_l, Qmult_0_l; lra).
Qed.
(** C1: on an open position, along any sequence of calls of
    [update_trailing_stop] with arbitrary current prices, every call returns
    and the recorded stop price never moves against the position: it never
    decreases on a long position and never increases on a short one. *)
Theorem trailing_stop_never_moves_against (w : Main.World X) (prices : list Q) :
  open_position (Main.position w) ->
  Forall (fun r => r.1 = Ok tt) (trailing_run prices w) /\
  ratchets (state (Main.position w)) (stop_price (Main.position w))
           (map snd (trailing_run prices w)).
Proof.
  revert w. induction prices as [|cp rest IH]; intros w Hopen; simpl.
  - split; [constructor|exact I].
  - destruct (update_trailing_stop_step w cp Hopen) as (w' & Hrun & Hst & Hopen' & Hmove).
    rewrite Hrun. simpl. destruct (IH w' Hopen') as [Hok Hr].
    split; [by constructor|]. split; [exact Hmove|].
    by rewrite <- Hst.
Qed.

End TrailingStop.

Lemma trailing_stop_never_moves_against_witness :
  Forall (fun r => r.1 = Ok tt)
         (trailing_run [101; 99; 105] (paper_world 101 1000 long_100 [])) /\
  ratchets long (Some 98)
           (map snd (trailing_run [101; 99; 105] (paper_world 101 1000 long_100 []))).
Proof.
  apply (trailing_stop_never_moves_against (paper_world 101 1000 long_100 [])).
  split; [discriminate|]. split; [reflexivity|].
  exists 100. split; [reflexivity|]. by vm_compute.
Defined.

(** C1 (as stated) fails.  Order 42 is filled, its stop command drained and
    the stop trailed at a price of 110, to 109.8; the fill of order 42 is
    then reported again, which resets [max_pnl] and leaves the stop: the
    position is long and [update_trailing_stop] at a price of 105 lowers its
    stop to 104.9.  And on a record in state [long] whose quantity is
    negative, [update_trailing_stop] at a price of 90 lowers the stop from
    98 to 90.2. *)
Lemma trailing_stop_as_stated_fails :
  (reachable world_refilled /\
   state (Main.position world_refilled) = long /\
   exists stop stop',
     stop_price (Main.position world_refilled) = Some stop /\
     trailing_run [105] world_refilled = [(Ok tt, Some stop')] /\
     stop == 1098 # 10 /\ stop' == 1049 # 10 /\
     ~ ratchets long (Some stop) [Some stop']) /\
  (exists stop',
     trailing_run [90] (paper_world 90 1000 long_sold []) = [(Ok tt, Some stop')] /\
     stop' == 902 # 10 /\
     ~ ratchets long (stop_price long_sold) [Some stop']).
Proof.
  split.
  - split; [exact reachable_refilled|]. split; [reflexivity|].
    eexists. eexists. split; [reflexivity|]. split; [reflexivity|].
    split; [reflexivity|]. split; [reflexivity|].
    intros [Hle _]. revert Hle. apply Qlt_not_le. reflexivity.
  - eexists. split; [reflexivity|]. split; [reflexivity|].
    intros [Hle _]. revert Hle. apply Qlt_not_le. reflexivity.
Qed.

(** ** The fill of the entry order *)

(** C2: an [ORDER_TRADE_UPDATE] with status [FILLED] for the recorded entry
    order, of cumulative quantity [z] and average price [ap], makes the
    position long on side [BUY] (short on side [SELL]) with entry [ap],
    quantity [z] and [max_pnl] zero, and appends exactly one
    [place_stop_order] command, on the opposite side, for [z], at
    [ap * (1 - 0.02)] (at [ap * (1 + 0.02)] on side [SELL]). *)
Theorem entry_fill_opens_position (position : Position)
    (command_queue : list Command) (msg : DataStream.Msg)
    (order : DataStream.Order) :
  DataStream.msg_e msg = "ORDER_TRADE_UPDATE" ->
  DataStream.msg_payload msg = DataStream.OrderFields order ->
  DataStream.o_X order = "FILLED" ->
  entry_order_id position = Some (DataStream.o_i order) ->
  (DataStream.o_S order = "BUY" ->
   DataStream.user_handler position command_queue msg =
   Ok ({| state := long;
          entry_order_id := entry_order_id position;
          stop_order_id := stop_order_id position;
          entry := Some (DataStream.o_ap order);
          qty := DataStream.o_z order;
          max_pnl := 0;
          stop_price := stop_price position |},
       command_queue ++
       [{| cmd_name := "place_stop_order"; cmd_side := "SELL";
           cmd_qty := DataStream.o_z order;
           cmd_stop_price := DataStream.o_ap order * (1 - (2 # 100)) |}])) /\
  (DataStream.o_S order = "SELL" ->
   DataStream.user_handler position command_queue msg =
   Ok ({| state := short;
          entry_order_id := entry_order_id position;
          stop_order_id := stop_order_id position;
          entry := Some (DataStream.o_ap order);
          qty := DataStream.o_z order;
          max_pnl := 0;
          stop_price := stop_price position |},
       command_queue ++
       [{| cmd_name := "place_stop_order"; cmd_side := "BUY";
           cmd_qty := DataStream.o_z order;
           cmd_stop_price := DataStream.o_ap order * (1 + (2 # 100)) |}])).
Proof.
  intros He Hp HX Hid.
  unfold DataStream.user_handler, DataStream.msg_order, DataStream.id_eqb.
  rewrite He, Hp. simpl. rewrite HX, Hid, Z.eqb_refl. simpl.
  split; intros HS; rewrite HS;
    unfold set_max_pnl, set_qty, set_entry, set_state; simpl;
    rewrite Hid; reflexivity.
Qed.

Lemma entry_fill_opens_position_witness :
  DataStream.user_handler (set_entry_order_id (Some 42%Z) position_init) [] fill_42 =
  Ok ({| state := long; entry_order_id := Some 42%Z; stop_order_id := None;
         entry := Some 100; qty := 1; max_pnl := 0; stop_price := None |},
      [{| cmd_name := "place_stop_order"; cmd_side := "SELL"; cmd_qty := 1;
          cmd_stop_price := 100 * (1 - (2 # 100)) |}]).
Proof.
  exact (proj1 (entry_fill_opens_position
                  (set_entry_order_id (Some 42%Z) position_init) [] fill_42 _
                  eq_refl eq_refl eq_refl eq_refl) eq_refl).
Defined.

Example stop_of_fill_42 : Qred (100 * (1 - (2 # 100))) = 98.
Proof. reflexivity. Qed.

(** ** The minimum notional of an entry *)

Section MinNotional.
Context {X : Type} `{Main.Exchange X} `{FloatResidue}.

Lemma fetch_balance_run (w : Main.World X) :
  Main.fetch_balance w =
  (Ok (match (Main.futures_account (Main.exchange w)).1 with
       | Ok b => b | Raise _ => 0 end),
   {| Main.exchange := (Main.futures_account (Main.exchange w)).2;
      Main.calls := Main.calls w ++ [Main.CallAccount];
      Main.position := Main.position w;
      Main.command_queue := Main.command_queue w |}).
Proof.
  unfold Main.fetch_balance, Main.try_except, Main.request.
  by destruct (Main.futures_account (Main.exchange w)) as [[b|err] x].
Qed.

(** C8: when the ticker answers [price] and the balance read is [balance],
    and the notional [round(balance * RISK_PER_TRADE * LEVERAGE / price, 3)
    * price] is below 20, [enter_position] returns having left the position
    and the command queue as they were and asked the exchange for the price
    and the account only: no order is submitted.  The notional is that of
    the execution: where the quantity is a midpoint between two thousandths,
    [round] goes to the side the execution has it go. *)
Theorem min_notional_guard (w : Main.World X) (signal : string)
    (snapshot : DataStream.Snapshot) (price balance : Q) (x1 : X) :
  Main.futures_symbol_ticker (Main.exchange w) = (Ok price, x1) ->
  match (Main.futures_account x1).1 with Ok b => b | Raise _ => 0 end = balance ->
  ~ price == 0 ->
  py_round (balance * Main.RISK_PER_TRADE * Main.LEVERAGE / price) 3 * price < 20 ->
  exists w', Main.enter_position signal snapshot w = (Ok tt, w') /\
             Main.position w' = Main.position w /\
             Main.command_queue w' = Main.command_queue w /\
             Main.calls w' =
               Main.calls w ++ [Main.CallSymbolTicker; Main.CallAccount].
Proof.
  intros Ht Hb Hp Hn.
  unfold Main.enter_position, mbind, Main.M_bind.
  unfold Main.request at 1. rewrite Ht. rewrite fetch_balance_run. simpl.
  rewrite Hb. unfold Main.lift, Main.calc_qty, py_div.
  destruct (Qeq_bool price 0) eqn:E; [apply Qeq_bool_eq in E; contradiction|].
  simpl. apply Qltb_lt in Hn. rewrite Hn.
  eexists. split; [reflexivity|]. simpl.
  by rewrite <- app_assoc.
Qed.

End MinNotional.

Lemma min_notional_guard_witness :
  exists w', Main.enter_position "BUY" (DataStream.get_snapshot DataStream.state_init)
               (paper_world 100 1 position_init []) = (Ok tt, w') /\
             Main.position w' = position_init /\
             Main.command_queue w' = [] /\
             Main.calls w' = [] ++ [Main.CallSymbolTicker; Main.CallAccount].
Proof.
  apply (min_notional_guard (paper_world 100 1 position_init []) "BUY"
           (DataStream.get_snapshot DataStream.state_init) 100 1
           {| paper_price := 100; paper_balance := 1; paper_next_id := 42 |}).
  - reflexivity.
  - reflexivity.
  - by vm_compute.
  - by vm_compute.
Defined.

(** At a price of 96 and a balance of 1.112 the quantity is the midpoint
    0.2085.  Rounded down, the notional is 19.968 and no order is sent;
    rounded up, it is 20.064 and the order is sent. *)
Example notional_at_midpoint :
  Main.calls
    (@Main.enter_position Paper paper_exchange no_residue "BUY"
       (DataStream.get_snapshot DataStream.state_init)
       (paper_world 96 (1112 # 1000) position_init [])).2 =
    [Main.CallSymbolTicker; Main.CallAccount] /\
  exists rq,
    Main.calls
      (@Main.enter_position Paper paper_exchange residue_up "BUY"
         (DataStream.get_snapshot DataStream.state_init)
         (paper_world 96 (1112 # 1000) position_init [])).2 =
      [Main.CallSymbolTicker; Main.CallAccount; Main.CallCreateOrder rq] /\
    Main.rq_quantity rq == 209 # 1000.
Proof. split; [reflexivity|]. eexists. split; reflexivity. Qed.

(** ** The frame of order-book levels *)

Lemma level_rows_bids (bids asks : list (Q * Q)) :
  List.length bids = List.length asks ->
  map (fun r => (Signal.lv_price r, Signal.lv_bid_qty r))
      (zip_with (fun b a =>
                   {| Signal.lv_price := b.1; Signal.lv_bid_qty := b.2;
                      Signal.lv_ask_price := a.1; Signal.lv_ask_qty := a.2 |})
                (zip (map fst bids) (map snd bids))
                (zip (map fst asks) (map snd asks))) = bids.
Proof.
  revert asks. induction bids as [|[p q] bids IH]; intros [|[p' q'] asks] Hlen;
    simpl in *; try discriminate; [reflexivity|].
  f_equal. apply IH. congruence.
Qed.

Lemma level_rows_asks (bids asks : list (Q * Q)) :
  List.length bids = List.length asks ->
  map (fun r => (Signal.lv_ask_price r, Signal.lv_ask_qty r))
      (zip_with (fun b a =>
                   {| Signal.lv_price := b.1; Signal.lv_bid_qty := b.2;
                      Signal.lv_ask_price := a.1; Signal.lv_ask_qty := a.2 |})
                (zip (map fst bids) (map snd bids))
                (zip (map fst asks) (map snd asks))) = asks.
Proof.
  revert asks. induction bids as [|[p q] bids IH]; intros [|[p' q'] asks] Hlen;
    simpl in *; try discriminate; [reflexivity|].
  f_equal. apply IH. congruence.
Qed.

Section DecisionFrame.
Context {X : Type} `{Main.Exchange X} `{FloatResidue}.

(** C9: in a pass of the trading loop taken in the state [s], the frames
    are always built, and the frame of levels pairs the first
    [min(#bids, #asks)] bid levels of the snapshot with the first
    [min(#bids, #asks)] ask levels: as many bid levels as ask levels, the
    rest of the deeper side left out.  That frame is the one the pass hands
    to [generate_signal]: whatever the world, the pass is the command drain,
    then [generate_signal] on these frames, then what main.py does with the
    signal. *)
Theorem decision_frame_truncated (s : DataStream.Store) :
  let snapshot := DataStream.get_snapshot s in
  let n := Nat.min (List.length (DataStream.snap_bids snapshot))
                   (List.length (DataStream.snap_asks snapshot)) in
  exists inputs,
    Main.decision_inputs s snapshot = Ok inputs /\
    map (fun r => (Signal.lv_price r, Signal.lv_bid_qty r))
        (Signal.rows (Main.in_df inputs)) =
      take n (DataStream.snap_bids snapshot) /\
    map (fun r => (Signal.lv_ask_price r, Signal.lv_ask_qty r))
        (Signal.rows (Main.in_df inputs)) =
      take n (DataStream.snap_asks snapshot) /\
    List.length (Signal.rows (Main.in_df inputs)) = n /\
    forall w : Main.World X,
      Main.run_trading_iteration s w =
      (_ ← Main.drain_commands;
       signal ← Main.lift (Signal.generate_signal
                             (Main.in_df inputs) (Main.in_trades_df inputs)
                             (Main.in_volume_df inputs) (Main.in_ticker inputs));
       pass_on_signal signal snapshot) w.
Proof.
  intros snapshot n.
  set (bids := DataStream.snap_bids snapshot) in *.
  set (asks := DataStream.snap_asks snapshot) in *.
  assert (Hb : List.length (take n bids) = n) by (rewrite length_take; lia).
  assert (Ha : List.length (take n asks) = n) by (rewrite length_take; lia).
  assert (Hlen : List.length (take n bids) = List.length (take n asks)) by congruence.
  destruct (Main.decision_inputs s snapshot) as [inputs|err] eqn:Hin.
  2: { exfalso. revert Hin. unfold Main.decision_inputs, Main.DataFrame_levels.
       fold bids asks n. by rewrite !length_map, Hb, Ha, Nat.eqb_refl. }
  exists inputs. split; [reflexivity|].
  assert (Hdf : Signal.rows (Main.in_df inputs) =
                zip_with (fun b a =>
                            {| Signal.lv_price := b.1; Signal.lv_bid_qty := b.2;
                               Signal.lv_ask_price := a.1; Signal.lv_ask_qty := a.2 |})
                         (zip (map fst (take n bids)) (map snd (take n bids)))
                         (zip (map fst (take n asks)) (map snd (take n asks)))).
  { revert Hin. unfold Main.decision_inputs, Main.DataFrame_levels.
    fold bids asks n. rewrite !length_map, Hb, Ha, Nat.eqb_refl.
    cbn [andb mbind outcome_bind]. intros Hin. by inversion Hin. }
  rewrite Hdf.
  split; [by apply level_rows_bids|]. split; [by apply level_rows_asks|].
  split.
  { rewrite <- (length_map (fun r => (Signal.lv_price r, Signal.lv_bid_qty r))).
    by rewrite level_rows_bids. }
  intros w. unfold Main.run_trading_iteration.
  rewrite !(M_bind_run Main.drain_commands).
  destruct (Main.drain_commands w) as [[[]|err] w1]; [|reflexivity].
  fold snapshot. rewrite Hin. reflexivity.
Qed.

End DecisionFrame.

(** The pass of the trading loop hands [generate_signal] the inputs of
    [decision_inputs] and nothing else. *)
Example decision_frame_example :
  (fun r => Signal.rows (Main.in_df r)) <$>
    (match Main.decision_inputs DataStream.state_init
             {| DataStream.snap_bids := [(100, 2); (99, 1); (98, 5)];
                DataStream.snap_asks := [(101, 3)];
                DataStream.snap_trades := [];
                DataStream.snap_volume_history := [];
                DataStream.snap_ticker_pct := 0 |}
     with Ok r => Some r | Raise _ => None end) =
  Some [{| Signal.lv_price := 100; Signal.lv_bid_qty := 2;
           Signal.lv_ask_price := 101; Signal.lv_ask_qty := 3 |}].
Proof. reflexivity. Qed.

(** ** The ratio metrics *)

Lemma side_qty_sum_run (trades_df : Signal.Frame Signal.Trade) (label : string) :
  Signal.has_column trades_df "side" = true ->
  Signal.has_column trades_df "qty" = true ->
  Signal.side_qty_sum trades_df label =
  Ok (DataStream.py_sum
        (map DataStream.t_qty
             (filter (fun t => String.eqb (DataStream.t_side t) label)
                     (Signal.rows trades_df)))).
Proof.
  intros Hside Hqty. unfold Signal.side_qty_sum, Signal.getitem.
  rewrite Hside. cbn [mbind outcome_bind].
  unfold Signal.has_column at 1. cbn [Signal.columns Signal.rows].
  fold (Signal.has_column trades_df "qty"). by rewrite Hqty.
Qed.

(** C10: on a frame of levels with its two quantity columns,
    [order_book_pressure] returns a finite number, which is 1 when the ask
    quantities sum to zero; on a frame of trades that is empty or has its
    [side] and [qty] columns, [trade_dominance] returns a finite number,
    which is 1 when the frame is empty or the SELL quantities sum to zero.
    Neither divides by zero. *)
Theorem ratio_metrics_neutral_fallback (df : Signal.Frame Signal.Level)
    (trades_df : Signal.Frame Signal.Trade) :
  Signal.has_column df "bid_qty" = true ->
  Signal.has_column df "ask_qty" = true ->
  (Signal.empty trades_df = false ->
   Signal.has_column trades_df "side" = true /\
   Signal.has_column trades_df "qty" = true) ->
  (exists q, Signal.order_book_pressure df = Ok (Fin q) /\
     (DataStream.py_sum (map Signal.lv_ask_qty (Signal.rows df)) == 0 -> q = 1) /\
     (~ DataStream.py_sum (map Signal.lv_ask_qty (Signal.rows df)) == 0 ->
      q = DataStream.py_sum (map Signal.lv_bid_qty (Signal.rows df)) /
          DataStream.py_sum (map Signal.lv_ask_qty (Signal.rows df)))) /\
  (exists q, Signal.trade_dominance trades_df = Ok (Fin q) /\
     (Signal.empty trades_df = true \/
      DataStream.py_sum
        (map DataStream.t_qty
             (filter (fun t => String.eqb (DataStream.t_side t) "SELL")
                     (Signal.rows trades_df))) == 0 -> q = 1)).
Proof.
  intros Hbid Hask Htr. split.
  - unfold Signal.order_book_pressure, Signal.getitem.
    rewrite Hbid, Hask. simpl.
    destruct (Qeq_bool _ 0) eqn:E.
    + exists 1. split; [reflexivity|]. split; [reflexivity|].
      intros Hne. apply Qeq_bool_eq in E. contradiction.
    + eexists. split; [reflexivity|].
      split; [|reflexivity]. intros Hz. apply Qeq_eq_bool in Hz. congruence.
  - unfold Signal.trade_dominance.
    destruct (Signal.empty trades_df) eqn:Ee.
    + exists 1. split; [reflexivity|]. reflexivity.
    + destruct (Htr eq_refl) as [Hside Hqty].
      rewrite !side_qty_sum_run by assumption.
      cbn [mbind outcome_bind]. unfold Signal.xdiv.
      destruct (Qeq_bool _ 0) eqn:E.
      * exists 1. split; reflexivity.
      * eexists. split; [reflexivity|].
        intros [Hd|Hz]; [discriminate|]. apply Qeq_eq_bool in Hz. congruence.
Qed.

Lemma ratio_metrics_neutral_fallback_witness :
  Signal.order_book_pressure no_asks_frame = Ok (Fin 1) /\
  Signal.trade_dominance buys_only_frame = Ok (Fin 1).
Proof.
  destruct (ratio_metrics_neutral_fallback no_asks_frame buys_only_frame
              eq_refl eq_refl (fun _ => conj eq_refl eq_refl))
    as [(q & Hq & Hone & _) (q' & Hq' & Hone')].
  rewrite Hq, Hq', (Hone (Qeq_refl 0)), (Hone' (or_intror (Qeq_refl 0))).
  split; reflexivity.
Defined.

(** ** The decision on empty inputs *)

Section EmptyInputs.
Context `{FloatResidue}.

Lemma generate_signal_empty_hold (df : Signal.Frame Signal.Level)
    (trades_df : Signal.Frame Signal.Trade)
    (volume_df : Signal.Frame Signal.Bucket) (ticker_data : Q) :
  Signal.empty df = true \/ Signal.empty trades_df = true ->
  Signal.generate_signal df trades_df volume_df ticker_data = Ok "HOLD".
Proof.
  intros [E|E]; unfold Signal.generate_signal; rewrite E; [reflexivity|].
  by rewrite orb_true_r.
Qed.

(** C6 (the code departs from it): with one order-book level, one trade and
    an empty frame of volume buckets, [generate_signal] raises [KeyError]
    where the design document has it return HOLD; [volume_trend], which it
    calls further down, does guard against the same frame. *)
Theorem generate_signal_empty_volumes_raises :
  Signal.empty no_volume_frame = true /\
  Signal.generate_signal one_level_frame buys_only_frame no_volume_frame 0 =
    Raise (KeyError "volume") /\
  Signal.volume_trend no_volume_frame = Ok {| Signal.rr_num := 0; Signal.rr_sq := 1 |}.
Proof. repeat split; reflexivity. Qed.

End EmptyInputs.

(** ** The feed handlers *)

Lemma depth_handler_filters (depth_queue : list DataStream.Msg)
    (msg : DataStream.Msg) :
  DataStream.msg_e msg <> "depthUpdate" ->
  DataStream.depth_handler depth_queue msg = (depth_queue, []).
Proof.
  intros Hne. unfold DataStream.depth_handler.
  destruct (String.eqb_spec (DataStream.msg_e msg) "depthUpdate");
    [contradiction|reflexivity].
Qed.

Lemma trade_handlers_enqueue_any_tag (queue : list DataStream.Msg)
    (msg : DataStream.Msg) :
  (List.length queue < DataStream.MAX_QUEUE)%nat ->
  DataStream.trade_handler queue msg = (queue ++ [msg], []) /\
  DataStream.aggtrade_handler queue msg = (queue ++ [msg], []) /\
  DataStream.ticker_handler queue msg = (queue ++ [msg], []).
Proof.
  intros Hlen. apply Nat.ltb_lt in Hlen.
  unfold DataStream.trade_handler, DataStream.aggtrade_handler,
    DataStream.ticker_handler, DataStream.put_nowait.
  by rewrite Hlen.
Qed.

(** C7 (the code departs from it): only [depth_handler] looks at the event
    tag.  A message tagged ["error"] is dropped by [depth_handler] and put
    on their queues by [trade_handler], [aggtrade_handler] and
    [ticker_handler]; the trade consumer then raises on it. *)
Theorem only_depth_handler_filters :
  DataStream.depth_handler [] error_notice = ([], []) /\
  DataStream.trade_handler [] error_notice = ([error_notice], []) /\
  DataStream.aggtrade_handler [] error_notice = ([error_notice], []) /\
  DataStream.ticker_handler [] error_notice = ([error_notice], []) /\
  DataStream._process_trades 0 error_notice DataStream.state_init =
    Raise (KeyError "p").
Proof. repeat split; reflexivity. Qed.

(** ** The snapshot *)

(** C3 (the code departs from it): the snapshot is a copy one level deep.
    After one trade, writing the quantity of the trade or the volume of the
    bucket through a snapshot changes the live state; and a second trade of
    the same minute, applied after the snapshot was taken, changes the
    volume the snapshot shows. *)
Theorem snapshot_shares_trade_and_bucket_dicts :
  let snapshot := DataStream.get_snapshot store_one_trade in
  map DataStream.t_qty (live_trades store_one_trade) = [1] /\
  map DataStream.t_qty
      (live_trades (snapshot_set_trade_qty snapshot 0 5 store_one_trade)) = [5] /\
  map DataStream.b_volume (live_buckets store_one_trade) = [0 + 1] /\
  map DataStream.b_volume
      (live_buckets (snapshot_set_bucket_volume snapshot 0 7 store_one_trade)) = [7] /\
  (exists s, DataStream._process_trades 31 (trade_msg 100 2 false 31000)
               store_one_trade = Ok s /\
             map DataStream.b_volume (snapshot_buckets snapshot store_one_trade)
               = [0 + 1] /\
             map DataStream.b_volume (snapshot_buckets snapshot s) = [0 + 1 + 2]).
Proof.
  vm_compute. repeat split; try reflexivity.
  eexists. repeat split; reflexivity.
Qed.

(** ** The position invariant *)

Section PositionInvariant.
Context {X : Type} `{Main.Exchange X} `{FloatResidue}.

Lemma frame_keeps {A} (c : Main.M X A) : frame c -> keeps c.
Proof. intros Hf w r w' Hrun. by rewrite (Hf _ _ _ Hrun). Qed.

Lemma frame_ret {A} (a : A) : frame (mret a : Main.M X A).
Proof. intros w r w' Hrun. by inversion Hrun. Qed.

Lemma frame_bind {A B} (c : Main.M X A) (f : A -> Main.M X B) :
  frame c -> (forall a, frame (f a)) -> frame (c ≫= f).
Proof.
  intros Hc Hf w r w' Hrun. unfold mbind, Main.M_bind in Hrun.
  destruct (c w) as [[a|err] w1] eqn:E.
  - rewrite (Hf _ _ _ _ Hrun). eauto.
  - inversion Hrun; subst. eauto.
Qed.

Lemma frame_lift {A} (o : outcome A) : frame (Main.lift o : Main.M X A).
Proof. intros w r w' Hrun. by inversion Hrun. Qed.

Lemma frame_request {A} (c : Main.Call) (f : X -> outcome A * X) :
  frame (Main.request c f).
Proof.
  intros w r w' Hrun. unfold Main.request in Hrun.
  destruct (f (Main.exchange w)). by inversion Hrun.
Qed.

Lemma frame_try_except {A} (body : Main.M X A) (handler : exn -> Main.M X A) :
  frame body -> (forall err, frame (handler err)) ->
  frame (Main.try_except body handler).
Proof.
  intros Hb Hh w r w' Hrun. unfold Main.try_except in Hrun.
  destruct (body w) as [[a|err] w1] eqn:E.
  - inversion Hrun; subst. eauto.
  - rewrite (Hh _ _ _ _ Hrun). eauto.
Qed.

Lemma frame_get_position : frame (X:=X) Main.get_position.
Proof. intros w r w' Hrun. by inversion Hrun. Qed.

Lemma frame_set_command_queue q : frame (X:=X) (Main.set_command_queue q).
Proof. intros w r w' Hrun. by inversion Hrun. Qed.

Lemma frame_place_market_order side qty : frame (X:=X) (Main.place_market_order side qty).
Proof.
  unfold Main.place_market_order. simpl.
  apply frame_try_except; [|intros; apply frame_ret].
  apply frame_bind; [apply frame_request|intros; apply frame_ret].
Qed.

Lemma frame_place_stop_order side qty stop_price :
  frame (X:=X) (Main.place_stop_order side qty stop_price).
Proof. intros w r w' Hrun. rewrite place_stop_order_run in Hrun. by inversion Hrun. Qed.

Lemma frame_cancel_stop_order order_id : frame (X:=X) (Main.cancel_stop_order order_id).
Proof.
  intros w r w' Hrun.
  destruct (cancel_stop_order_run order_id w) as (w1 & Hc & Hp & _).
  rewrite Hc in Hrun. by inversion Hrun; subst.
Qed.

Lemma keeps_bind {A B} (c : Main.M X A) (f : A -> Main.M X B) :
  keeps c -> (forall a, keeps (f a)) -> keeps (c ≫= f).
Proof.
  intros Hc Hf w r w' Hrun Hinv. unfold mbind, Main.M_bind in Hrun.
  destruct (c w) as [[a|err] w1] eqn:E.
  - eapply Hf; eauto.
  - inversion Hrun; subst. eauto.
Qed.

Lemma keeps_update_position (f : Position -> Position) :
  (forall p, shared_record_invariant p -> shared_record_invariant (f p)) ->
  keeps (X:=X) (Main.update_position f).
Proof. intros Hf w r w' Hrun Hinv. inversion Hrun; subst. simpl. auto. Qed.

Lemma same_core_invariant p p' :
  same_core p p' -> shared_record_invariant p -> shared_record_invariant p'.
Proof.
  intros (Hs & He & Hq & Hm & Hid) (Hstop & Hnone & Hopen).
  split; [by apply Hid|]. split; rewrite Hs, He, Hq.
  - intros Hn. rewrite (Hm Hn). auto.
  - exact Hopen.
Qed.

Lemma position_init_invariant : shared_record_invariant position_init.
Proof.
  split; [reflexivity|].
  split; [intros _; repeat split; reflexivity|intros Hn; by destruct Hn].
Qed.

Lemma keeps_close_position current_price : keeps (X:=X) (Main.close_position current_price).
Proof.
  unfold Main.close_position.
  apply keeps_bind; [apply frame_keeps, frame_get_position|]. intros p.
  destruct (state p); [apply frame_keeps, frame_ret| |];
    (apply keeps_bind; [apply frame_keeps, frame_place_market_order|]; intros res;
     destruct (String.eqb _ _); [apply frame_keeps, frame_ret|];
     apply keeps_bind; [apply frame_keeps, frame_cancel_stop_order|]; intros _;
     apply keeps_update_position; intros; apply position_init_invariant).
Qed.

Lemma keeps_enter_position signal snapshot :
  keeps (X:=X) (Main.enter_position signal snapshot).
Proof.
  unfold Main.enter_position.
  apply keeps_bind; [apply frame_keeps, frame_request|]. intros price.
  apply keeps_bind.
  { apply frame_keeps, frame_try_except; [apply frame_request|intros; apply frame_ret]. }
  intros balance.
  apply keeps_bind; [apply frame_keeps, frame_lift|]. intros qty.
  destruct (Qltb _ _); [apply frame_keeps, frame_ret|].
  apply keeps_bind; [apply frame_keeps, frame_place_market_order|]. intros res.
  destruct (String.eqb _ _); [apply frame_keeps, frame_ret|].
  apply keeps_update_position. intros p. apply same_core_invariant.
  by repeat split.
Qed.

Lemma keeps_update_trailing_stop current_price :
  keeps (X:=X) (Main.update_trailing_stop current_price).
Proof.
  intros w r w' Hrun. apply same_core_invariant.
  unfold Main.update_trailing_stop, mbind, Main.M_bind, Main.get_position in Hrun.
  destruct (state (Main.position w)) eqn:Est;
    [inversion Hrun; subst; by repeat split| |].
  all: destruct (entry (Main.position w)) as [e|]; simpl in Hrun;
    [|inversion Hrun; subst; by repeat split].
  all: match type of Hrun with context [Qltb ?a ?b] => destruct (Qltb a b) end;
    [|inversion Hrun; subst; by repeat split].
  all: unfold py_div in Hrun;
    match type of Hrun with context [Qeq_bool ?a ?b] => destruct (Qeq_bool a b) end;
    simpl in Hrun;
    [inversion Hrun; subst; simpl; repeat split; first [congruence|by auto]|].
  all: match type of Hrun with context [Main.differs ?a ?b] =>
         destruct (Main.differs a b) end;
    [|inversion Hrun; subst; simpl; repeat split; first [congruence|by auto]].
  all: match type of Hrun with context [Main.cancel_stop_order ?o ?w1] =>
         destruct (cancel_stop_order_run o w1) as (w2 & Hc & Hp & _) end;
    rewrite Hc in Hrun; inversion Hrun; subst; simpl; rewrite Hp; simpl;
    repeat split; first [congruence|by auto].
Qed.

Lemma keeps_apply_commands commands : keeps (X:=X) (Main.apply_commands commands).
Proof.
  induction commands as [|command rest IH]; simpl; [apply frame_keeps, frame_ret|].
  apply keeps_bind; [apply frame_keeps, frame_set_command_queue|]. intros _.
  apply keeps_bind; [|intros _; exact IH].
  destruct (String.eqb _ _); [|apply frame_keeps, frame_ret].
  intros w r w' Hrun. unfold mbind, Main.M_bind in Hrun.
  rewrite place_stop_order_run in Hrun. inversion Hrun; subst. clear Hrun.
  cbn. apply same_core_invariant. by repeat split.
Qed.

Lemma keeps_drain_commands : keeps (X:=X) Main.drain_commands.
Proof. intros w r w' Hrun. by apply (keeps_apply_commands _ _ _ _ Hrun). Qed.

Lemma keeps_run_trading_iteration s : keeps (X:=X) (Main.run_trading_iteration s).
Proof.
  unfold Main.run_trading_iteration.
  apply keeps_bind; [apply keeps_drain_commands|]. intros _.
  apply keeps_bind; [apply frame_keeps, frame_lift|]. intros inputs.
  apply keeps_bind; [apply frame_keeps, frame_lift|]. intros signal.
  apply keeps_bind; [apply frame_keeps, frame_request|]. intros price.
  apply keeps_bind; [apply frame_keeps, frame_get_position|]. intros p.
  apply keeps_bind.
  { destruct (state p); [apply frame_keeps, frame_ret| |];
      (apply keeps_bind; [apply keeps_update_trailing_stop|]; intros _;
       apply keeps_bind; [apply frame_keeps, frame_get_position|]; intros p';
       apply keeps_bind; [apply frame_keeps, frame_lift|]; intros crossed;
       destruct crossed; [apply keeps_close_position|apply frame_keeps, frame_ret]). }
  intros _.
  apply keeps_bind; [apply frame_keeps, frame_get_position|]. intros p'.
  destruct (_ && _); [|apply frame_keeps, frame_ret].
  apply keeps_bind; [apply keeps_close_position|]. intros _.
  apply keeps_enter_position.
Qed.

Lemma user_handler_invariant position command_queue msg p q :
  fill_reported msg ->
  DataStream.user_handler position command_queue msg = Ok (p, q) ->
  shared_record_invariant position -> shared_record_invariant p.
Proof.
  intros Hfill Hrun Hinv. unfold DataStream.user_handler in Hrun.
  destruct (String.eqb _ _); [|by inversion Hrun; subst].
  unfold DataStream.msg_order in Hrun.
  destruct (DataStream.msg_payload msg) as [| | |o|] eqn:Ep; try discriminate.
  simpl in Hrun.
  destruct (String.eqb_spec (DataStream.o_X o) "FILLED") as [HX|];
    [|by inversion Hrun; subst].
  destruct (Hfill o Ep HX) as [Hz Hap].
  destruct (DataStream.id_eqb _ (entry_order_id position)).
  - destruct Hinv as (Hstop & _). inversion Hrun; subst.
    split; [exact Hstop|]. split; simpl.
    + by destruct (String.eqb _ _).
    + intros _. eauto.
  - destruct (DataStream.id_eqb _ _); inversion Hrun; subst; [|exact Hinv].
    apply position_init_invariant.
Qed.

(** A record written by [user_handler] and by the functions of main.py alike
    keeps [shared_record_invariant]. *)
Lemma reachable_shared_record (w : Main.World X) :
  reachable w -> shared_record_invariant (Main.position w).
Proof.
  induction 1 as [x|w w' Hreach IH Hstep]; [apply position_init_invariant|].
  destruct Hstep as [w msg p q Hfill Hrun|w r w' Hrun|w cp r w' Hrun
                    |w cp r w' Hrun|w signal snapshot r w' Hrun|w s r w' Hrun].
  - simpl. eapply user_handler_invariant; eauto.
  - eapply keeps_drain_commands; eauto.
  - eapply keeps_update_trailing_stop; eauto.
  - eapply keeps_close_position; eauto.
  - eapply keeps_enter_position; eauto.
  - eapply keeps_run_trading_iteration; eauto.
Qed.

End PositionInvariant.

Example position_after_fill :
  Main.position world_after_fill =
  {| state := long; entry_order_id := Some 42%Z; stop_order_id := None;
     entry := Some 100; qty := 1; max_pnl := 0; stop_price := None |}.
Proof. reflexivity. Qed.

(** ** The volume buckets *)

Section Deref.
Context {A : Type}.
Implicit Types (h : gmap nat A) (refs : list nat).

Lemma deref_cons h r refs :
  DataStream.deref h (r :: refs) =
  match h !! r with
  | Some x => x :: DataStream.deref h refs
  | None => DataStream.deref h refs
  end.
Proof. reflexivity. Qed.

Lemma deref_app h refs1 refs2 :
  DataStream.deref h (refs1 ++ refs2) = DataStream.deref h refs1 ++ DataStream.deref h refs2.
Proof. apply omap_app. Qed.

Lemma deref_insert_other h refs l x :
  l ∉ refs -> DataStream.deref (<[l := x]> h) refs = DataStream.deref h refs.
Proof.
  induction refs as [|r refs IH]; intros Hl; [reflexivity|].
  apply not_elem_of_cons in Hl as [Hne Hl]. rewrite !deref_cons.
  rewrite lookup_insert_ne by done. by rewrite IH.
Qed.

Lemma deref_snoc_insert h refs l x :
  DataStream.deref (<[l := x]> h) (refs ++ [l]) = DataStream.deref (<[l := x]> h) refs ++ [x].
Proof.
  rewrite deref_app. f_equal. rewrite deref_cons.
  by rewrite lookup_insert_eq.
Qed.

Lemma deref_length h refs :
  (forall l, l ∈ refs -> is_Some (h !! l)) ->
  List.length (DataStream.deref h refs) = List.length refs.
Proof.
  induction refs as [|r refs IH]; intros Hwf; [reflexivity|].
  destruct (Hwf r) as [x Hx]; [by left|].
  rewrite deref_cons, Hx. simpl. f_equal.
  apply IH. intros l Hl. apply Hwf. by right.
Qed.

Lemma deref_drop1 h refs :
  (forall l, l ∈ refs -> is_Some (h !! l)) ->
  DataStream.deref h (drop 1 refs) = drop 1 (DataStream.deref h refs).
Proof.
  destruct refs as [|r refs]; intros Hwf; [reflexivity|].
  destruct (Hwf r) as [x Hx]; [by left|].
  rewrite deref_cons, Hx. simpl. by rewrite !drop_0.
Qed.

Lemma deref_last h refs l x :
  last refs = Some l -> h !! l = Some x -> last (DataStream.deref h refs) = Some x.
Proof.
  intros Hl Hx. apply last_Some in Hl as [refs' ->].
  rewrite deref_app, deref_cons, Hx. apply last_snoc.
Qed.

End Deref.

Lemma deref_insert_times (h : gmap nat DataStream.Bucket) refs l b b' :
  h !! l = Some b -> DataStream.b_time b' = DataStream.b_time b ->
  map DataStream.b_time (DataStream.deref (<[l := b']> h) refs) =
  map DataStream.b_time (DataStream.deref h refs).
Proof.
  intros Hb Ht. induction refs as [|r refs IH]; [reflexivity|].
  rewrite !deref_cons.
  destruct (decide (l = r)) as [->|Hne].
  - rewrite lookup_insert_eq, Hb. simpl. by rewrite IH, Ht.
  - rewrite lookup_insert_ne by done.
    destruct (h !! r); simpl; by rewrite IH.
Qed.

Lemma deque_append_map {A B} (f : A -> B) n (d : list A) x :
  map f (DataStream.deque_append n d x) = DataStream.deque_append n (map f d) (f x).
Proof.
  unfold DataStream.deque_append.
  rewrite !length_app, length_map. simpl.
  destruct (n <? _)%nat; [rewrite <- skipn_map|]; by rewrite map_app.
Qed.

(** What [_update_volumes_locked] does, seen on the buckets of the ring. *)
Lemma update_volumes_view (now : Q) (s : DataStream.Store) :
  wf_buckets s ->
  let s' := DataStream._update_volumes_locked now s in
  let m := clock_minute now in
  wf_buckets s' /\
  live_trades s' = live_trades s /\
  last (live_buckets s') =
    Some {| DataStream.b_time := m; DataStream.b_volume := volume_since m s |} /\
  map DataStream.b_time (live_buckets s') =
    if decide (last (map DataStream.b_time (live_buckets s)) = Some m)
    then map DataStream.b_time (live_buckets s)
    else DataStream.deque_append 20 (map DataStream.b_time (live_buckets s)) m.
Proof.
  intros Hwf. simpl.
  (* the branch that appends a bucket *)
  assert (Hfresh :
    last (map DataStream.b_time (live_buckets s)) <> Some (clock_minute now) ->
    let l := fresh (dom (DataStream.bucket_objs s)) in
    let b := {| DataStream.b_time := clock_minute now;
                DataStream.b_volume := volume_since (clock_minute now) s |} in
    let s' := DataStream.set_volume_history
                (DataStream.deque_append 20 (DataStream.volume_history s) l)
                (DataStream.set_bucket_objs (<[l := b]> (DataStream.bucket_objs s)) s) in
    wf_buckets s' /\ live_trades s' = live_trades s /\
    last (live_buckets s') = Some b /\
    map DataStream.b_time (live_buckets s') =
      if decide (last (map DataStream.b_time (live_buckets s)) = Some (clock_minute now))
      then map DataStream.b_time (live_buckets s)
      else DataStream.deque_append 20 (map DataStream.b_time (live_buckets s))
                                   (clock_minute now)).
  { intros Hlast l b s'.
    assert (Hl : l ∉ DataStream.volume_history s).
    { intros Hin. apply Hwf in Hin. apply elem_of_dom in Hin.
      by apply (is_fresh (dom (DataStream.bucket_objs s))). }
    assert (Hview : live_buckets s' =
                    DataStream.deque_append 20 (live_buckets s) b).
    { unfold live_buckets, s'. simpl. unfold DataStream.deque_append.
      rewrite !length_app, (deref_length _ _ Hwf). simpl.
      destruct (20 <? _)%nat.
      - rewrite deref_drop1.
        + by rewrite deref_snoc_insert, deref_insert_other.
        + intros r Hr. apply elem_of_app in Hr as [Hr|Hr%list_elem_of_singleton].
          * destruct (Hwf r Hr) as [x Hx]. exists x.
            rewrite lookup_insert_ne; [done|]. intros ->. contradiction.
          * subst r. rewrite lookup_insert_eq. by eexists.
      - by rewrite deref_snoc_insert, deref_insert_other. }
    split; [|split; [reflexivity|split]].
    - intros r Hr. unfold s' in Hr |- *. simpl in *.
      assert (Hr' : r ∈ DataStream.volume_history s ++ [l]).
      { unfold DataStream.deque_append in Hr.
        destruct (20 <? _)%nat; [|done].
        by eapply subseteq_drop. }
      apply elem_of_app in Hr' as [Hr'|Hr'%list_elem_of_singleton].
      + destruct (Hwf r Hr') as [x Hx]. exists x.
        rewrite lookup_insert_ne; [done|]. intros ->. contradiction.
      + subst r. rewrite lookup_insert_eq. by eexists.
    - rewrite Hview. unfold DataStream.deque_append.
      destruct (20 <? _)%nat eqn:E; [|apply last_snoc].
      destruct (live_buckets s) as [|b0 bs]; [simpl in E; discriminate|].
      simpl. rewrite drop_0. apply last_snoc.
    - rewrite Hview, deque_append_map. by rewrite decide_False. }
  unfold DataStream._update_volumes_locked.
  fold (clock_minute now). fold (live_trades s). fold (volume_since (clock_minute now) s).
  destruct (last (DataStream.volume_history s)) as [l|] eqn:El.
  - destruct (Hwf l (last_Some_elem_of _ _ El)) as [b Hb]. rewrite Hb.
    assert (Hlb : last (live_buckets s) = Some b) by by eapply deref_last.
    destruct (Z.eqb_spec (DataStream.b_time b) (clock_minute now)) as [Ht|Ht].
    + split; [|split; [reflexivity|split]].
      * intros r Hr. simpl in *. destruct (Hwf r Hr) as [x Hx].
        destruct (decide (l = r)) as [->|Hne];
          [rewrite lookup_insert_eq|rewrite lookup_insert_ne by done]; by eexists.
      * unfold live_buckets. simpl. rewrite Ht.
        eapply deref_last; [exact El|]. by rewrite lookup_insert_eq.
      * unfold live_buckets at 1. simpl.
        rewrite (deref_insert_times _ _ _ b) by done.
        fold (live_buckets s). rewrite decide_True; [done|].
        by rewrite fmap_last, Hlb, <- Ht.
    + apply Hfresh. rewrite fmap_last, Hlb. simpl. congruence.
  - apply Hfresh. apply last_None in El. unfold live_buckets. by rewrite El.
Qed.

Lemma sorted_below_last (times : list Z) (t x : Z) :
  StronglySorted Z.lt times -> last times = Some x -> t ∈ times -> (t <= x)%Z.
Proof.
  intros Hs Hl Ht. apply last_Some in Hl as [times' ->].
  apply elem_of_app in Ht as [Ht|Ht%list_elem_of_singleton]; [|lia].
  enough (t < x)%Z by lia.
  eapply (StronglySorted_app_1_elem_of Z.lt); [exact Hs|exact Ht|by left].
Qed.

Lemma ring_step (events : list TradeEvent) (times : list Z) (ev : TradeEvent) :
  ring_ok events times ->
  (forall ev', ev' ∈ events -> (clock_minute (ev_now ev') <= clock_minute (ev_now ev))%Z) ->
  ring_ok (events ++ [ev])
          (if decide (last times = Some (clock_minute (ev_now ev))) then times
           else DataStream.deque_append 20 times (clock_minute (ev_now ev))).
Proof.
  set (m := clock_minute (ev_now ev)).
  intros (Hs & Hlen & Hin & Hall & Hlast) Hmono.
  destruct (decide (last times = Some m)) as [Hm|Hm].
  - (* the bucket of the current minute is overwritten *)
    split; [exact Hs|]. split; [exact Hlen|]. split; [|split].
    + intros t Ht. destruct (Hin t Ht) as (ev' & Hev' & <-).
      exists ev'. split; [|reflexivity]. apply elem_of_app. by left.
    + intros ev' [Hev'|Hev'%list_elem_of_singleton]%elem_of_app; [by apply Hall|].
      subst ev'. left. by apply last_Some_elem_of.
    + intros ev' Hev'. rewrite last_snoc in Hev'. by inversion Hev'; subst.
  - (* a bucket is appended, and the oldest leaves a full ring *)
    assert (Hbelow : forall t, t ∈ times -> (t < m)%Z).
    { intros t Ht. destruct (last times) as [x|] eqn:Ex.
      - pose proof (sorted_below_last _ _ _ Hs Ex Ht) as Htx.
        destruct (Hin x (last_Some_elem_of _ _ Ex)) as (ev' & Hev' & Hx).
        pose proof (Hmono ev' Hev') as Hx'. rewrite Hx in Hx'.
        assert (x <> m) by congruence. lia.
      - apply last_None in Ex. subst times. by apply elem_of_nil in Ht. }
    assert (Hs' : StronglySorted Z.lt (times ++ [m])).
    { apply StronglySorted_app_2; [|exact Hs|repeat constructor].
      intros t x Ht Hx%list_elem_of_singleton. subst x. by apply Hbelow. }
    unfold DataStream.deque_append. rewrite length_app. simpl.
    destruct (20 <? List.length times + 1)%nat eqn:E.
    + apply Nat.ltb_lt in E. assert (Hlen20 : List.length times = 20%nat) by lia.
      destruct times as [|t0 rest]; [simpl in Hlen20; lia|].
      simpl in Hlen20. simpl. rewrite drop_0.
      apply StronglySorted_cons in Hs' as [Ht0 Hsr].
      split; [exact Hsr|]. split; [rewrite length_app; simpl; lia|].
      split; [|split].
      * intros t [Ht|Ht%list_elem_of_singleton]%elem_of_app.
        -- destruct (Hin t) as (ev' & Hev' & <-); [by right|].
           exists ev'. split; [|reflexivity]. apply elem_of_app. by left.
        -- exists ev. split; [|by subst]. apply elem_of_app. right. by left.
      * intros ev' [Hev'|Hev'%list_elem_of_singleton]%elem_of_app.
        -- destruct (Hall ev' Hev') as [Ht|[_ Hf]].
           ++ apply elem_of_cons in Ht as [Ht|Ht].
              ** right. split; [rewrite length_app; simpl; lia|]. by rewrite Ht.
              ** left. apply elem_of_app. by left.
           ++ right. split; [rewrite length_app; simpl; lia|].
              apply Forall_app. split.
              ** by apply Forall_cons in Hf as [_ Hf].
              ** constructor; [|constructor].
                 apply Forall_cons in Hf as [Hf0 _].
                 assert (t0 < m)%Z by (apply Hbelow; by left). lia.
        -- subst ev'. left. apply elem_of_app. right. by left.
      * intros ev' Hev'. rewrite last_snoc in Hev'. inversion Hev'; subst.
        apply last_snoc.
    + apply Nat.ltb_ge in E.
      split; [exact Hs'|]. split; [rewrite length_app; simpl; lia|].
      split; [|split].
      * intros t [Ht|Ht%list_elem_of_singleton]%elem_of_app.
        -- destruct (Hin t Ht) as (ev' & Hev' & <-).
           exists ev'. split; [|reflexivity]. apply elem_of_app. by left.
        -- exists ev. split; [|by subst]. apply elem_of_app. right. by left.
      * intros ev' [Hev'|Hev'%list_elem_of_singleton]%elem_of_app.
        -- destruct (Hall ev' Hev') as [Ht|[Hl _]]; [|lia].
           left. apply elem_of_app. by left.
        -- subst ev'. left. apply elem_of_app. right. by left.
      * intros ev' Hev'. rewrite last_snoc in Hev'. inversion Hev'; subst.
        apply last_snoc.
Qed.

Lemma clock_minute_mono (now1 now2 : Q) :
  now1 <= now2 -> (clock_minute now1 <= clock_minute now2)%Z.
Proof.
  intros Hle. unfold clock_minute.
  apply Z.mul_le_mono_nonneg_r; [lia|].
  apply Qfloor_resp_le. unfold Qdiv. apply Qmult_le_compat_r; [exact Hle|].
  by vm_compute.
Qed.

Lemma consume_app (events1 events2 : list TradeEvent) (s : DataStream.Store) :
  consume (events1 ++ events2) s = (s' ← consume events1 s; consume events2 s').
Proof.
  revert s. induction events1 as [|ev rest IH]; intros s; [reflexivity|].
  simpl. destruct (consume_event ev s) as [s1|err]; [apply IH|reflexivity].
Qed.

Lemma consume_event_view (ev : TradeEvent) (s : DataStream.Store) :
  wf_buckets s ->
  exists s', consume_event ev s = Ok s' /\ wf_buckets s' /\
    last (live_buckets s') =
      Some {| DataStream.b_time := clock_minute (ev_now ev);
              DataStream.b_volume := volume_since (clock_minute (ev_now ev)) s' |} /\
    map DataStream.b_time (live_buckets s') =
      if decide (last (map DataStream.b_time (live_buckets s)) =
                 Some (clock_minute (ev_now ev)))
      then map DataStream.b_time (live_buckets s)
      else DataStream.deque_append 20 (map DataStream.b_time (live_buckets s))
                                   (clock_minute (ev_now ev)).
Proof.
  intros Hwf.
  assert (Hrun : exists s1, wf_buckets s1 /\ live_buckets s1 = live_buckets s /\
            consume_event ev s = Ok (DataStream._update_volumes_locked (ev_now ev) s1)).
  { eexists. split; [|split; [|unfold consume_event; destruct (ev_agg ev); reflexivity]];
      [exact Hwf|reflexivity]. }
  destruct Hrun as (s1 & Hwf1 & Hb1 & Hrun).
  destruct (update_volumes_view (ev_now ev) s1 Hwf1) as (Hwf' & Htr & Hlast & Htimes).
  eexists. split; [exact Hrun|]. split; [exact Hwf'|]. split.
  - rewrite Hlast. unfold volume_since. by rewrite Htr.
  - rewrite Htimes. by rewrite Hb1.
Qed.

(** C5 (as amended): trade events applied by the two consumers at clock
    readings that never decrease are all consumed, and then the bucket
    times of [volume_history] are strictly increasing, at most 20, each the
    clock minute of an event; the clock minute of an event has its bucket
    unless the ring is full of later ones; and the last bucket is that of
    the clock minute of the last event, its total the quantities of the
    trades of the ring stamped at or after the start of that minute. *)
Theorem volume_history_by_clock_minute (events : list TradeEvent) :
  StronglySorted Qle (map ev_now events) ->
  exists s,
    consume events DataStream.state_init = Ok s /\
    ring_ok events (map DataStream.b_time (live_buckets s)) /\
    (forall ev, last events = Some ev ->
       last (live_buckets s) =
         Some {| DataStream.b_time := clock_minute (ev_now ev);
                 DataStream.b_volume := volume_since (clock_minute (ev_now ev)) s |}).
Proof.
  intros Hsorted.
  enough (exists s, consume events DataStream.state_init = Ok s /\ wf_buckets s /\
            ring_ok events (map DataStream.b_time (live_buckets s)) /\
            (forall ev, last events = Some ev ->
               last (live_buckets s) =
                 Some {| DataStream.b_time := clock_minute (ev_now ev);
                         DataStream.b_volume :=
                           volume_since (clock_minute (ev_now ev)) s |}))
    as (s & Hrun & _ & Hring & Hlast) by eauto.
  induction events as [|ev events IH] using rev_ind.
  - exists DataStream.state_init. split; [reflexivity|]. split; [|split].
    + intros l Hl. by apply elem_of_nil in Hl.
    + split; [constructor|]. split; [simpl; lia|]. split; [|split].
      * intros m Hm. by apply elem_of_nil in Hm.
      * intros ev Hev. by apply elem_of_nil in Hev.
      * intros ev Hev. discriminate.
    + intros ev Hev. discriminate.
  - rewrite map_app in Hsorted. simpl in Hsorted.
    apply StronglySorted_app in Hsorted as (Hle & Hsorted & _).
    destruct (IH Hsorted) as (s & Hrun & Hwf & Hring & _).
    destruct (consume_event_view ev s Hwf) as (s' & Hrun' & Hwf' & Hlast' & Htimes).
    exists s'. split; [|split; [exact Hwf'|split]].
    + rewrite consume_app, Hrun. simpl. by rewrite Hrun'.
    + rewrite Htimes. apply ring_step; [exact Hring|].
      intros ev' Hev'. apply clock_minute_mono, Hle.
      * apply list_elem_of_In, in_map, list_elem_of_In, Hev'.
      * by left.
    + intros ev' Hev'. rewrite last_snoc in Hev'. inversion Hev'; subst. exact Hlast'.
Qed.

(** C5 (as stated) fails: 21 trades in 21 minutes leave 20 buckets, the
    first minute without one; and a trade stamped at second 360, applied
    when the clock reads 359.9, is counted in the bucket of minute 300. *)
Lemma volume_history_as_stated_fails :
  (StronglySorted Z.le (map ev_T (map minute_trade (seq 0 21))) /\
   consume (map minute_trade (seq 0 21)) DataStream.state_init =
     Ok (store_after (map minute_trade (seq 0 21))) /\
   ~ documented_volume_history (map minute_trade (seq 0 21))
                            (store_after (map minute_trade (seq 0 21)))) /\
  (StronglySorted Z.le (map ev_T [early_clock_trade]) /\
   consume [early_clock_trade] DataStream.state_init =
     Ok (store_after [early_clock_trade]) /\
   ~ documented_volume_history [early_clock_trade] (store_after [early_clock_trade])).
Proof.
  split; (split; [apply (bool_decide_unpack _); by vm_compute|]);
    (split; [by vm_compute|]).
  - intros (_ & Hiff & _).
    assert (Hin : (0 ∈ map DataStream.b_time
                     (live_buckets (store_after (map minute_trade (seq 0 21)))))%Z).
    { apply Hiff. exists (minute_trade 0). split; [by left|reflexivity]. }
    pose proof (bool_decide_eq_true_2 _ Hin) as Hb. by vm_compute in Hb.
  - intros (_ & _ & Hvol).
    assert (Hlast : last (live_buckets (store_after [early_clock_trade])) =
                    Some {| DataStream.b_time := 300; DataStream.b_volume := 1 |})
      by by vm_compute.
    specialize (Hvol _ Hlast). by vm_compute in Hvol.
Qed.

Lemma volume_history_by_clock_minute_witness :
  exists s,
    consume [minute_trade 0; early_clock_trade; minute_trade 6]
            DataStream.state_init = Ok s /\
    ring_ok [minute_trade 0; early_clock_trade; minute_trade 6]
            (map DataStream.b_time (live_buckets s)) /\
    (forall ev, last [minute_trade 0; early_clock_trade; minute_trade 6] = Some ev ->
       last (live_buckets s) =
         Some {| DataStream.b_time := clock_minute (ev_now ev);
                 DataStream.b_volume := volume_since (clock_minute (ev_now ev)) s |}).
Proof.
  apply (volume_history_by_clock_minute
           [minute_trade 0; early_clock_trade; minute_trade 6]).
  repeat first [by vm_compute | constructor].
Defined.

(** ** A pass of the trading loop on the rising market *)

Example rising_market_buckets :
  live_buckets rising_market =
  [{| DataStream.b_time := 0; DataStream.b_volume := 0 + 1 + 2 |};
   {| DataStream.b_time := 60; DataStream.b_volume := 27 |}] /\
  List.length (live_trades rising_market) = 20%nat.
Proof. by vm_compute. Qed.

Example rising_market_signal :
  (inputs ← Main.decision_inputs rising_market
              (DataStream.get_snapshot rising_market);
   Signal.generate_signal (Main.in_df inputs) (Main.in_trades_df inputs)
     (Main.in_volume_df inputs) (Main.in_ticker inputs)) = Ok "BUY".
Proof. by vm_compute. Qed.

(** The pass asks the price, decides BUY, and [enter_position] asks the
    price and the balance and places a market order; the position stays in
    state [none], with the id of the order. *)
Example trading_pass_enters_on_buy :
  let r := Main.run_trading_iteration rising_market
             (paper_world 111 1000 position_init []) in
  r.1 = Ok tt /\
  Main.position r.2 = set_entry_order_id (Some 42%Z) position_init /\
  map (fun c => match c with Main.CallCreateOrder rq => Some (Main.rq_side rq) | _ => None end)
      (Main.calls r.2) = [None; None; None; Some "BUY"].
Proof. by vm_compute. Qed.

(** * Further properties *)

(** ** The feed handlers on a burst *)

Lemma deliver_log (handler : list DataStream.Msg -> DataStream.Msg ->
                              list DataStream.Msg * list string)
    queue msgs log0 :
  fold_left (fun st msg => let (q, log) := handler st.1 msg in (q, st.2 ++ log))
            msgs (queue, log0) =
  ((deliver handler queue msgs).1, log0 ++ (deliver handler queue msgs).2).
Proof.
  unfold deliver. revert queue log0.
  induction msgs as [|msg rest IH]; intros queue log0; simpl.
  - by rewrite app_nil_r.
  - destruct (handler queue msg) as [q log]. simpl.
    rewrite (IH q (log0 ++ log)), (IH q log). simpl. by rewrite app_assoc.
Qed.

Lemma deliver_cons (handler : list DataStream.Msg -> DataStream.Msg ->
                               list DataStream.Msg * list string)
    queue msg rest :
  deliver handler queue (msg :: rest) =
  ((deliver handler (handler queue msg).1 rest).1,
   (handler queue msg).2 ++ (deliver handler (handler queue msg).1 rest).2).
Proof.
  unfold deliver at 1. simpl. destruct (handler queue msg) as [q log]. simpl.
  apply deliver_log.
Qed.

Lemma take_full_app {A} (n : nat) (l k : list A) :
  List.length l = n -> take n (l ++ k) = l.
Proof. intros <-. by rewrite take_app_length. Qed.


Lemma deliver_nil (handler : list DataStream.Msg -> DataStream.Msg ->
                              list DataStream.Msg * list string) queue :
  deliver handler queue [] = (queue, []).
Proof. reflexivity. Qed.

Lemma deliver_drop_newest handler warning :
  (forall q m, handler q m =
               if (List.length q <? DataStream.MAX_QUEUE)%nat
               then (q ++ [m], []) else (q, [warning])) ->
  forall msgs queue,
    (List.length queue <= DataStream.MAX_QUEUE)%nat ->
    (deliver handler queue msgs).1 = take DataStream.MAX_QUEUE (queue ++ msgs) /\
    List.length (deliver handler queue msgs).2 =
      (List.length (queue ++ msgs) - DataStream.MAX_QUEUE)%nat.
Proof.
  intros Hh. induction msgs as [|msg rest IH]; intros queue Hlen.
  - rewrite deliver_nil, app_nil_r. cbn [fst snd]. split.
    + by rewrite take_ge by lia.
    + cbn [List.length]. lia.
  - rewrite deliver_cons, Hh.
    destruct (Nat.ltb_spec (List.length queue) DataStream.MAX_QUEUE) as [Hlt|Hge];
      cbn [fst snd].
    + destruct (IH (queue ++ [msg])) as [Hq Hl].
      { rewrite length_app. cbn [List.length]. lia. }
      cbn [app]. rewrite Hq, Hl, <- !app_assoc. by cbn [app List.length].
    + destruct (IH queue Hlen) as [Hq Hl]. cbn [app List.length].
      rewrite Hq, Hl. rewrite !take_full_app by lia.
      rewrite !length_app. cbn [List.length]. split; [reflexivity|lia].
Qed.

(** X1: a burst of messages handed to [trade_handler], [aggtrade_handler] or
    [ticker_handler] leaves, on a queue that was within its capacity, the
    first [MAX_QUEUE] messages of the queue followed by the burst, in
    order: the messages that arrive at a full queue are the ones dropped,
    with one warning each. *)
Theorem handlers_drop_newest (queue msgs : list DataStream.Msg) :
  (List.length queue <= DataStream.MAX_QUEUE)%nat ->
  Forall (fun handler =>
            (deliver handler queue msgs).1 =
              take DataStream.MAX_QUEUE (queue ++ msgs) /\
            List.length (deliver handler queue msgs).2 =
              (List.length (queue ++ msgs) - DataStream.MAX_QUEUE)%nat)
         [DataStream.trade_handler; DataStream.aggtrade_handler;
          DataStream.ticker_handler].
Proof.
  intros Hlen.
  repeat (apply List.Forall_cons; [|]); [| | |apply List.Forall_nil].
  all: eapply deliver_drop_newest; [|exact Hlen].
  all: intros q m;
    unfold DataStream.trade_handler, DataStream.aggtrade_handler,
      DataStream.ticker_handler, DataStream.put_nowait;
    destruct (List.length q <? DataStream.MAX_QUEUE)%nat; reflexivity.
Qed.

Lemma handlers_drop_newest_witness :
  Forall (fun handler =>
            (deliver handler (repeat error_msg 999) [trade_msg 100 1 false 30000; error_msg]).1 =
              take DataStream.MAX_QUEUE (repeat error_msg 999 ++ [trade_msg 100 1 false 30000; error_msg]) /\
            List.length (deliver handler (repeat error_msg 999) [trade_msg 100 1 false 30000; error_msg]).2 =
              (List.length (repeat error_msg 999 ++ [trade_msg 100 1 false 30000; error_msg]) - DataStream.MAX_QUEUE)%nat)
         [DataStream.trade_handler; DataStream.aggtrade_handler;
          DataStream.ticker_handler].
Proof.
  apply (handlers_drop_newest (repeat error_msg 999) [trade_msg 100 1 false 30000; error_msg]).
  rewrite repeat_length. unfold DataStream.MAX_QUEUE. lia.
Defined.
Lemma depth_handler_cases queue msg :
  DataStream.depth_handler queue msg =
  if (DataStream.msg_e msg =? "depthUpdate")%string
  then if (List.length queue <? DataStream.MAX_QUEUE)%nat
       then (queue ++ [msg], [])
       else (queue, ["Depth queue full, message dropped."])
  else (queue, []).
Proof.
  unfold DataStream.depth_handler, DataStream.put_nowait.
  destruct (DataStream.msg_e msg =? "depthUpdate")%string; cbn [negb];
    [|reflexivity].
  by destruct (List.length queue <? DataStream.MAX_QUEUE)%nat.
Qed.

(** X2: a burst handed to [depth_handler] leaves, on a queue within its
    capacity, the first [MAX_QUEUE] messages of the queue followed by the
    messages of the burst tagged depthUpdate: a message with another tag
    takes no room and logs nothing, and one warning is logged for each
    tagged message that arrives at a full queue. *)
Theorem depth_handler_burst (queue msgs : list DataStream.Msg) :
  (List.length queue <= DataStream.MAX_QUEUE)%nat ->
  (deliver DataStream.depth_handler queue msgs).1 =
    take DataStream.MAX_QUEUE (queue ++ depth_tagged msgs) /\
  List.length (deliver DataStream.depth_handler queue msgs).2 =
    (List.length (queue ++ depth_tagged msgs) - DataStream.MAX_QUEUE)%nat.
Proof.
  revert queue. induction msgs as [|msg rest IH]; intros queue Hlen.
  - rewrite deliver_nil. unfold depth_tagged. cbn [filter fst snd].
    rewrite app_nil_r. split.
    + by rewrite take_ge by lia.
    + cbn [List.length]. lia.
  - rewrite deliver_cons. unfold depth_tagged. rewrite filter_cons.
    fold (depth_tagged rest). rewrite depth_handler_cases.
    destruct (String.eqb_spec (DataStream.msg_e msg) "depthUpdate") as [He|He].
    + rewrite decide_True by done.
      destruct (Nat.ltb_spec (List.length queue) DataStream.MAX_QUEUE)
        as [Hlt|Hge]; cbv beta iota; cbn [fst snd].
      * destruct (IH (queue ++ [msg])) as [Hq Hl].
        { rewrite length_app. cbn [List.length]. lia. }
        cbn [app]. rewrite Hq, Hl, <- !app_assoc. by cbn [app List.length].
      * destruct (IH queue Hlen) as [Hq Hl]. cbn [app List.length].
        rewrite Hq, Hl. rewrite !take_full_app by lia.
        rewrite !length_app. cbn [List.length]. split; [reflexivity|lia].
    + rewrite decide_False by done. cbn [fst snd app]. by apply IH.
Qed.

Lemma depth_handler_burst_witness :
  (deliver DataStream.depth_handler []
           [error_msg; depth_msg ([(100 # 1, 2 # 1)], [], 7%Z)]).1 =
    take DataStream.MAX_QUEUE
         ([] ++ depth_tagged [error_msg; depth_msg ([(100 # 1, 2 # 1)], [], 7%Z)]) /\
  List.length (deliver DataStream.depth_handler []
                 [error_msg; depth_msg ([(100 # 1, 2 # 1)], [], 7%Z)]).2 =
    (List.length ([] ++ depth_tagged [error_msg; depth_msg ([(100 # 1, 2 # 1)], [], 7%Z)])
     - DataStream.MAX_QUEUE)%nat.
Proof.
  apply (depth_handler_burst [] [error_msg; depth_msg ([(100 # 1, 2 # 1)], [], 7%Z)]).
  cbn [List.length]. lia.
Defined.
Lemma Qeq_bool_trans_l a b c :
  Qeq_bool a b = true -> Qeq_bool a c = Qeq_bool b c.
Proof.
  intros Hab. apply Qeq_bool_eq in Hab.
  destruct (Qeq_bool b c) eqn:Hbc.
  - apply Qeq_bool_eq in Hbc. apply Qeq_eq_bool. by rewrite Hab.
  - destruct (Qeq_bool a c) eqn:Hac; [|reflexivity].
    apply Qeq_bool_eq in Hac. rewrite <- Hbc. symmetry. apply Qeq_eq_bool.
    by rewrite <- Hab.
Qed.

Lemma dict_get_set d k v k' :
  dict_get (DataStream.dict_set d k v) k' =
  if Qeq_bool k k' then Some v else dict_get d k'.
Proof.
  induction d as [|[k0 v0] d IH]; simpl.
  - reflexivity.
  - destruct (Qeq_bool k0 k) eqn:Hk; simpl.
    + rewrite (Qeq_bool_trans_l _ _ k' Hk). by destruct (Qeq_bool k k').
    + rewrite IH. destruct (Qeq_bool k0 k') eqn:Hk'; [|reflexivity].
      destruct (Qeq_bool k k') eqn:Hkk; [|reflexivity].
      apply Qeq_bool_eq in Hk', Hkk. exfalso.
      apply Qeq_bool_neq in Hk. apply Hk. by rewrite Hk', Hkk.
Qed.

Lemma fold_dict_set_snoc d ws w :
  fold_left (fun d pq => DataStream.dict_set d pq.1 pq.2) (ws ++ [w]) d =
  DataStream.dict_set (fold_left (fun d pq => DataStream.dict_set d pq.1 pq.2) ws d)
                      w.1 w.2.
Proof. by rewrite fold_left_app. Qed.

Lemma dict_get_writes d ws k :
  dict_get (fold_left (fun d pq => DataStream.dict_set d pq.1 pq.2) ws d) k =
  book_after d ws k.
Proof.
  induction ws as [|w ws IH] using rev_ind.
  - reflexivity.
  - rewrite fold_dict_set_snoc, dict_get_set, IH.
    unfold book_after, last_write. rewrite filter_app, filter_cons, filter_nil.
    destruct (Qeq_bool (fst w) k) eqn:Hk.
    + rewrite decide_True by exact I. by rewrite last_snoc.
    + rewrite decide_False by (intros []). by rewrite app_nil_r.
Qed.

Lemma book_after_app d ws1 ws2 k :
  book_after d (ws1 ++ ws2) k =
  match last_write ws2 k with Some v => Some v | None => book_after d ws1 k end.
Proof.
  unfold book_after, last_write. rewrite filter_app.
  destruct (filter (λ pq : Q * Q, Qeq_bool pq.1 k) ws2) as [|x l] eqn:E
    using rev_ind.
  - by rewrite app_nil_r.
  - clear IHl. rewrite app_assoc, !last_snoc. reflexivity.
Qed.
Lemma process_depth_run u s :
  DataStream._process_depth (depth_msg u) s =
  Ok (DataStream.set_last_update_id u.2
        (DataStream.set_asks
           (fold_left (fun d pq => DataStream.dict_set d pq.1 pq.2) u.1.2
                      (DataStream.asks s))
           (DataStream.set_bids
              (fold_left (fun d pq => DataStream.dict_set d pq.1 pq.2) u.1.1
                         (DataStream.bids s))
              s))).
Proof. reflexivity. Qed.

(** X3: the depth consumer merges by overwriting.  After any run of depth
    updates, each level of each side holds the quantity of the last write
    for its price, or what it held before if the run does not write it; a
    level is never removed, a zero quantity is stored as any other;
    [last_update_id] is the [u] of the last message, and the trades, the
    buckets and the ticker are not touched. *)
Theorem depth_updates_last_write_wins
    (updates : list (list (Q * Q) * list (Q * Q) * Z)) (s : DataStream.Store) :
  exists s',
    consume_depth updates s = Ok s' /\
    (forall k, dict_get (DataStream.bids s') k =
               book_after (DataStream.bids s) (bid_writes updates) k) /\
    (forall k, dict_get (DataStream.asks s') k =
               book_after (DataStream.asks s) (ask_writes updates) k) /\
    DataStream.last_update_id s' =
      default (DataStream.last_update_id s) (last (map snd updates)) /\
    DataStream.trades s' = DataStream.trades s /\
    DataStream.volume_history s' = DataStream.volume_history s /\
    DataStream.ticker_pct s' = DataStream.ticker_pct s /\
    DataStream.trade_objs s' = DataStream.trade_objs s /\
    DataStream.bucket_objs s' = DataStream.bucket_objs s.
Proof.
  revert s. induction updates as [|u rest IH]; intros s.
  - exists s. by repeat split.
  - cbn [consume_depth]. rewrite process_depth_run. cbn [mbind outcome_bind].
    set (s1 := DataStream.set_last_update_id u.2
        (DataStream.set_asks
           (fold_left (fun d pq => DataStream.dict_set d pq.1 pq.2) u.1.2
                      (DataStream.asks s))
           (DataStream.set_bids
              (fold_left (fun d pq => DataStream.dict_set d pq.1 pq.2) u.1.1
                         (DataStream.bids s))
              s))).
    assert (DataStream.bids s1 =
            fold_left (fun d pq => DataStream.dict_set d pq.1 pq.2) u.1.1
                      (DataStream.bids s)) as Eb by reflexivity.
    assert (DataStream.asks s1 =
            fold_left (fun d pq => DataStream.dict_set d pq.1 pq.2) u.1.2
                      (DataStream.asks s)) as Ea by reflexivity.
    assert (DataStream.last_update_id s1 = u.2) as Eu by reflexivity.
    destruct (IH s1) as (s' & Hrun & Hb & Ha & Hu & Ht & Hv & Hp & Hto & Hbo).
    exists s'. split; [exact Hrun|].
    repeat split; try assumption.
    + intros k. rewrite Hb. unfold bid_writes. cbn [map concat].
      rewrite book_after_app. unfold book_after at 1.
      rewrite Eb, dict_get_writes. reflexivity.
    + intros k. rewrite Ha. unfold ask_writes. cbn [map concat].
      rewrite book_after_app. unfold book_after at 1.
      rewrite Ea, dict_get_writes. reflexivity.
    + rewrite Hu, Eu. destruct rest as [|r rest']; [reflexivity|].
      cbn [map]. rewrite last_cons_cons.
      destruct (last (r.2 :: map snd rest')) eqn:E; [reflexivity|].
      by apply last_None in E.
Qed.

Lemma dict_set_keys d k v :
  map fst (DataStream.dict_set d k v) =
  if existsb (fun k' => Qeq_bool k' k) (map fst d) then map fst d
  else map fst d ++ [k].
Proof.
  induction d as [|[k0 v0] d IH]; simpl.
  - reflexivity.
  - destruct (Qeq_bool k0 k); simpl; [reflexivity|].
    rewrite IH. by destruct (existsb _ _).
Qed.

Lemma dict_writes_keys ws d :
  map fst (fold_left (fun d pq => DataStream.dict_set d pq.1 pq.2) ws d) =
  arrival_order (map fst d) (map fst ws).
Proof.
  revert d. induction ws as [|w ws IH]; intros d; simpl.
  - reflexivity.
  - rewrite IH, dict_set_keys. reflexivity.
Qed.

(** X4: the book keeps its levels in the order their prices first arrived;
    it is never sorted by price.  After any run of depth updates the keys of
    each side are the keys it had, in their places, followed by the prices
    the run brings for the first time, in the order of arrival. *)
Theorem depth_levels_in_arrival_order
    (updates : list (list (Q * Q) * list (Q * Q) * Z)) (s : DataStream.Store) :
  exists s',
    consume_depth updates s = Ok s' /\
    map fst (DataStream.bids s') =
      arrival_order (map fst (DataStream.bids s)) (map fst (bid_writes updates)) /\
    map fst (DataStream.asks s') =
      arrival_order (map fst (DataStream.asks s)) (map fst (ask_writes updates)).
Proof.
  revert s. induction updates as [|u rest IH]; intros s.
  - exists s. by repeat split.
  - cbn [consume_depth]. rewrite process_depth_run. cbn [mbind outcome_bind].
    set (s1 := DataStream.set_last_update_id u.2
        (DataStream.set_asks
           (fold_left (fun d pq => DataStream.dict_set d pq.1 pq.2) u.1.2
                      (DataStream.asks s))
           (DataStream.set_bids
              (fold_left (fun d pq => DataStream.dict_set d pq.1 pq.2) u.1.1
                         (DataStream.bids s))
              s))).
    assert (DataStream.bids s1 =
            fold_left (fun d pq => DataStream.dict_set d pq.1 pq.2) u.1.1
                      (DataStream.bids s)) as Eb by reflexivity.
    assert (DataStream.asks s1 =
            fold_left (fun d pq => DataStream.dict_set d pq.1 pq.2) u.1.2
                      (DataStream.asks s)) as Ea by reflexivity.
    destruct (IH s1) as (s' & Hrun & Hb & Ha).
    exists s'. split; [exact Hrun|]. split.
    + rewrite Hb. unfold bid_writes. cbn [map concat].
      rewrite map_app. unfold arrival_order at 2. rewrite fold_left_app.
      rewrite Eb, dict_writes_keys. reflexivity.
    + rewrite Ha. unfold ask_writes. cbn [map concat].
      rewrite map_app. unfold arrival_order at 2. rewrite fold_left_app.
      rewrite Ea, dict_writes_keys. reflexivity.
Qed.
(** ** The ring of trades *)

Lemma update_volumes_trades now s :
  DataStream.trades (DataStream._update_volumes_locked now s) = DataStream.trades s /\
  DataStream.trade_objs (DataStream._update_volumes_locked now s) =
    DataStream.trade_objs s.
Proof.
  unfold DataStream._update_volumes_locked.
  destruct (last (DataStream.volume_history s)) as [l|]; [|by split].
  destruct (DataStream.bucket_objs s !! l) as [b|]; [|by split].
  destruct (DataStream.b_time b =? _)%Z; by split.
Qed.

Lemma deque_append_recent {A} (n : nat) (l : list A) (x : A) :
  (1 <= n)%nat ->
  DataStream.deque_append n (drop (List.length l - n) l) x =
  drop (List.length (l ++ [x]) - n) (l ++ [x]).
Proof.
  intros Hn. unfold DataStream.deque_append.
  rewrite !length_app, length_drop. cbn [List.length].
  destruct (Nat.ltb_spec n (List.length l - (List.length l - n) + 1)) as [Hlt|Hge].
  - rewrite (drop_app_le (drop (List.length l - n) l) [x] 1)
      by (rewrite length_drop; lia).
    rewrite (drop_app_le l [x] (List.length l + 1 - n)) by lia.
    rewrite drop_drop. do 2 f_equal. lia.
  - replace (List.length l - n)%nat with 0%nat by lia.
    replace (List.length l + 1 - n)%nat with 0%nat by lia. by rewrite !drop_0.
Qed.

Lemma append_trade_view (s : DataStream.Store) (trade : DataStream.Trade) :
  wf_trades s ->
  wf_trades (append_trade s trade) /\
  live_trades (append_trade s trade) =
    DataStream.deque_append 100 (live_trades s) trade.
Proof.
  intros Hwf.
  set (l := fresh (dom (DataStream.trade_objs s))).
  set (h' := <[l := trade]> (DataStream.trade_objs s)).
  assert (Hl : l ∉ DataStream.trades s).
  { intros Hin. destruct (Hwf l Hin) as [x Hx].
    apply (is_fresh (dom (DataStream.trade_objs s))). fold l.
    apply elem_of_dom. by exists x. }
  assert (Hwf' : forall r, r ∈ DataStream.trades s ++ [l] -> is_Some (h' !! r)).
  { intros r [Hr|Hr%list_elem_of_singleton]%elem_of_app.
    - unfold h'. rewrite lookup_insert_ne by (intros <-; done). by apply Hwf.
    - subst r. unfold h'. rewrite lookup_insert_eq. by eexists. }
  unfold wf_trades, live_trades.
  change (DataStream.trade_objs (append_trade s trade)) with h'.
  change (DataStream.trades (append_trade s trade)) with
    (DataStream.deque_append 100 (DataStream.trades s) l).
  split.
  - intros r Hr. apply Hwf'. unfold DataStream.deque_append in Hr.
    destruct (100 <? _)%nat; [|exact Hr].
    eapply subseteq_drop, Hr.
  - unfold DataStream.deque_append.
    rewrite !length_app, (deref_length _ _ Hwf). cbn [List.length].
    assert (DataStream.deref h' (DataStream.trades s ++ [l]) =
            DataStream.deref (DataStream.trade_objs s) (DataStream.trades s)
              ++ [trade]) as E.
    { unfold h'. rewrite deref_snoc_insert. by rewrite deref_insert_other. }
    destruct (100 <? _)%nat.
    + rewrite deref_drop1 by exact Hwf'. by rewrite E.
    + exact E.
Qed.

Lemma update_volumes_wf_trades now s :
  wf_trades s ->
  wf_trades (DataStream._update_volumes_locked now s) /\
  live_trades (DataStream._update_volumes_locked now s) = live_trades s.
Proof.
  intros Hwf. destruct (update_volumes_trades now s) as [Et Eo].
  unfold wf_trades, live_trades. rewrite Et, Eo. by split.
Qed.

Lemma consume_event_append (ev : TradeEvent) (s : DataStream.Store) :
  consume_event ev s =
  Ok (DataStream._update_volumes_locked (ev_now ev) (append_trade s (event_trade ev))).
Proof. unfold consume_event. by destruct (ev_agg ev). Qed.

Lemma consume_event_trades (ev : TradeEvent) (s : DataStream.Store) :
  wf_trades s ->
  exists s', consume_event ev s = Ok s' /\ wf_trades s' /\
    live_trades s' = DataStream.deque_append 100 (live_trades s) (event_trade ev).
Proof.
  intros Hwf. destruct (append_trade_view s (event_trade ev) Hwf) as [Hwf1 Ht1].
  destruct (update_volumes_wf_trades (ev_now ev) _ Hwf1) as [Hwf2 Ht2].
  eexists. split; [apply consume_event_append|]. split; [exact Hwf2|].
  by rewrite Ht2, Ht1.
Qed.

Lemma recent_trades_snoc events ev :
  DataStream.deque_append 100 (recent_trades events) (event_trade ev) =
  recent_trades (events ++ [ev]).
Proof.
  unfold recent_trades. rewrite map_app. cbn [map].
  rewrite <- (length_map event_trade events).
  rewrite deque_append_recent by lia.
  by rewrite !length_app, !length_map.
Qed.

(** X5: [state["trades"]] holds the last 100 trades.  Any run of trade and
    aggregated-trade events, from the empty state, is consumed without an
    error and leaves in the ring the dicts built from the last 100 events,
    oldest first; no volume bucket exists before the first event, and after
    it the last bucket is that of the clock minute of the last event, its
    volume counted on those 100 trades only. *)
Theorem trade_ring_holds_last_100 (events : list TradeEvent) :
  exists s,
    consume events DataStream.state_init = Ok s /\
    live_trades s = recent_trades events /\
    last (live_buckets s) = current_bucket events.
Proof.
  enough (exists s, consume events DataStream.state_init = Ok s /\
                    wf_trades s /\ wf_buckets s /\
                    live_trades s = recent_trades events /\
                    last (live_buckets s) = current_bucket events) as
      (s & Hrun & _ & _ & Ht & Hb) by (by exists s).
  induction events as [|ev events IH] using rev_ind.
  - exists DataStream.state_init. split; [reflexivity|].
    split; [intros l Hl; by apply elem_of_nil in Hl|].
    split; [intros l Hl; by apply elem_of_nil in Hl|]. by split.
  - destruct IH as (s & Hrun & Hwt & Hwb & Ht & _).
    destruct (consume_event_trades ev s Hwt) as (s' & Hev & Hwt' & Ht').
    destruct (consume_event_view ev s Hwb) as (s2 & Hev2 & Hwb' & Hlast & _).
    assert (s2 = s') as -> by congruence.
    exists s'. rewrite consume_app, Hrun. cbn [mbind outcome_bind consume].
    rewrite Hev. cbn [mbind outcome_bind].
    split; [reflexivity|]. split; [exact Hwt'|]. split; [exact Hwb'|].
    assert (live_trades s' = recent_trades (events ++ [ev])) as E.
    { by rewrite Ht', Ht, recent_trades_snoc. }
    split; [exact E|].
    rewrite Hlast. unfold current_bucket. rewrite last_snoc. cbn [mbind option_bind].
    unfold volume_since. by rewrite E.
Qed.
(** ** The user stream *)

(** X6: [user_handler] changes nothing unless the message is an
    ORDER_TRADE_UPDATE whose status is FILLED and whose order id is the
    recorded entry or stop order id.  An update of another event, of
    another status (a partial fill, a cancellation) or of an order id that
    is not recorded (so any update while both ids are [None]) leaves the
    position and the command queue as they are. *)
Theorem user_handler_ignores_unmatched (position : Position)
    (command_queue : list Command) (msg : DataStream.Msg) (order : DataStream.Order) :
  DataStream.msg_payload msg = DataStream.OrderFields order ->
  DataStream.msg_e msg <> "ORDER_TRADE_UPDATE" \/
  DataStream.o_X order <> "FILLED" \/
  (entry_order_id position <> Some (DataStream.o_i order) /\
   stop_order_id position <> Some (DataStream.o_i order)) ->
  DataStream.user_handler position command_queue msg = Ok (position, command_queue).
Proof.
  intros Hp Hcase. unfold DataStream.user_handler, DataStream.msg_order.
  rewrite Hp. cbn [mbind outcome_bind].
  destruct (String.eqb_spec (DataStream.msg_e msg) "ORDER_TRADE_UPDATE") as [He|He];
    [|reflexivity].
  destruct (String.eqb_spec (DataStream.o_X order) "FILLED") as [Hx|Hx];
    [|reflexivity].
  destruct Hcase as [Hc|[Hc|[Hentry Hstop]]]; [done|done|].
  assert (forall r, r <> Some (DataStream.o_i order) ->
                    DataStream.id_eqb (DataStream.o_i order) r = false) as Hid.
  { intros [i|] Hr; [|reflexivity]. cbn. apply Z.eqb_neq. congruence. }
  by rewrite (Hid _ Hentry), (Hid _ Hstop).
Qed.

Lemma user_handler_ignores_unmatched_witness :
  DataStream.user_handler position_init [] (order_update entry_fill_order) =
  Ok (position_init, []).
Proof.
  apply (user_handler_ignores_unmatched position_init []
           (order_update entry_fill_order) entry_fill_order).
  - reflexivity.
  - right. right. split; simpl; discriminate.
Defined.

(** X7: the fill of the recorded stop order closes the position.  On an
    ORDER_TRADE_UPDATE with status FILLED whose order id is the recorded
    [stop_order_id] and not the recorded [entry_order_id], [user_handler]
    sets every field of the record back to its initial value and puts no
    command on the queue. *)
Theorem stop_fill_resets_position (position : Position)
    (command_queue : list Command) (msg : DataStream.Msg) (order : DataStream.Order) :
  DataStream.msg_e msg = "ORDER_TRADE_UPDATE" ->
  DataStream.msg_payload msg = DataStream.OrderFields order ->
  DataStream.o_X order = "FILLED" ->
  stop_order_id position = Some (DataStream.o_i order) ->
  entry_order_id position <> Some (DataStream.o_i order) ->
  DataStream.user_handler position command_queue msg =
    Ok (position_init, command_queue).
Proof.
  intros He Hp Hx Hstop Hentry.
  unfold DataStream.user_handler, DataStream.msg_order.
  rewrite He, Hp. cbn [mbind outcome_bind]. rewrite Hx, Hstop.
  rewrite !String.eqb_refl.
  assert (DataStream.id_eqb (DataStream.o_i order) (entry_order_id position) = false)
    as ->.
  { destruct (entry_order_id position) as [i|]; [|reflexivity].
    cbn. apply Z.eqb_neq. congruence. }
  cbn [DataStream.id_eqb]. rewrite Z.eqb_refl. reflexivity.
Qed.

Lemma stop_fill_resets_position_witness :
  DataStream.user_handler (set_stop_order_id (Some 43%Z) long_100) []
                          (order_update stop_fill_order) =
  Ok (position_init, []).
Proof.
  apply (stop_fill_resets_position (set_stop_order_id (Some 43%Z) long_100) []
           (order_update stop_fill_order) stop_fill_order).
  - reflexivity.
  - reflexivity.
  - reflexivity.
  - reflexivity.
  - simpl. discriminate.
Defined.
(** ** The command drain *)

Lemma record_stop_cons command rest p :
  record_stop (command :: rest) p =
  record_stop rest
    (if String.eqb (cmd_name command) "place_stop_order"
     then set_stop_order_id None (set_stop_price (Some (cmd_stop_price command)) p)
     else p).
Proof.
  unfold record_stop, last_stop_command. rewrite filter_cons.
  destruct (String.eqb (cmd_name command) "place_stop_order") eqn:E.
  - rewrite decide_True by exact I.
    destruct (filter _ rest) as [|c l] eqn:El; [reflexivity|].
    rewrite last_cons_cons.
    destruct (last (c :: l)) as [c'|] eqn:Ec; [reflexivity|].
    by apply last_None in Ec.
  - by rewrite decide_False by (intros []).
Qed.

Section Drain.
Context {X : Type} `{Main.Exchange X} `{FloatResidue}.

Lemma apply_commands_run (commands : list Command) (w : Main.World X) :
  Main.apply_commands commands w =
  (Ok tt, {| Main.exchange := Main.exchange w; Main.calls := Main.calls w;
             Main.position := record_stop commands (Main.position w);
             Main.command_queue :=
               match commands with [] => Main.command_queue w | _ => [] end |}).
Proof.
  revert w. induction commands as [|command rest IH]; intros w.
  - by destruct w.
  - cbn [Main.apply_commands]. unfold mbind, Main.M_bind.
    cbn [Main.set_command_queue].
    rewrite record_stop_cons.
    destruct (String.eqb (cmd_name command) "place_stop_order").
    + unfold mbind, Main.M_bind. rewrite place_stop_order_run.
      cbn [Main.update_position Main.exchange Main.calls Main.position
           Main.command_queue].
      rewrite IH. cbn [Main.exchange Main.calls Main.position Main.command_queue].
      by destruct rest.
    + cbn [mret Main.M_ret]. rewrite IH.
      cbn [Main.exchange Main.calls Main.position Main.command_queue].
      by destruct rest.
Qed.

(** X8: no stop order ever reaches the exchange.  [place_stop_order] reads
    the name ORDER_TYPE_STOP_MARKET, which main.py does not import, inside
    its [try]: the call returns an order id of [None] and makes no request.
    So the command drain of [run_trading] always returns, empties the
    queue, makes no request of the exchange, and records the stop price of
    the last place_stop_order command with a [stop_order_id] of [None]. *)
Theorem drain_commands_places_no_stop_order (w : Main.World X) :
  Main.drain_commands w =
  (Ok tt, {| Main.exchange := Main.exchange w; Main.calls := Main.calls w;
             Main.position := record_stop (Main.command_queue w) (Main.position w);
             Main.command_queue := [] |}).
Proof.
  unfold Main.drain_commands. rewrite apply_commands_run.
  by destruct (Main.command_queue w).
Qed.

End Drain.
(** ** The trailing stop in closed form *)

Lemma trail_arith (e cp q : Q) :
  0 < q ->
  (cp - e) * q * Main.LEVERAGE * (1 - Main.DYNAMIC_SL) / (q * Main.LEVERAGE) ==
  (1 - Main.DYNAMIC_SL) * (cp - e).
Proof. intros Hq. unfold Main.LEVERAGE, Main.DYNAMIC_SL. field. lra. Qed.

Section TrailingClosedForm.
Context {X : Type} `{Main.Exchange X} `{FloatResidue}.

Lemma update_trailing_stop_new_high (w : Main.World X) (e cp : Q) :
  state (Main.position w) <> none ->
  0 < qty (Main.position w) ->
  entry (Main.position w) = Some e ->
  max_pnl (Main.position w) < pnl_at (Main.position w) e cp ->
  exists w' stop,
    Main.update_trailing_stop cp w = (Ok tt, w') /\
    state (Main.position w') = state (Main.position w) /\
    entry (Main.position w') = entry (Main.position w) /\
    qty (Main.position w') = qty (Main.position w) /\
    entry_order_id (Main.position w') = entry_order_id (Main.position w) /\
    max_pnl (Main.position w') = pnl_at (Main.position w) e cp /\
    stop_price (Main.position w') = Some stop /\
    stop == trailed_stop (state (Main.position w)) e cp.
Proof.
  intros Hst Hq He Hhigh.
  assert (Hd : 0 < qty (Main.position w) * Main.LEVERAGE)
    by (unfold Main.LEVERAGE; lra).
  apply Qltb_lt in Hhigh.
  unfold Main.update_trailing_stop, mbind, Main.M_bind, Main.get_position.
  unfold pnl_at, trailed_stop in *.
  destruct (state (Main.position w)) eqn:Est; [congruence| |];
    rewrite He; simpl; rewrite Hhigh; rewrite (py_div_pos _ _ Hd);
    match goal with |- context [Main.differs ?a ?b] =>
      destruct (Main.differs a b) eqn:Ed end.
  all: try (destruct (cancel_stop_order_run (stop_order_id (Main.position w))
      {| Main.exchange := Main.exchange w; Main.calls := Main.calls w;
         Main.position := set_max_pnl
           (match state (Main.position w) with
            | long => (cp - e) * qty (Main.position w) * Main.LEVERAGE
            | _ => (e - cp) * qty (Main.position w) * Main.LEVERAGE end)
           (Main.position w);
         Main.command_queue := Main.command_queue w |}) as (w1 & Hc & Hp & _);
    rewrite Est in Hc, Hp; rewrite Hc; simpl in Hp |- *;
    eexists; eexists; split; [reflexivity|]; simpl; rewrite Hp; simpl;
    rewrite Est; do 6 (split; [first [reflexivity|exact He]|]);
    rewrite (trail_arith _ _ _ Hq); reflexivity).
  all: apply differs_false in Ed as (s & Es & Eq);
    eexists; exists s; split; [reflexivity|]; simpl; rewrite Est;
    do 5 (split; [first [reflexivity|exact He]|]); split; [exact Es|];
    rewrite <- Eq, (trail_arith _ _ _ Hq); reflexivity.
Qed.


Lemma gain_positive (d q m : Q) : 0 < q -> 0 <= m -> m < d * q * Main.LEVERAGE -> 0 < d.
Proof.
  unfold Main.LEVERAGE. intros Hq Hm Hd.
  destruct (Qlt_le_dec 0 d) as [Hpos|Hneg]; [exact Hpos|exfalso].
  assert (d * q <= 0) by nra. lra.
Qed.

(** X10: a trailing update never stops the position out at once.  On an
    open position whose best profit is not negative, after
    [update_trailing_stop] has moved the stop on a new high, the stop-out
    test of [run_trading] at the same price is false: the new stop lies
    strictly on the losing side of the price. *)
Theorem trailing_update_does_not_stop_out (w : Main.World X) (e current_price : Q) :
  state (Main.position w) <> none ->
  0 < qty (Main.position w) ->
  entry (Main.position w) = Some e ->
  0 <= max_pnl (Main.position w) ->
  max_pnl (Main.position w) < pnl_at (Main.position w) e current_price ->
  exists w',
    Main.update_trailing_stop current_price w = (Ok tt, w') /\
    Main.stop_crossed (Main.position w') current_price = Ok false.
Proof.
  intros Hst Hq He Hm Hhigh.
  destruct (update_trailing_stop_new_high w e current_price Hst Hq He Hhigh)
    as (w' & stop & Hrun & H1 & _ & _ & _ & _ & H6 & H7).
  exists w'. split; [exact Hrun|].
  unfold Main.stop_crossed. rewrite H1, H6.
  unfold pnl_at, trailed_stop in *.
  destruct (state (Main.position w)); [congruence| |];
    cbn [Main.as_float mbind outcome_bind]; f_equal;
    pose proof (gain_positive _ _ _ Hq Hm Hhigh) as Hgain;
    unfold Main.DYNAMIC_SL in H7.
  - destruct (Qle_bool current_price stop) eqn:E; [|reflexivity].
    apply Qle_bool_iff in E. lra.
  - destruct (Qle_bool stop current_price) eqn:E; [|reflexivity].
    apply Qle_bool_iff in E. lra.
Qed.

End TrailingClosedForm.


Lemma trailing_update_does_not_stop_out_witness :
  exists w',
    Main.update_trailing_stop 90 (paper_world 90 1000 short_100 []) = (Ok tt, w') /\
    Main.stop_crossed (Main.position w') 90 = Ok false.
Proof.
  apply (trailing_update_does_not_stop_out (paper_world 90 1000 short_100 []) 100 90).
  - simpl. discriminate.
  - simpl. lra.
  - reflexivity.
  - simpl. lra.
  - vm_compute. reflexivity.
Defined.
(** ** Closing and entering *)

Section MarketOrders.
Context {X : Type} `{Main.Exchange X} `{FloatResidue}.

Lemma place_market_order_run side qty (w : Main.World X) :
  Main.place_market_order side qty w =
  (Ok (match (Main.futures_create_order (market_request side qty) (Main.exchange w)).1 with
       | Ok order => {| Main.res_status := Main.rp_status order;
                        Main.res_orderId := Some (Main.rp_orderId order) |}
       | Raise _ => {| Main.res_status := "FAILED"; Main.res_orderId := None |}
       end),
   {| Main.exchange :=
        (Main.futures_create_order (market_request side qty) (Main.exchange w)).2;
      Main.calls := Main.calls w ++ [Main.CallCreateOrder (market_request side qty)];
      Main.position := Main.position w;
      Main.command_queue := Main.command_queue w |}).
Proof.
  unfold Main.place_market_order, Main.try_except, mbind, Main.M_bind, Main.request.
  cbn [Main.DRY_RUN]. fold (market_request side qty).
  by destruct (Main.futures_create_order (market_request side qty) (Main.exchange w))
    as [[order|err] x].
Qed.

Lemma cancel_stop_order_calls order_id (w : Main.World X) :
  exists w', Main.cancel_stop_order order_id w = (Ok tt, w') /\
             Main.position w' = Main.position w /\
             Main.command_queue w' = Main.command_queue w /\
             Main.calls w' = Main.calls w ++ cancel_calls order_id.
Proof.
  destruct order_id as [i|]; simpl.
  - destruct (i =? 0)%Z; simpl.
    + eexists. split; [reflexivity|]. by rewrite app_nil_r.
    + unfold Main.try_except, Main.request.
      destruct (Main.futures_cancel_order i (Main.exchange w)) as [[[]|err] x];
        by eexists.
  - eexists. split; [reflexivity|]. by rewrite app_nil_r.
Qed.

(** X11: [close_position] always returns, and the record is reset exactly
    when the closing order is accepted.  With state none it does nothing.
    Otherwise it sends one market order of the recorded quantity on the
    opposite side; if the exchange raises or answers FAILED the position is
    left as it is and nothing else is requested; if the order is accepted
    the recorded stop order, if any, is cancelled and every field of the
    position goes back to its initial value.  The command queue is never
    touched. *)
Theorem close_position_outcome (w : Main.World X) (current_price : Q) :
  exists w',
    Main.close_position current_price w = (Ok tt, w') /\
    match state (Main.position w) with
    | none => w' = w
    | st =>
        let rq := market_request (closing_side st) (qty (Main.position w)) in
        Main.command_queue w' = Main.command_queue w /\
        match accepted_id (Main.futures_create_order rq (Main.exchange w)).1 with
        | Some _ =>
            Main.position w' = position_init /\
            Main.calls w' =
              Main.calls w ++ Main.CallCreateOrder rq ::
                cancel_calls (stop_order_id (Main.position w))
        | None =>
            Main.position w' = Main.position w /\
            Main.calls w' = Main.calls w ++ [Main.CallCreateOrder rq]
        end
    end.
Proof.
  unfold Main.close_position, mbind, Main.M_bind, Main.get_position.
  destruct (state (Main.position w)) eqn:Est; [by exists w| |].
  all: rewrite place_market_order_run; unfold closing_side, accepted_id.
  all: destruct (Main.futures_create_order _ (Main.exchange w)) as [[order|err] x];
    cbn [fst snd Main.res_status];
    [destruct (String.eqb (Main.rp_status order) "FAILED")|];
    try (eexists; split; [reflexivity|]; by cbn).
  all: match goal with |- context [Main.cancel_stop_order ?i ?w0] =>
         destruct (cancel_stop_order_calls i w0) as (w1 & Hc & Hp & Hq & Hcalls)
       end.
  all: rewrite Hc; eexists; split; [reflexivity|]; cbn in *;
    rewrite Hq, Hcalls; split; [reflexivity|]; split; [reflexivity|];
    by rewrite <- app_assoc.
Qed.

(** X12: what [enter_position] sends and records.  With a price other
    than zero and a notional of at least 20 (the quantity rounded to
    whichever side [round] goes in the execution, where it is a midpoint
    between two thousandths) it asks for the price and the balance and
    sends one market order of the computed quantity, on the BUY
    side for the signal BUY and on the SELL side for any other signal.  If
    the order is accepted it records the order id as [entry_order_id] and
    nothing else: state, entry, quantity and stop stay as they were until
    the fill is reported.  If the exchange raises or answers FAILED the
    position is unchanged. *)
Theorem enter_position_sends_and_records (w : Main.World X) (signal : string)
    (snapshot : DataStream.Snapshot) (price balance : Q) (x1 : X) :
  Main.futures_symbol_ticker (Main.exchange w) = (Ok price, x1) ->
  match (Main.futures_account x1).1 with Ok b => b | Raise _ => 0 end = balance ->
  ~ price == 0 ->
  ~ py_round (balance * Main.RISK_PER_TRADE * Main.LEVERAGE / price) 3 * price < 20 ->
  let rq := market_request
              (entry_side signal)
              (py_round (balance * Main.RISK_PER_TRADE * Main.LEVERAGE / price) 3) in
  exists w',
    Main.enter_position signal snapshot w = (Ok tt, w') /\
    Main.calls w' =
      Main.calls w ++ [Main.CallSymbolTicker; Main.CallAccount;
                       Main.CallCreateOrder rq] /\
    Main.command_queue w' = Main.command_queue w /\
    Main.position w' =
      match accepted_id (Main.futures_create_order rq (Main.futures_account x1).2).1 with
      | Some i => set_entry_order_id (Some i) (Main.position w)
      | None => Main.position w
      end.
Proof.
  intros Ht Hb Hp Hn rq.
  unfold Main.enter_position, mbind, Main.M_bind.
  unfold Main.request at 1. rewrite Ht. rewrite fetch_balance_run. simpl.
  rewrite Hb. unfold Main.lift, Main.calc_qty, py_div.
  destruct (Qeq_bool price 0) eqn:E; [apply Qeq_bool_eq in E; contradiction|].
  simpl.
  destruct (Qltb _ 20) eqn:En; [apply Qltb_lt in En; contradiction|].
  rewrite place_market_order_run. fold (entry_side signal). fold rq.
  cbn [Main.exchange Main.calls Main.position Main.command_queue].
  unfold accepted_id.
  destruct (Main.futures_create_order rq (Main.futures_account x1).2)
    as [[order|err] x2]; cbn [fst snd Main.res_status Main.res_orderId].
  - destruct (String.eqb (Main.rp_status order) "FAILED");
      (eexists; split; [reflexivity|]; cbn; by rewrite <- !app_assoc).
  - eexists; split; [reflexivity|]; cbn; by rewrite <- !app_assoc.
Qed.

End MarketOrders.

Lemma enter_position_sends_and_records_witness :
  let rq := market_request
              (entry_side "SELL")
              (py_round (1000 * Main.RISK_PER_TRADE * Main.LEVERAGE / 100) 3) in
  exists w',
    Main.enter_position "SELL" (DataStream.get_snapshot DataStream.state_init)
      (paper_world 100 1000 position_init []) = (Ok tt, w') /\
    Main.calls w' =
      Main.calls (paper_world 100 1000 position_init []) ++
        [Main.CallSymbolTicker; Main.CallAccount; Main.CallCreateOrder rq] /\
    Main.command_queue w' = Main.command_queue (paper_world 100 1000 position_init []) /\
    Main.position w' =
      match accepted_id
              (Main.futures_create_order rq
                 (Main.futures_account
                    {| paper_price := 100; paper_balance := 1000;
                       paper_next_id := 42 |}).2).1 with
      | Some i => set_entry_order_id (Some i)
                    (Main.position (paper_world 100 1000 position_init []))
      | None => Main.position (paper_world 100 1000 position_init [])
      end.
Proof.
  apply (enter_position_sends_and_records (paper_world 100 1000 position_init [])
           "SELL" (DataStream.get_snapshot DataStream.state_init) 100 1000
           {| paper_price := 100; paper_balance := 1000; paper_next_id := 42 |}).
  - reflexivity.
  - reflexivity.
  - by vm_compute.
  - by vm_compute.
Defined.

(** At a price of 50.28 and a balance of 1.11035 the quantity is the
    midpoint 0.3975.  Rounded down, the notional is below 20 and no order is
    sent; rounded up, the order is sent. *)
Example entry_at_midpoint :
  Main.calls
    (@Main.enter_position Paper paper_exchange no_residue "BUY"
       (DataStream.get_snapshot DataStream.state_init)
       (paper_world (5028 # 100) (111035 # 100000) position_init [])).2 =
    [Main.CallSymbolTicker; Main.CallAccount] /\
  exists rq,
    Main.calls
      (@Main.enter_position Paper paper_exchange residue_up "BUY"
         (DataStream.get_snapshot DataStream.state_init)
         (paper_world (5028 # 100) (111035 # 100000) position_init [])).2 =
      [Main.CallSymbolTicker; Main.CallAccount; Main.CallCreateOrder rq] /\
    Main.rq_quantity rq == 398 # 1000.
Proof. split; [reflexivity|]. eexists. split; reflexivity. Qed.

(** ** The record of main.py *)

Lemma record_stop_state commands p :
  state (record_stop commands p) = state p.
Proof. unfold record_stop. by destruct (last_stop_command commands). Qed.

Lemma record_stop_flat commands p : flat p -> flat (record_stop commands p).
Proof. unfold record_stop. by destruct (last_stop_command commands). Qed.

Lemma signal_never_names_state (st : PosState) (signal : string) :
  String.eqb signal "BUY" || String.eqb signal "SELL" = true ->
  String.eqb (state_str st) (Main.lower signal) = false.
Proof.
  intros [E|E]%orb_true_iff; apply String.eqb_eq in E; subst signal;
    by destruct st.
Qed.

Section MainRecord.
Context {X : Type} `{Main.Exchange X} `{FloatResidue}.

(** X13: a pass of [run_trading] while the record says no position is
    held.  After the command drain the pass takes the decision, asks for the
    price and, on BUY or SELL, calls [enter_position]: the trailing stop and
    the stop-out test are skipped, [close_position] does nothing, and the
    test of the state against the lower-cased signal lets every BUY and
    SELL through, also while an entry order is already recorded.  On any
    other decision the pass only asks for the price. *)
Theorem pass_without_position (s : DataStream.Store) (w : Main.World X) :
  state (Main.position w) = none ->
  Main.run_trading_iteration s w = flat_pass s w.
Proof.
  intros Hst. unfold Main.run_trading_iteration, flat_pass, decision.
  rewrite !(M_bind_run Main.drain_commands).
  unfold Main.drain_commands. rewrite apply_commands_run.
  set (w1 := {| Main.exchange := Main.exchange w; Main.calls := Main.calls w;
                Main.position := record_stop (Main.command_queue w) (Main.position w);
                Main.command_queue := _ |}).
  assert (Hst1 : state (Main.position w1) = none)
    by (cbn; by rewrite record_stop_state).
  clearbody w1. clear Hst w.
  unfold mbind, Main.M_bind, Main.lift, outcome_bind.
  destruct (Main.decision_inputs s (DataStream.get_snapshot s)) as [inputs|err];
    [|reflexivity].
  destruct (Signal.generate_signal _ _ _ _) as [signal|err]; [|reflexivity].
  destruct (Main.request Main.CallSymbolTicker Main.futures_symbol_ticker w1)
    as [[price|err] w2] eqn:Ereq; [|reflexivity].
  assert (Hp : Main.position w2 = Main.position w1)
    by (eapply frame_request; exact Ereq).
  unfold Main.get_position. rewrite Hp, Hst1. cbn [mret Main.M_ret].
  rewrite Hp, Hst1.
  destruct (String.eqb signal "BUY" || String.eqb signal "SELL") eqn:Esig;
    [|reflexivity].
  rewrite (signal_never_names_state none signal Esig). cbn [negb andb].
  unfold Main.close_position, mbind, Main.M_bind, Main.get_position.
  by rewrite Hp, Hst1.
Qed.

Lemma frame_keeps_flat {A} (c : Main.M X A) : frame c -> keeps_flat c.
Proof. intros Hf w r w' Hrun. by rewrite (Hf _ _ _ Hrun). Qed.

Lemma keeps_flat_bind {A B} (c : Main.M X A) (f : A -> Main.M X B) :
  keeps_flat c -> (forall a, keeps_flat (f a)) -> keeps_flat (c ≫= f).
Proof.
  intros Hc Hf w r w' Hrun Hinv. unfold mbind, Main.M_bind in Hrun.
  destruct (c w) as [[a|err] w1] eqn:E.
  - eapply Hf; eauto.
  - inversion Hrun; subst. eauto.
Qed.

Lemma keeps_flat_update_position (f : Position -> Position) :
  (forall p, flat p -> flat (f p)) -> keeps_flat (X:=X) (Main.update_position f).
Proof. intros Hf w r w' Hrun Hinv. inversion Hrun; subst. simpl. auto. Qed.

Lemma keeps_flat_drain_commands : keeps_flat (X:=X) Main.drain_commands.
Proof.
  intros w r w' Hrun Hflat. unfold Main.drain_commands in Hrun.
  rewrite apply_commands_run in Hrun. inversion Hrun; subst. cbn.
  by apply record_stop_flat.
Qed.

Lemma keeps_flat_update_trailing_stop current_price :
  keeps_flat (X:=X) (Main.update_trailing_stop current_price).
Proof.
  intros w r w' Hrun Hflat.
  unfold Main.update_trailing_stop, mbind, Main.M_bind, Main.get_position in Hrun.
  destruct Hflat as (Hst & Hrest). rewrite Hst in Hrun.
  inversion Hrun; subst. by split.
Qed.

Lemma keeps_flat_close_position current_price :
  keeps_flat (X:=X) (Main.close_position current_price).
Proof.
  intros w r w' Hrun Hflat.
  unfold Main.close_position, mbind, Main.M_bind, Main.get_position in Hrun.
  destruct Hflat as (Hst & Hrest). rewrite Hst in Hrun.
  inversion Hrun; subst. by split.
Qed.

Lemma keeps_flat_enter_position signal snapshot :
  keeps_flat (X:=X) (Main.enter_position signal snapshot).
Proof.
  unfold Main.enter_position.
  apply keeps_flat_bind; [apply frame_keeps_flat, frame_request|]. intros price.
  apply keeps_flat_bind.
  { apply frame_keeps_flat, frame_try_except;
      [apply frame_request|intros; apply frame_ret]. }
  intros balance.
  apply keeps_flat_bind; [apply frame_keeps_flat, frame_lift|]. intros qty.
  destruct (Qltb _ _); [apply frame_keeps_flat, frame_ret|].
  apply keeps_flat_bind; [apply frame_keeps_flat, frame_place_market_order|].
  intros res.
  destruct (String.eqb _ _); [apply frame_keeps_flat, frame_ret|].
  apply keeps_flat_update_position. by intros p.
Qed.

Lemma keeps_flat_run_trading_iteration s :
  keeps_flat (X:=X) (Main.run_trading_iteration s).
Proof.
  unfold Main.run_trading_iteration.
  apply keeps_flat_bind; [apply keeps_flat_drain_commands|]. intros _.
  apply keeps_flat_bind; [apply frame_keeps_flat, frame_lift|]. intros inputs.
  apply keeps_flat_bind; [apply frame_keeps_flat, frame_lift|]. intros signal.
  apply keeps_flat_bind; [apply frame_keeps_flat, frame_request|]. intros price.
  apply keeps_flat_bind; [apply frame_keeps_flat, frame_get_position|]. intros p.
  apply keeps_flat_bind.
  { destruct (state p); [apply frame_keeps_flat, frame_ret| |];
      (apply keeps_flat_bind; [apply keeps_flat_update_trailing_stop|]; intros _;
       apply keeps_flat_bind; [apply frame_keeps_flat, frame_get_position|];
       intros p';
       apply keeps_flat_bind; [apply frame_keeps_flat, frame_lift|]; intros crossed;
       destruct crossed;
       [apply keeps_flat_close_position|apply frame_keeps_flat, frame_ret]). }
  intros _.
  apply keeps_flat_bind; [apply frame_keeps_flat, frame_get_position|]. intros p'.
  destruct (_ && _); [|apply frame_keeps_flat, frame_ret].
  apply keeps_flat_bind; [apply keeps_flat_close_position|]. intros _.
  apply keeps_flat_enter_position.
Qed.

(** X14: main.py never opens a position on its own record.  In every state
    reached from the initial record through the functions of main.py that
    write it (the command drain, [update_trailing_stop], [close_position],
    [enter_position], a pass of [run_trading]), whatever the exchange
    answers and whatever commands are put on the queue, the state is none,
    the entry is null and the quantity and the best profit are zero: only
    [user_handler] sets the state to long or short. *)
Theorem main_never_opens_position (w : Main.World X) :
  main_reachable w -> flat (Main.position w).
Proof.
  induction 1 as [x|w w' Hreach IH Hstep]; [by repeat split|].
  destruct Hstep as [w q|w r w' Hrun|w cp r w' Hrun|w cp r w' Hrun
                    |w signal snapshot r w' Hrun|w s r w' Hrun].
  - exact IH.
  - eapply keeps_flat_drain_commands; eauto.
  - eapply keeps_flat_update_trailing_stop; eauto.
  - eapply keeps_flat_close_position; eauto.
  - eapply keeps_flat_enter_position; eauto.
  - eapply keeps_flat_run_trading_iteration; eauto.
Qed.

End MainRecord.

Lemma pass_without_position_witness :
  Main.run_trading_iteration rising_market (paper_world 100 1000 position_init []) =
  flat_pass rising_market (paper_world 100 1000 position_init []).
Proof.
  apply (pass_without_position rising_market (paper_world 100 1000 position_init [])).
  reflexivity.
Defined.

Lemma main_reachable_after_entry : main_reachable world_after_entry.
Proof.
  eapply main_reachable_step.
  - apply (main_reachable_init {| paper_price := 100; paper_balance := 1000;
                                  paper_next_id := 42 |}).
  - eapply main_enter_position
      with (signal := "BUY")
           (snapshot := DataStream.get_snapshot DataStream.state_init).
    apply surjective_pairing.
Qed.

Lemma main_never_opens_position_witness :
  flat (Main.position world_after_entry).
Proof.
  apply (main_never_opens_position world_after_entry).
  exact main_reachable_after_entry.
Defined.
(** ** The decision never raises *)

Section DecisionTotal.
Context `{FloatResidue}.

Lemma length_rolling agg window series :
  List.length (Signal.rolling agg window series) = List.length series.
Proof. unfold Signal.rolling. by rewrite length_map, length_seq. Qed.

Lemma length_shift series :
  List.length (Signal.shift series) = List.length series.
Proof.
  destruct series as [|x rest] using rev_ind; [reflexivity|].
  unfold Signal.shift. destruct (rest ++ [x]) eqn:E.
  - by destruct rest.
  - rewrite <- E, removelast_last, length_app. simpl. lia.
Qed.

Lemma length_diff series :
  List.length (Signal.diff series) = List.length series.
Proof.
  destruct series as [|x rest]; [reflexivity|].
  unfold Signal.diff. cbn [List.length]. rewrite length_zip_with.
  cbn [List.length]. lia.
Qed.

Lemma length_calculate_rsi prices period :
  List.length (Signal.calculate_rsi prices period) = List.length prices.
Proof.
  unfold Signal.calculate_rsi, Signal.rolling_mean.
  rewrite length_map, length_zip_with, !length_rolling, !length_map, length_diff.
  lia.
Qed.

Lemma iloc_last_run {A} (series : list A) :
  (0 < List.length series)%nat -> exists x, Signal.iloc_last series = Ok x.
Proof.
  intros Hlen. unfold Signal.iloc_last.
  destruct (last series) as [x|] eqn:E; [by exists x|].
  apply last_None in E. subst series. simpl in Hlen. lia.
Qed.

Lemma ewm_mean_from_length alpha prev series :
  List.length (Signal.ewm_mean_from alpha prev series) = List.length series.
Proof.
  revert prev. induction series as [|y rest IH]; intros prev; [reflexivity|].
  cbn [Signal.ewm_mean_from List.length]. f_equal. apply IH.
Qed.

Lemma calculate_ema_length series span :
  List.length (Signal.calculate_ema series span) = List.length series.
Proof.
  destruct series as [|x rest]; [reflexivity|].
  cbn [Signal.calculate_ema List.length]. f_equal. apply ewm_mean_from_length.
Qed.

Lemma calculate_atr_run prices period :
  exists atr, Signal.calculate_atr prices period = Ok atr.
Proof.
  unfold Signal.calculate_atr.
  destruct (Nat.ltb_spec (List.length prices) (period + 1)) as [Hlt|Hge];
    [by eexists|].
  match goal with |- context [Signal.iloc_last ?l] =>
    destruct (iloc_last_run l) as [x Hx] end.
  - unfold Signal.rolling_mean, Signal.rolling_max, Signal.rolling_min.
    repeat rewrite ?length_rolling, ?length_map, ?length_zip_with, ?length_shift.
    lia.
  - rewrite Hx. by eexists.
Qed.

Lemma getitem_run {R V} (df : Signal.Frame R) name (field : R -> V) :
  Signal.has_column df name = true ->
  Signal.getitem df name field = Ok (map field (Signal.rows df)).
Proof. intros Hc. unfold Signal.getitem. by rewrite Hc. Qed.

Lemma order_book_pressure_run (df : Signal.Frame Signal.Level) :
  Signal.has_column df "bid_qty" = true ->
  Signal.has_column df "ask_qty" = true ->
  exists r, Signal.order_book_pressure df = Ok r.
Proof.
  intros Hb Ha. unfold Signal.order_book_pressure.
  rewrite (getitem_run _ _ _ Hb), (getitem_run _ _ _ Ha). cbn [mbind outcome_bind].
  destruct (Qeq_bool _ 0); by eexists.
Qed.

Lemma trade_dominance_run (trades_df : Signal.Frame Signal.Trade) :
  Signal.has_column trades_df "side" = true ->
  Signal.has_column trades_df "qty" = true ->
  exists r, Signal.trade_dominance trades_df = Ok r.
Proof.
  intros Hs Hq. unfold Signal.trade_dominance.
  destruct (Signal.empty trades_df); [by eexists|].
  rewrite !(side_qty_sum_run _ _ Hs Hq). cbn [mbind outcome_bind].
  destruct (Qeq_bool _ 0); by eexists.
Qed.

Lemma calculate_vwap_run (trades_df : Signal.Frame Signal.Trade) :
  Signal.empty trades_df = false ->
  Signal.has_column trades_df "price" = true ->
  Signal.has_column trades_df "qty" = true ->
  exists v, Signal.calculate_vwap trades_df = Ok (Some v).
Proof.
  intros He Hp Hq. unfold Signal.calculate_vwap. rewrite He.
  rewrite (getitem_run _ _ _ Hp), (getitem_run _ _ _ Hq). cbn [mbind outcome_bind].
  by eexists.
Qed.

Lemma empty_false_rows {R} (df : Signal.Frame R) :
  Signal.empty df = false -> (0 < List.length (Signal.rows df))%nat.
Proof.
  unfold Signal.empty. intros [_ Hr%Nat.eqb_neq]%orb_false_iff. lia.
Qed.

Lemma volume_trend_run (volume_df : Signal.Frame Signal.Bucket) :
  exists r, Signal.volume_trend volume_df = Ok r.
Proof.
  unfold Signal.volume_trend.
  destruct (Signal.empty volume_df) eqn:He; cbn [orb]; [by eexists|].
  destruct (Signal.has_column volume_df "volume") eqn:Hc; cbn [negb];
    [|by eexists].
  rewrite (getitem_run _ _ _ Hc). cbn [mbind outcome_bind].
  destruct (Qeq_bool _ 0).
  { destruct (_ <=? 2)%nat; [by eexists|]. destruct (std_residue _); by eexists. }
  match goal with |- context [Signal.iloc_last ?l] =>
    destruct (iloc_last_run l) as [x Hx] end.
  { rewrite length_map. by apply empty_false_rows. }
  rewrite Hx. by eexists.
Qed.

Ltac signal_found :=
  eexists; split; [reflexivity|];
  first [by left | by (right; left) | by (right; right)].

Lemma generate_signal_run (df : Signal.Frame Signal.Level)
    (trades_df : Signal.Frame Signal.Trade)
    (volume_df : Signal.Frame Signal.Bucket) (ticker_data : Q) :
  Signal.has_column df "bid_qty" = true ->
  Signal.has_column df "ask_qty" = true ->
  (Signal.empty trades_df = false ->
   Signal.has_column trades_df "side" = true /\
   Signal.has_column trades_df "qty" = true /\
   Signal.has_column trades_df "price" = true /\
   Signal.has_column volume_df "volume" = true) ->
  exists signal,
    Signal.generate_signal df trades_df volume_df ticker_data = Ok signal /\
    (signal = "BUY" \/ signal = "SELL" \/ signal = "HOLD").
Proof.
  intros Hb Ha Htr. unfold Signal.generate_signal.
  destruct (Signal.empty df); cbn [orb]; [signal_found|].
  destruct (Signal.empty trades_df) eqn:He; [signal_found|].
  destruct (Htr eq_refl) as (Hs & Hq & Hp & Hv).
  destruct (order_book_pressure_run df Hb Ha) as [ob ->].
  destruct (trade_dominance_run trades_df Hs Hq) as [tr ->].
  rewrite (getitem_run _ _ _ Hv), (getitem_run _ _ _ Hp).
  destruct (calculate_vwap_run trades_df He Hp Hq) as [vwap ->].
  cbn [mbind outcome_bind].
  match goal with |- context [Signal.calculate_ema ?p 12] => set (prices := p) end.
  assert (Hlen : (0 < List.length prices)%nat).
  { unfold prices. rewrite length_drop, length_map.
    pose proof (empty_false_rows _ He). lia. }
  destruct (calculate_atr_run prices 14) as [atr ->].
  destruct (iloc_last_run (Signal.calculate_ema prices 12)) as [fast ->];
    [by rewrite calculate_ema_length|].
  destruct (iloc_last_run (Signal.calculate_ema prices 26)) as [slow ->];
    [by rewrite calculate_ema_length|].
  destruct (volume_trend_run volume_df) as [vol ->].
  destruct (iloc_last_run (Signal.calculate_rsi prices 14)) as [rsi ->];
    [by rewrite length_calculate_rsi|].
  cbn [mbind outcome_bind].
  unfold Signal.and_then, Signal.gt_vwap, Signal.lt_vwap.
  repeat (match goal with
          | |- context [if ?b then _ else _] => destruct b
          end; cbn [mbind outcome_bind]).
  all: signal_found.
Qed.
Lemma decision_inputs_run (s : DataStream.Store) :
  exists df,
    Main.decision_inputs s (DataStream.get_snapshot s) =
      Ok {| Main.in_df := df;
            Main.in_trades_df :=
              Main.DataFrame_records ["price"; "qty"; "is_buyer_maker"; "time"; "side"]
                                     (live_trades s);
            Main.in_volume_df :=
              Main.DataFrame_records ["time"; "volume"] (live_buckets s);
            Main.in_ticker := DataStream.ticker_pct s |} /\
    Signal.columns df = ["price"; "bid_qty"; "ask_price"; "ask_qty"].
Proof.
  set (n := Nat.min (List.length (DataStream.bids s)) (List.length (DataStream.asks s))).
  assert (Hb : List.length (take n (DataStream.bids s)) = n)
    by (rewrite length_take; lia).
  assert (Ha : List.length (take n (DataStream.asks s)) = n)
    by (rewrite length_take; lia).
  unfold Main.decision_inputs, Main.DataFrame_levels.
  cbn [DataStream.get_snapshot DataStream.snap_bids DataStream.snap_asks
       DataStream.snap_trades DataStream.snap_volume_history
       DataStream.snap_ticker_pct].
  fold n. rewrite !length_map, Hb, Ha, Nat.eqb_refl. cbn [andb mbind outcome_bind].
  eexists. split; reflexivity.
Qed.

Lemma records_columns {R} (keys : list string) (records : list R) name :
  records <> [] ->
  Signal.has_column (Main.DataFrame_records keys records) name =
  existsb (String.eqb name) keys.
Proof. intros Hr. by destruct records. Qed.

Lemma records_not_empty {R} (keys : list string) (records : list R) :
  Signal.empty (Main.DataFrame_records keys records) = false -> records <> [].
Proof. by destruct records. Qed.

Lemma decision_run (s : DataStream.Store) :
  fit_for_decision s ->
  exists signal,
    decision s = Ok signal /\
    (signal = "BUY" \/ signal = "SELL" \/ signal = "HOLD").
Proof.
  intros (_ & _ & Hfit). unfold decision.
  destruct (decision_inputs_run s) as (df & -> & Hcols).
  cbn [mbind outcome_bind Main.in_df Main.in_trades_df Main.in_volume_df
       Main.in_ticker].
  apply generate_signal_run.
  - unfold Signal.has_column. by rewrite Hcols.
  - unfold Signal.has_column. by rewrite Hcols.
  - intros He%records_not_empty.
    rewrite !records_columns by auto. by repeat split.
Qed.

Lemma fit_same_rings (s s' : DataStream.Store) :
  DataStream.trades s' = DataStream.trades s ->
  DataStream.trade_objs s' = DataStream.trade_objs s ->
  DataStream.volume_history s' = DataStream.volume_history s ->
  DataStream.bucket_objs s' = DataStream.bucket_objs s ->
  fit_for_decision s -> fit_for_decision s'.
Proof.
  unfold fit_for_decision, wf_trades, wf_buckets, live_trades, live_buckets.
  by intros -> -> -> ->.
Qed.

Lemma fit_set_ticker_pct v s :
  fit_for_decision s -> fit_for_decision (DataStream.set_ticker_pct v s).
Proof. by apply fit_same_rings. Qed.

Lemma wf_book_written bids asks u s :
  (wf_trades s -> wf_trades (DataStream.set_last_update_id u
                               (DataStream.set_asks asks (DataStream.set_bids bids s)))) /\
  (wf_buckets s -> wf_buckets (DataStream.set_last_update_id u
                                 (DataStream.set_asks asks (DataStream.set_bids bids s)))).
Proof. by split. Qed.

Lemma fit_book_written bids asks u s :
  fit_for_decision s ->
  fit_for_decision (DataStream.set_last_update_id u
                      (DataStream.set_asks asks (DataStream.set_bids bids s))).
Proof. by apply fit_same_rings. Qed.

Lemma append_trade_buckets s trade :
  wf_buckets s -> wf_buckets (append_trade s trade).
Proof. done. Qed.

Lemma append_trades_wf (trades : list DataStream.Trade) (s : DataStream.Store) :
  wf_trades s -> wf_buckets s ->
  wf_trades (fold_left append_trade trades s) /\
  wf_buckets (fold_left append_trade trades s).
Proof.
  revert s. induction trades as [|t rest IH]; intros s Ht Hb; [by split|].
  cbn [fold_left]. apply IH.
  - by apply append_trade_view.
  - by apply append_trade_buckets.
Qed.

Lemma update_volumes_fit now s :
  wf_trades s -> wf_buckets s ->
  fit_for_decision (DataStream._update_volumes_locked now s).
Proof.
  intros Ht Hb. destruct (update_volumes_wf_trades now s Ht) as [Ht' _].
  destruct (update_volumes_view now s Hb) as (Hb' & _ & Hlast & _).
  split; [exact Ht'|]. split; [exact Hb'|].
  intros _ E. by rewrite E in Hlast.
Qed.

Lemma feed_event_fit (f : FeedEvent) (s : DataStream.Store) :
  fit_for_decision s ->
  exists s', feed_event f s = Ok s' /\ fit_for_decision s'.
Proof.
  intros Hfit. destruct f as [now [d|err]|update|ev|P].
  - eexists. split; [reflexivity|]. cbn [fetch_initial_data fst].
    apply fit_set_ticker_pct.
    destruct Hfit as (Ht & Hb & _).
    match goal with |- fit_for_decision (_ _ (fold_left _ _ ?s0)) =>
      destruct (append_trades_wf (map rest_trade (rest_trades d)) s0) as [Ht' Hb']
    end; [by apply wf_book_written|by apply wf_book_written|].
    by apply update_volumes_fit.
  - eexists. split; [reflexivity|]. exact Hfit.
  - eexists. split; [apply process_depth_run|]. by apply fit_book_written.
  - eexists. split; [apply consume_event_append|].
    destruct Hfit as (Ht & Hb & _).
    apply update_volumes_fit; [by apply append_trade_view|].
    by apply append_trade_buckets.
  - eexists. split; [reflexivity|]. by apply fit_set_ticker_pct.
Qed.

Lemma feed_fit (events : list FeedEvent) (s : DataStream.Store) :
  fit_for_decision s ->
  exists s', feed events s = Ok s' /\ fit_for_decision s'.
Proof.
  revert s. induction events as [|f rest IH]; intros s Hfit; [by exists s|].
  destruct (feed_event_fit f s Hfit) as (s1 & Hrun & Hfit1).
  destruct (IH s1 Hfit1) as (s' & Hrest & Hfit').
  exists s'. split; [|exact Hfit']. cbn [feed]. by rewrite Hrun.
Qed.

Lemma state_init_fit : fit_for_decision DataStream.state_init.
Proof.
  split; [intros l Hl; by apply elem_of_nil in Hl|].
  split; [intros l Hl; by apply elem_of_nil in Hl|]. done.
Qed.

(** X15: the decision never raises.  Whatever the initial fetch and the
    four consumers have written, in any order and with any well-formed
    messages, from the empty state, the frames of a pass of [run_trading]
    are built and [generate_signal] returns BUY, SELL or HOLD: a trade in
    the ring always has its volume bucket, so the read of
    [volume_df["volume"]] finds its column. *)
Theorem decision_never_raises (events : list FeedEvent) :
  exists s signal,
    feed events DataStream.state_init = Ok s /\
    decision s = Ok signal /\
    (signal = "BUY" \/ signal = "SELL" \/ signal = "HOLD").
Proof.
  destruct (feed_fit events DataStream.state_init state_init_fit)
    as (s & Hrun & Hfit).
  destruct (decision_run s Hfit) as (signal & Hsig & Hcases).
  by exists s, signal.
Qed.

End DecisionTotal.

(** ** The initial fetch *)

Lemma append_trades_recent (n : nat) {A} (l ts : list A) :
  (1 <= n)%nat ->
  fold_left (DataStream.deque_append n) ts (drop (List.length l - n) l) =
  drop (List.length (l ++ ts) - n) (l ++ ts).
Proof.
  intros Hn. revert l. induction ts as [|t rest IH]; intros l.
  - by rewrite app_nil_r.
  - cbn [fold_left]. rewrite deque_append_recent by exact Hn.
    rewrite IH. by rewrite <- app_assoc.
Qed.

Lemma append_trades_view (trades : list DataStream.Trade) (s : DataStream.Store) :
  wf_trades s ->
  live_trades (fold_left append_trade trades s) =
  fold_left (DataStream.deque_append 100) trades (live_trades s).
Proof.
  revert s. induction trades as [|t rest IH]; intros s Hwf; [reflexivity|].
  cbn [fold_left]. destruct (append_trade_view s t Hwf) as [Hwf' Ht].
  by rewrite IH, Ht.
Qed.

Lemma append_trades_buckets (trades : list DataStream.Trade) (s : DataStream.Store) :
  live_buckets (fold_left append_trade trades s) = live_buckets s.
Proof.
  revert s. induction trades as [|t rest IH]; intros s; [reflexivity|].
  cbn [fold_left]. by rewrite IH.
Qed.

Lemma update_volumes_book now s :
  DataStream.bids (DataStream._update_volumes_locked now s) = DataStream.bids s /\
  DataStream.asks (DataStream._update_volumes_locked now s) = DataStream.asks s /\
  DataStream.last_update_id (DataStream._update_volumes_locked now s) =
    DataStream.last_update_id s /\
  DataStream.ticker_pct (DataStream._update_volumes_locked now s) =
    DataStream.ticker_pct s.
Proof.
  unfold DataStream._update_volumes_locked.
  destruct (last (DataStream.volume_history s)) as [l|]; [|done].
  destruct (DataStream.bucket_objs s !! l) as [b|]; [|done].
  by destruct (DataStream.b_time b =? _)%Z.
Qed.

Lemma append_trades_book (trades : list DataStream.Trade) (s : DataStream.Store) :
  DataStream.bids (fold_left append_trade trades s) = DataStream.bids s /\
  DataStream.asks (fold_left append_trade trades s) = DataStream.asks s /\
  DataStream.last_update_id (fold_left append_trade trades s) =
    DataStream.last_update_id s /\
  DataStream.ticker_pct (fold_left append_trade trades s) = DataStream.ticker_pct s.
Proof.
  revert s. induction trades as [|t rest IH]; intros s; [done|].
  cbn [fold_left]. destruct (IH (append_trade s t)) as (-> & -> & -> & ->). done.
Qed.

Lemma book_after_empty writes k : book_after [] writes k = last_write writes k.
Proof. unfold book_after. by destruct (last_write writes k). Qed.

(** X16: what [fetch_initial_data] seeds the state with.  When a REST call
    raises, the state is left as it is and the error is logged.  Otherwise,
    from the empty state: each side of the book holds for each price the
    quantity of its last REST entry; the ring holds the last 100 REST
    trades; the volume history holds one bucket only, that of the clock
    minute of the call, which counts the REST trades stamped in that minute
    or later: the earlier trades are in no bucket. *)
Theorem fetch_initial_data_seeds_state (now : Q) (rest : outcome RestData) :
  match rest with
  | Raise err =>
      forall s, fetch_initial_data now rest s =
                (s, [LogError "Failed to fetch initial data: %s" err])
  | Ok d =>
      let s := (fetch_initial_data now rest DataStream.state_init).1 in
      (forall k, dict_get (DataStream.bids s) k = last_write (rest_bids d) k) /\
      (forall k, dict_get (DataStream.asks s) k = last_write (rest_asks d) k) /\
      DataStream.last_update_id s = rest_lastUpdateId d /\
      DataStream.ticker_pct s = default 0 (rest_priceChangePercent d) /\
      live_trades s =
        drop (List.length (rest_trades d) - 100) (map rest_trade (rest_trades d)) /\
      live_buckets s =
        [{| DataStream.b_time := clock_minute now;
            DataStream.b_volume := volume_since (clock_minute now) s |}]
  end.
Proof.
  destruct rest as [d|err]; [|reflexivity].
  cbn [fetch_initial_data fst]. cbn zeta.
  set (s0 := DataStream.set_last_update_id _ _).
  set (s1 := fold_left append_trade (map rest_trade (rest_trades d)) s0).
  set (s2 := DataStream._update_volumes_locked now s1).
  assert (Hwt0 : wf_trades s0) by (intros l Hl; by apply elem_of_nil in Hl).
  assert (Hwb0 : wf_buckets s0) by (intros l Hl; by apply elem_of_nil in Hl).
  destruct (append_trades_wf (map rest_trade (rest_trades d)) s0 Hwt0 Hwb0)
    as [Hwt1 Hwb1]. fold s1 in Hwt1, Hwb1.
  destruct (update_volumes_wf_trades now s1 Hwt1) as [_ Ht2].
  destruct (update_volumes_view now s1 Hwb1) as (_ & _ & Hlast & Htimes).
  destruct (update_volumes_book now s1) as (Eb2 & Ea2 & Eu2 & _).
  destruct (append_trades_book (map rest_trade (rest_trades d)) s0)
    as (Eb1 & Ea1 & Eu1 & _).
  fold s1 in Eb1, Ea1, Eu1. fold s2 in Ht2, Hlast, Htimes, Eb2, Ea2, Eu2.
  assert (Ebk : live_buckets s1 = []).
  { unfold s1. by rewrite append_trades_buckets. }
  assert (Et1 : live_trades s1 =
                drop (List.length (rest_trades d) - 100)
                     (map rest_trade (rest_trades d))).
  { unfold s1. rewrite append_trades_view by exact Hwt0.
    change (live_trades s0) with
      (drop (List.length (@nil DataStream.Trade) - 100) (@nil DataStream.Trade)).
    rewrite (append_trades_recent 100) by lia.
    cbn [app]. by rewrite length_map. }
  split; [|split; [|split; [|split; [|split]]]].
  - intros k. change (DataStream.bids (DataStream.set_ticker_pct _ s2))
      with (DataStream.bids s2).
    rewrite Eb2, Eb1. unfold s0. cbn.
    by rewrite dict_get_writes, book_after_empty.
  - intros k. change (DataStream.asks (DataStream.set_ticker_pct _ s2))
      with (DataStream.asks s2).
    rewrite Ea2, Ea1. unfold s0. cbn.
    by rewrite dict_get_writes, book_after_empty.
  - change (DataStream.last_update_id (DataStream.set_ticker_pct _ s2))
      with (DataStream.last_update_id s2).
    by rewrite Eu2, Eu1.
  - reflexivity.
  - change (live_trades (DataStream.set_ticker_pct _ s2)) with (live_trades s2).
    by rewrite Ht2.
  - change (live_buckets (DataStream.set_ticker_pct _ s2)) with (live_buckets s2).
    change (volume_since (clock_minute now) (DataStream.set_ticker_pct _ s2))
      with (volume_since (clock_minute now) s2).
    rewrite Ebk in Htimes. cbn in Htimes.
    assert (volume_since (clock_minute now) s2 = volume_since (clock_minute now) s1)
      as -> by (unfold volume_since; by rewrite Ht2).
    destruct (live_buckets s2) as [|b [|b' l]]; [done| |done].
    cbn in Hlast. by inversion Hlast.
Qed.
(** ** What a BUY or a SELL needs *)

Section SignalNeeds.
Context `{FloatResidue}.

Lemma omap_length_le {A B} (f : A -> option B) (l : list A) :
  (List.length (omap f l) <= List.length l)%nat.
Proof.
  induction l as [|x l IH]; [done|].
  cbn [omap list_omap]. destruct (f x); cbn [List.length]; lia.
Qed.

Lemma window_apply_head_nan agg window rest :
  (List.length (NaN :: rest) <= window)%nat ->
  Signal.window_apply agg window (NaN :: rest) = NaN.
Proof.
  intros Hlen. unfold Signal.window_apply.
  replace (List.length (NaN :: rest) - window)%nat with 0%nat by lia.
  rewrite drop_0. cbn [omap list_omap Signal.finite].
  pose proof (omap_length_le Signal.finite rest) as Hle.
  cbn [List.length] in Hlen.
  destruct (Nat.eqb_spec (List.length (omap Signal.finite rest)) window) as [E|E];
    [lia|reflexivity].
Qed.

Lemma rolling_head_nan agg window rest :
  (List.length (NaN :: rest) <= window)%nat ->
  Forall (fun v => v = NaN) (Signal.rolling agg window (NaN :: rest)).
Proof.
  intros Hlen. unfold Signal.rolling. apply Forall_map, Forall_forall.
  intros i Hi. cbn [take]. apply window_apply_head_nan.
  cbn [List.length] in *. rewrite length_take. lia.
Qed.

Lemma calculate_rsi_warm_up prices :
  (List.length prices <= 14)%nat ->
  Forall (fun v => v = NaN) (Signal.calculate_rsi prices 14).
Proof.
  intros Hlen. unfold Signal.calculate_rsi, Signal.rolling_mean.
  destruct prices as [|p rest]; [by constructor|].
  assert (Hd : exists tail, Signal.diff (p :: rest) = NaN :: tail /\
                            List.length tail = List.length rest).
  { eexists. split; [reflexivity|]. rewrite length_zip_with.
    cbn [List.length]. lia. }
  destruct Hd as (tail & -> & Htail). cbn [map Signal.clip_lower0].
  apply Forall_map.
  match goal with |- Forall _ (zip_with _ ?a ?b) =>
    assert (Ha : Forall (fun v => v = NaN) a)
  end.
  { apply rolling_head_nan. cbn [List.length] in *. rewrite length_map. lia. }
  revert Ha. generalize (Signal.rolling
    (λ v : list Q, DataStream.py_sum v / inject_Z (Z.of_nat 14)) 14
    (NaN :: map Signal.clip_lower0 tail)).
  match goal with |- forall l, _ -> Forall _ (zip_with _ l ?b) => generalize b end.
  intros b a Ha. revert b. induction Ha as [|x a -> Ha IH]; intros [|y b];
    cbn [zip_with]; constructor; auto.
Qed.
Lemma iloc_last_all_nan (series : list xnum) (r : xnum) :
  Forall (fun v => v = NaN) series -> Signal.iloc_last series = Ok r -> r = NaN.
Proof.
  intros Hall. unfold Signal.iloc_last.
  destruct (last series) as [x|] eqn:E; [|discriminate].
  intros [= <-]. apply last_Some in E as [l ->].
  apply Forall_app in Hall as [_ Hx]. by inversion Hx.
Qed.

Lemma order_book_pressure_no_asks (df : Signal.Frame Signal.Level) (ob : xnum) :
  Signal.order_book_pressure df = Ok ob ->
  DataStream.py_sum (map Signal.lv_ask_qty (Signal.rows df)) == 0 ->
  ob = Fin 1.
Proof.
  unfold Signal.order_book_pressure, Signal.getitem.
  destruct (Signal.has_column df "bid_qty"); [|discriminate].
  destruct (Signal.has_column df "ask_qty"); [|discriminate].
  cbn [mbind outcome_bind]. intros Hrun Hz. apply Qeq_eq_bool in Hz.
  rewrite Hz in Hrun. by inversion Hrun.
Qed.

Lemma trade_dominance_no_sells (trades_df : Signal.Frame Signal.Trade) (tr : xnum) :
  Signal.trade_dominance trades_df = Ok tr ->
  DataStream.py_sum
    (map DataStream.t_qty
         (filter (fun t => String.eqb (DataStream.t_side t) "SELL")
                 (Signal.rows trades_df))) == 0 ->
  tr = Fin 1.
Proof.
  unfold Signal.trade_dominance.
  destruct (Signal.empty trades_df); [by intros [= <-]|].
  destruct (Signal.has_column trades_df "side") eqn:Hs;
    [|unfold Signal.side_qty_sum, Signal.getitem; by rewrite Hs].
  destruct (Signal.has_column trades_df "qty") eqn:Hq.
  - rewrite !(side_qty_sum_run _ _ Hs Hq). cbn [mbind outcome_bind].
    intros Hrun Hz. destruct (Qeq_bool _ 0) eqn:E; [by inversion Hrun|].
    apply Qeq_bool_neq in E. by destruct E.
  - unfold Signal.side_qty_sum, Signal.getitem. rewrite Hs.
    cbn [mbind outcome_bind].
    assert (forall rows' : list Signal.Trade,
              Signal.has_column {| Signal.columns := Signal.columns trades_df;
                                   Signal.rows := rows' |} "qty" = false) as E
      by (intros; exact Hq).
    assert (forall rows' : list DataStream.Trade,
              @Signal.has_column DataStream.Trade
                {| Signal.columns := Signal.columns trades_df;
                   Signal.rows := rows' |} "qty" = false) as E'
      by (intros; exact Hq).
    rewrite ?E, ?E'. cbn [mbind outcome_bind]. discriminate.
Qed.

Lemma volume_trend_flat (volume_df : Signal.Frame Signal.Bucket)
    (vol : Signal.RootRatio) :
  Signal.volume_trend volume_df = Ok vol ->
  Signal.variance (map DataStream.b_volume (Signal.rows volume_df)) == 0 ->
  (List.length (Signal.rows volume_df) <= 2)%nat ->
  vol = {| Signal.rr_num := 0; Signal.rr_sq := 1 |}.
Proof.
  unfold Signal.volume_trend.
  destruct (_ || _); [by intros [= <-]|].
  unfold Signal.getitem.
  destruct (Signal.has_column volume_df "volume"); [|discriminate].
  cbn [mbind outcome_bind]. intros Hrun Hz Hn.
  destruct (Qeq_bool _ 0) eqn:E.
  - rewrite length_map in Hrun. apply Nat.leb_le in Hn. rewrite Hn in Hrun.
    by inversion Hrun.
  - apply Qeq_bool_neq in E. by destruct E.
Qed.

Lemma variance_of_one (series : list Q) :
  (List.length series <= 1)%nat -> Signal.variance series == 0.
Proof.
  destruct series as [|x [|y rest]]; cbn [List.length]; intros Hn; [| |lia].
  - reflexivity.
  - unfold Signal.variance, Signal.mean, DataStream.py_sum.
    cbn [map fold_left List.length Z.of_nat Pos.of_succ_nat].
    change (inject_Z 1) with 1. field.
Qed.

(** X17: what a BUY or a SELL needs.  [generate_signal] returns HOLD
    unless the trades frame has at least 15 rows (with 14 prices or fewer
    the RSI is not a number, and no comparison with it holds), the asks of
    the frame of levels do not sum to zero, the SELL trades do not sum to
    zero, and there are at least two volume buckets, which are three or
    more or differ (of one bucket, and of two equal ones, the standard
    deviation is zero and the volume score 0): the neutral values the
    metrics fall back on are outside the bounds of both decisions. *)
Theorem signal_needs_history (df : Signal.Frame Signal.Level)
    (trades_df : Signal.Frame Signal.Trade)
    (volume_df : Signal.Frame Signal.Bucket) (ticker_data : Q) (signal : string) :
  Signal.generate_signal df trades_df volume_df ticker_data = Ok signal ->
  signal <> "HOLD" ->
  (15 <= List.length (Signal.rows trades_df))%nat /\
  ~ DataStream.py_sum (map Signal.lv_ask_qty (Signal.rows df)) == 0 /\
  ~ DataStream.py_sum
      (map DataStream.t_qty
           (filter (fun t => String.eqb (DataStream.t_side t) "SELL")
                   (Signal.rows trades_df))) == 0 /\
  (2 <= List.length (Signal.rows volume_df))%nat /\
  ((3 <= List.length (Signal.rows volume_df))%nat \/
   ~ Signal.variance (map DataStream.b_volume (Signal.rows volume_df)) == 0).
Proof.
  intros Hrun Hsig. unfold Signal.generate_signal in Hrun.
  destruct (_ || _); [by inversion Hrun|].
  destruct (Signal.order_book_pressure df) as [ob|] eqn:Eob; [|discriminate].
  destruct (Signal.trade_dominance trades_df) as [tr|] eqn:Etr; [|discriminate].
  cbn [mbind outcome_bind] in Hrun.
  destruct (Signal.getitem volume_df "volume" DataStream.b_volume) as [volumes|];
    [|discriminate].
  cbn [mbind outcome_bind] in Hrun.
  unfold Signal.getitem at 1 in Hrun.
  destruct (Signal.has_column trades_df "price"); [|discriminate].
  cbn [mbind outcome_bind] in Hrun.
  destruct (Signal.calculate_vwap trades_df) as [vwap|]; [|discriminate].
  cbn [mbind outcome_bind] in Hrun.
  destruct (Signal.calculate_atr _ 14) as [atr|]; [|discriminate].
  cbn [mbind outcome_bind] in Hrun.
  destruct (Signal.iloc_last (Signal.calculate_ema _ 12)) as [fast|]; [|discriminate].
  cbn [mbind outcome_bind] in Hrun.
  destruct (Signal.iloc_last (Signal.calculate_ema _ 26)) as [slow|]; [|discriminate].
  cbn [mbind outcome_bind] in Hrun.
  destruct (Signal.volume_trend volume_df) as [vol|] eqn:Evol; [|discriminate].
  cbn [mbind outcome_bind] in Hrun.
  destruct (Signal.iloc_last (Signal.calculate_rsi _ 14)) as [rsi|] eqn:Ersi;
    [|discriminate].
  cbn [mbind outcome_bind] in Hrun.
  assert (Hgates :
    (Signal.xgtb ob (Fin (13 # 10)) = true /\ Signal.xgtb tr (Fin (12 # 10)) = true /\
     Signal.root_gtb vol (1 # 2) = true /\ Signal.xltb rsi (Fin 70) = true) \/
    (Signal.xltb ob (Fin (7 # 10)) = true /\ Signal.xltb tr (Fin (8 # 10)) = true /\
     Signal.root_ltb vol (- (1 # 2)) = true /\ Signal.xgtb rsi (Fin 30) = true)).
  { unfold Signal.and_then in Hrun.
    match type of Hrun with context [if ?b then Signal.gt_vwap _ _ else _] =>
      destruct b eqn:Ebuy end.
    - left. repeat (apply andb_true_iff in Ebuy as [Ebuy ?]). by repeat split.
    - cbn [mbind outcome_bind] in Hrun.
      match type of Hrun with context [if ?b then Signal.lt_vwap _ _ else _] =>
        destruct b eqn:Esell end.
      + right. repeat (apply andb_true_iff in Esell as [Esell ?]). by repeat split.
      + cbn [mbind outcome_bind] in Hrun. by inversion Hrun. }
  assert (Hvol : Signal.variance
                   (map DataStream.b_volume (Signal.rows volume_df)) == 0 ->
                 (List.length (Signal.rows volume_df) <= 2)%nat -> False).
  { intros Hz Hn. rewrite (volume_trend_flat volume_df vol Evol Hz Hn) in Hgates.
    destruct Hgates as [(_ & _ & E & _)|(_ & _ & E & _)]; discriminate. }
  clear Hrun. split; [|split; [|split; [|split]]].
  - destruct (Nat.le_gt_cases 15 (List.length (Signal.rows trades_df)))
      as [Hle|Hlt]; [exact Hle|exfalso].
    assert (rsi = NaN) as ->.
    { eapply iloc_last_all_nan; [|exact Ersi]. apply calculate_rsi_warm_up.
      rewrite length_drop, length_map. lia. }
    destruct Hgates as [(_ & _ & _ & E)|(_ & _ & _ & E)]; discriminate.
  - intros Hz. rewrite (order_book_pressure_no_asks df ob Eob Hz) in Hgates.
    destruct Hgates as [(E & _)|(E & _)]; discriminate.
  - intros Hz. rewrite (trade_dominance_no_sells trades_df tr Etr Hz) in Hgates.
    destruct Hgates as [(_ & E & _)|(_ & E & _)]; discriminate.
  - destruct (Nat.le_gt_cases 2 (List.length (Signal.rows volume_df)))
      as [Hle|Hlt]; [exact Hle|exfalso].
    unfold Signal.Bucket in *.
    apply Hvol; [|lia]. apply variance_of_one. rewrite length_map. lia.
  - destruct (Nat.le_gt_cases 3 (List.length (Signal.rows volume_df)))
      as [Hle|Hlt]; [by left|right].
    unfold Signal.Bucket in *. intros Hz. apply (Hvol Hz). lia.
Qed.

End SignalNeeds.

Lemma signal_needs_history_witness :
  (15 <= List.length (Signal.rows (Main.in_trades_df rising_inputs)))%nat /\
  ~ DataStream.py_sum
      (map Signal.lv_ask_qty (Signal.rows (Main.in_df rising_inputs))) == 0 /\
  ~ DataStream.py_sum
      (map DataStream.t_qty
           (filter (fun t => String.eqb (DataStream.t_side t) "SELL")
                   (Signal.rows (Main.in_trades_df rising_inputs)))) == 0 /\
  (2 <= List.length (Signal.rows (Main.in_volume_df rising_inputs)))%nat /\
  ((3 <= List.length (Signal.rows (Main.in_volume_df rising_inputs)))%nat \/
   ~ Signal.variance
       (map DataStream.b_volume
            (Signal.rows (Main.in_volume_df rising_inputs))) == 0).
Proof.
  apply (signal_needs_history (Main.in_df rising_inputs)
           (Main.in_trades_df rising_inputs) (Main.in_volume_df rising_inputs)
           (Main.in_ticker rising_inputs) "BUY").
  - by vm_compute.
  - discriminate.
Defined.

(** Six buckets of volume 1.1: the volume score is 0 where the deviation
    computed is zero, and 1 where the summation leaves a residue above
    zero. *)
Example volume_trend_equal_volumes :
  @Signal.volume_trend no_residue equal_volumes_frame =
    Ok {| Signal.rr_num := 0; Signal.rr_sq := 1 |} /\
  @Signal.volume_trend residue_up equal_volumes_frame =
    Ok {| Signal.rr_num := 1; Signal.rr_sq := 1 |} /\
  Signal.root_gtb {| Signal.rr_num := 1; Signal.rr_sq := 1 |} (1 # 2) = true.
Proof. repeat split; reflexivity. Qed.

(** ** The order quantity *)

Section OrderQuantity.
Context `{FloatResidue}.

Lemma py_round_3_near (q : Q) :
  Qabs (py_round q 3 - q) <= 1 # 2000 /\
  exists n, py_round q 3 == n # 1000.
Proof.
  unfold py_round. change (inject_Z (10 ^ Z.of_nat 3)) with 1000.
  pose proof (Qfloor_le (q * 1000)) as Hlo.
  pose proof (Qlt_floor (q * 1000)) as Hhi.
  rewrite inject_Z_plus in Hhi. change (inject_Z 1) with 1 in Hhi.
  set (f := Qfloor (q * 1000)) in *.
  assert (Hn : exists z : Z,
            (z = f \/ z = (f + 1)%Z) /\
            inject_Z z - q * 1000 <= 1 # 2 /\ q * 1000 - inject_Z z <= 1 # 2 /\
            (if Qltb (q * 1000 - inject_Z f) (1 # 2) then f
             else if Qltb (1 # 2) (q * 1000 - inject_Z f) then (f + 1)%Z
                  else if rounds_up q then (f + 1)%Z else f) = z).
  { destruct (Qltb (q * 1000 - inject_Z f) (1 # 2)) eqn:E1.
    - apply Qltb_lt in E1. exists f. repeat split; [by left|lra|lra].
    - apply Qltb_ge in E1.
      destruct (Qltb (1 # 2) (q * 1000 - inject_Z f)) eqn:E2.
      + apply Qltb_lt in E2. exists (f + 1)%Z.
        rewrite inject_Z_plus. change (inject_Z 1) with 1.
        repeat split; [by right|lra|lra].
      + apply Qltb_ge in E2. destruct (rounds_up q).
        * exists (f + 1)%Z. rewrite inject_Z_plus. change (inject_Z 1) with 1.
          repeat split; [by right|lra|lra].
        * exists f. repeat split; [by left|lra|lra]. }
  destruct Hn as (z & _ & H1 & H2 & ->).
  split.
  - apply Qabs_Qle_condition. clearbody f.
    revert H1 H2. generalize (inject_Z z). intros x H1 H2.
    unfold Qdiv. change (/ 1000) with (1 # 1000). split; lra.
  - exists z. unfold Qdiv, Qmult, Qinv, inject_Z, Qeq. simpl. lia.
Qed.

(** X18: the quantity [calc_qty] returns.  With a price of zero the
    division raises ZeroDivisionError.  Otherwise, to whichever side [round]
    goes at a midpoint, the quantity is a whole number of thousandths and
    lies within half a thousandth of
    balance * RISK_PER_TRADE * LEVERAGE / price. *)
Theorem calc_qty_rounds_to_thousandths (balance price : Q) :
  if Qeq_bool price 0 then Main.calc_qty balance price = Raise ZeroDivisionError
  else
    exists qty n,
      Main.calc_qty balance price = Ok qty /\
      qty == n # 1000 /\
      Qabs (qty - balance * Main.RISK_PER_TRADE * Main.LEVERAGE / price) <= 1 # 2000.
Proof.
  unfold Main.calc_qty, py_div.
  destruct (Qeq_bool price 0); [reflexivity|]. cbn [mbind outcome_bind].
  destruct (py_round_3_near (balance * Main.RISK_PER_TRADE * Main.LEVERAGE / price))
    as [Hnear [n Hn]].
  eexists. exists n. split; [reflexivity|]. split; [exact Hn|exact Hnear].
Qed.

End OrderQuantity.

(** [calc_qty(0.0625, 90.0)] is the midpoint 0.0125: 0.012 rounded down,
    0.013 rounded up. *)
Example calc_qty_at_midpoint :
  (exists qty, @Main.calc_qty no_residue (625 # 10000) 90 = Ok qty /\
               qty == 12 # 1000) /\
  (exists qty, @Main.calc_qty residue_up (625 # 10000) 90 = Ok qty /\
               qty == 13 # 1000).
Proof. split; eexists; split; reflexivity. Qed.

(** ** The indicators *)

Lemma ewm_mean_from_within (alpha lo hi prev : Q) (series : list Q) :
  0 <= alpha <= 1 -> lo <= prev <= hi ->
  Forall (fun x => lo <= x <= hi) series ->
  Forall (fun y => lo <= y <= hi) (Signal.ewm_mean_from alpha prev series).
Proof.
  intros Ha Hprev Hall. revert prev Hprev.
  induction Hall as [|x rest Hx Hrest IH]; intros prev Hprev;
    cbn [Signal.ewm_mean_from]; constructor.
  - split; nra.
  - apply IH. split; nra.
Qed.

Lemma ema_alpha_range (span : Z) :
  (1 <= span)%Z -> 0 <= 2 / (inject_Z span + 1) <= 1.
Proof.
  intros Hspan.
  assert (H1 : 1 <= inject_Z span).
  { change 1 with (inject_Z 1). by rewrite <- Zle_Qle. }
  split.
  - apply Qle_shift_div_l; lra.
  - apply Qle_shift_div_r; lra.
Qed.

(** X19: the EMA stays within the range of its input.  For a span of at
    least 1, [calculate_ema] returns a series as long as its input whose
    values all lie between any two bounds that hold the input values. *)
Theorem calculate_ema_within_range (series : list Q) (span : Z) (lo hi : Q) :
  (1 <= span)%Z ->
  Forall (fun x => lo <= x <= hi) series ->
  List.length (Signal.calculate_ema series span) = List.length series /\
  Forall (fun y => lo <= y <= hi) (Signal.calculate_ema series span).
Proof.
  intros Hspan Hall. split; [apply calculate_ema_length|].
  destruct Hall as [|x rest Hx Hrest]; cbn [Signal.calculate_ema]; constructor.
  - exact Hx.
  - apply ewm_mean_from_within; [by apply ema_alpha_range|exact Hx|exact Hrest].
Qed.

Lemma calculate_ema_within_range_witness :
  List.length (Signal.calculate_ema [100; 104; 101] 12) = List.length [100; 104; 101] /\
  Forall (fun y => 100 <= y <= 104) (Signal.calculate_ema [100; 104; 101] 12).
Proof.
  apply (calculate_ema_within_range [100; 104; 101] 12 100 104).
  - lia.
  - repeat constructor; by vm_compute.
Defined.
Lemma fold_plus_nonneg (l : list Q) (acc : Q) :
  0 <= acc -> Forall (fun x => 0 <= x) l -> 0 <= fold_left Qplus l acc.
Proof.
  intros Hacc Hall. revert acc Hacc.
  induction Hall as [|x l Hx Hl IH]; intros acc Hacc; [exact Hacc|].
  cbn [fold_left]. apply IH. lra.
Qed.

Lemma omap_finite_nonneg (w : list xnum) :
  Forall gain_value w -> Forall (fun x => 0 <= x) (omap Signal.finite w).
Proof.
  induction 1 as [|v w Hv Hw IH]; [constructor|].
  cbn [omap list_omap]. destruct v; cbn [Signal.finite]; try exact IH.
  by constructor.
Qed.

Lemma Qdiv_nonneg (a b : Q) : 0 <= a -> 0 <= b -> 0 <= a / b.
Proof.
  intros Ha Hb. unfold Qdiv. apply Qmult_le_0_compat; [exact Ha|].
  by apply Qinv_le_0_compat.
Qed.

Lemma rolling_mean_values (window : nat) (series : list xnum) :
  Forall gain_value series ->
  Forall mean_value (Signal.rolling_mean window series).
Proof.
  intros Hall. unfold Signal.rolling_mean, Signal.rolling.
  apply Forall_map, Forall_forall. intros i _. unfold Signal.window_apply.
  destruct (_ && _); [|exact I]. cbn [mean_value].
  apply Qdiv_nonneg.
  - apply fold_plus_nonneg; [lra|]. apply omap_finite_nonneg.
    eapply Forall_forall. intros v Hv.
    eapply Forall_forall; [exact Hall|].
    eapply subseteq_take, subseteq_drop, Hv.
  - change 0 with (inject_Z 0). rewrite <- Zle_Qle. lia.
Qed.

Lemma gains_values (delta : list xnum) :
  Forall gain_value (map Signal.clip_lower0 delta).
Proof.
  apply Forall_map, Forall_forall. intros [x| | |] _; cbn; try done.
  destruct (Qltb x 0) eqn:E; cbn; [lra|]. by apply Qltb_ge in E.
Qed.

Lemma losses_values (delta : list xnum) :
  Forall gain_value (map (fun d => Signal.xneg (Signal.clip_upper0 d)) delta).
Proof.
  apply Forall_map, Forall_forall. intros [x| | |] _; cbn; try done.
  destruct (Qltb 0 x) eqn:E; cbn; [lra|]. apply Qltb_ge in E. lra.
Qed.

Lemma rsi_of_means (g l : xnum) :
  mean_value g -> mean_value l ->
  rsi_value (Signal.xsub (Fin 100)
               (Signal.xdiv (Fin 100) (Signal.xadd (Fin 1) (Signal.xdiv g l)))).
Proof.
  destruct g as [a| | |], l as [b| | |]; cbn [mean_value]; try done.
  intros Ha Hb. cbn [Signal.xdiv].
  destruct (Qeq_bool b 0) eqn:Eb.
  - destruct (Qeq_bool a 0) eqn:Ea; [exact I|].
    destruct (Qltb 0 a) eqn:Epos.
    + cbn. lra.
    + apply Qltb_ge in Epos. apply Qeq_bool_neq in Ea. destruct Ea. lra.
  - cbn [Signal.xadd Signal.xdiv].
    apply Qeq_bool_neq in Eb.
    assert (Hq : 0 <= a / b) by (by apply Qdiv_nonneg).
    destruct (Qeq_bool (1 + a / b) 0) eqn:E1;
      [apply Qeq_bool_eq in E1; lra|].
    cbn [Signal.xsub Signal.xneg Signal.xadd rsi_value].
    assert (0 < 100 / (1 + a / b) <= 100).
    { split.
      - apply Qlt_shift_div_l; lra.
      - apply Qle_shift_div_r; lra. }
    lra.
Qed.

Lemma rolling_head_nan_take agg window rest :
  Forall (fun v => v = NaN) (take window (Signal.rolling agg window (NaN :: rest))).
Proof.
  unfold Signal.rolling. rewrite firstn_map, take_seq.
  apply Forall_map, Forall_forall. intros i Hi%elem_of_seq.
  cbn [take]. apply window_apply_head_nan.
  cbn [List.length]. rewrite length_take. lia.
Qed.

Lemma rsi_of_nan (gains losses : list xnum) :
  Forall (fun v => v = NaN) gains ->
  Forall (fun v => v = NaN)
    (map (fun r => Signal.xsub (Fin 100)
                     (Signal.xdiv (Fin 100) (Signal.xadd (Fin 1) r)))
         (zip_with Signal.xdiv gains losses)).
Proof.
  intros Hg. apply Forall_map. revert losses.
  induction Hg as [|x a -> Ha IH]; intros [|y b]; cbn [zip_with]; constructor; auto.
Qed.

(** X20: the RSI is a percentage, and needs 15 prices.  Every value of the
    series [calculate_rsi] returns is either not a number or a number from
    0 to 100, whatever the prices and the period; the series is as long as
    the prices; and with the period 14 its first 14 values are not numbers:
    the first difference of the prices is missing, so the first window of
    14 gains is complete at the fifteenth price. *)
Theorem calculate_rsi_is_percentage (prices : list Q) (period : nat) :
  List.length (Signal.calculate_rsi prices period) = List.length prices /\
  Forall rsi_value (Signal.calculate_rsi prices period) /\
  Forall (fun v => v = NaN) (take 14 (Signal.calculate_rsi prices 14)).
Proof.
  split; [apply length_calculate_rsi|]. split.
  - unfold Signal.calculate_rsi. apply Forall_map.
    pose proof (rolling_mean_values period _ (gains_values (Signal.diff prices)))
      as Hg.
    pose proof (rolling_mean_values period _ (losses_values (Signal.diff prices)))
      as Hl.
    revert Hg Hl.
    generalize (Signal.rolling_mean period
                  (map Signal.clip_lower0 (Signal.diff prices))).
    generalize (Signal.rolling_mean period
                  (map (fun d => Signal.xneg (Signal.clip_upper0 d))
                       (Signal.diff prices))).
    intros losses gains Hg. revert losses.
    induction Hg as [|g gains Hg Hgains IH]; intros losses Hl; [constructor|].
    destruct Hl as [|l losses Hl Hlosses]; cbn [zip_with]; constructor.
    + by apply rsi_of_means.
    + by apply IH.
  - unfold Signal.calculate_rsi, Signal.rolling_mean.
    rewrite firstn_map, zip_with_take. apply rsi_of_nan.
    destruct prices as [|p rest]; [constructor|].
    cbn [Signal.diff map Signal.clip_lower0]. apply rolling_head_nan_take.
Qed.
(** ** The two records together *)

Lemma user_handler_no_id (command_queue : list Command) (msg : DataStream.Msg)
    (p : Position) (q : list Command) :
  DataStream.user_handler position_init command_queue msg = Ok (p, q) ->
  p = position_init /\ q = command_queue.
Proof.
  unfold DataStream.user_handler.
  destruct (String.eqb _ _); [|by intros [= <- <-]].
  destruct (DataStream.msg_order msg) as [order|]; [|discriminate].
  cbn [mbind outcome_bind].
  destruct (String.eqb _ _); by intros [= <- <-].
Qed.

Section BotProofs.
Context {X : Type} `{Main.Exchange X} `{FloatResidue}.

Lemma keeps_quiet_bind {A B} (c : Main.M X A) (f : A -> Main.M X B) :
  keeps_quiet c -> (forall a, keeps_quiet (f a)) -> keeps_quiet (c ≫= f).
Proof.
  intros Hc Hf w r w' Hrun Hinv. unfold mbind, Main.M_bind in Hrun.
  destruct (c w) as [[a|err] w1] eqn:E.
  - eapply Hf; eauto.
  - inversion Hrun; subst. eauto.
Qed.

Lemma keeps_quiet_ret {A} (a : A) : keeps_quiet (mret a : Main.M X A).
Proof. intros w r w' Hrun. by inversion Hrun. Qed.

Lemma keeps_quiet_lift {A} (o : outcome A) : keeps_quiet (Main.lift o : Main.M X A).
Proof. intros w r w' Hrun. by inversion Hrun. Qed.

Lemma keeps_quiet_get_position : keeps_quiet (X:=X) Main.get_position.
Proof. intros w r w' Hrun. by inversion Hrun. Qed.

Lemma keeps_quiet_try_except {A} (body : Main.M X A) (handler : exn -> Main.M X A) :
  keeps_quiet body -> (forall err, keeps_quiet (handler err)) ->
  keeps_quiet (Main.try_except body handler).
Proof.
  intros Hb Hh w r w' Hrun. unfold Main.try_except in Hrun.
  destruct (body w) as [[a|err] w1] eqn:E.
  - inversion Hrun; subst. eauto.
  - intros Hq. eapply Hh; eauto.
Qed.

Lemma keeps_quiet_request {A} (c : Main.Call) (f : X -> outcome A * X) :
  market_orders_only [c] -> keeps_quiet (Main.request c f).
Proof.
  intros Hc w r w' Hrun (Hp & Hq & Hcalls). unfold Main.request in Hrun.
  destruct (f (Main.exchange w)). inversion Hrun; subst. cbn.
  split; [exact Hp|]. split; [exact Hq|].
  unfold market_orders_only in *. apply Forall_app. by split.
Qed.

Lemma keeps_quiet_update_position (f : Position -> Position) :
  (forall p, untracked p -> untracked (f p)) ->
  keeps_quiet (X:=X) (Main.update_position f).
Proof.
  intros Hf w r w' Hrun (Hp & Hq & Hcalls). inversion Hrun; subst. cbn.
  split; [by apply Hf|]. by split.
Qed.

Lemma keeps_quiet_when_flat {A} (c : Main.M X A) (a : A) :
  (forall w, state (Main.position w) = none -> c w = (Ok a, w)) ->
  keeps_quiet c.
Proof.
  intros Hc w r w' Hrun Hquiet. pose proof Hquiet as (((Hst & _) & _) & _).
  rewrite (Hc w Hst) in Hrun. by inversion Hrun; subst.
Qed.

Lemma keeps_quiet_update_trailing_stop current_price :
  keeps_quiet (X:=X) (Main.update_trailing_stop current_price).
Proof.
  apply (keeps_quiet_when_flat _ tt). intros w Hst.
  unfold Main.update_trailing_stop, mbind, Main.M_bind, Main.get_position.
  by rewrite Hst.
Qed.

Lemma keeps_quiet_close_position current_price :
  keeps_quiet (X:=X) (Main.close_position current_price).
Proof.
  apply (keeps_quiet_when_flat _ tt). intros w Hst.
  unfold Main.close_position, mbind, Main.M_bind, Main.get_position.
  by rewrite Hst.
Qed.

Lemma keeps_quiet_drain_commands : keeps_quiet (X:=X) Main.drain_commands.
Proof.
  intros w r w' Hrun Hquiet. pose proof Hquiet as (_ & Hq & _).
  unfold Main.drain_commands in Hrun.
  rewrite Hq in Hrun. cbn in Hrun. by inversion Hrun; subst.
Qed.

Lemma keeps_quiet_enter_position signal snapshot :
  keeps_quiet (X:=X) (Main.enter_position signal snapshot).
Proof.
  unfold Main.enter_position.
  apply keeps_quiet_bind.
  { apply keeps_quiet_request. by repeat constructor. }
  intros price. apply keeps_quiet_bind.
  { apply keeps_quiet_try_except; [|intros; apply keeps_quiet_ret].
    apply keeps_quiet_request. by repeat constructor. }
  intros balance.
  apply keeps_quiet_bind; [apply keeps_quiet_lift|]. intros qty.
  destruct (Qltb _ _); [apply keeps_quiet_ret|].
  apply keeps_quiet_bind.
  { unfold Main.place_market_order. cbn [Main.DRY_RUN].
    apply keeps_quiet_try_except; [|intros; apply keeps_quiet_ret].
    apply keeps_quiet_bind; [|intros; apply keeps_quiet_ret].
    apply keeps_quiet_request. by repeat constructor. }
  intros res.
  destruct (String.eqb _ _); [apply keeps_quiet_ret|].
  apply keeps_quiet_update_position. by intros p.
Qed.

Lemma keeps_quiet_run_trading_iteration s :
  keeps_quiet (X:=X) (Main.run_trading_iteration s).
Proof.
  unfold Main.run_trading_iteration.
  apply keeps_quiet_bind; [apply keeps_quiet_drain_commands|]. intros _.
  apply keeps_quiet_bind; [apply keeps_quiet_lift|]. intros inputs.
  apply keeps_quiet_bind; [apply keeps_quiet_lift|]. intros signal.
  apply keeps_quiet_bind.
  { apply keeps_quiet_request. by repeat constructor. }
  intros price.
  apply keeps_quiet_bind; [apply keeps_quiet_get_position|]. intros p.
  apply keeps_quiet_bind.
  { destruct (state p); [apply keeps_quiet_ret| |];
      (apply keeps_quiet_bind; [apply keeps_quiet_update_trailing_stop|]; intros _;
       apply keeps_quiet_bind; [apply keeps_quiet_get_position|]; intros p';
       apply keeps_quiet_bind; [apply keeps_quiet_lift|]; intros crossed;
       destruct crossed;
       [apply keeps_quiet_close_position|apply keeps_quiet_ret]). }
  intros _.
  apply keeps_quiet_bind; [apply keeps_quiet_get_position|]. intros p'.
  destruct (_ && _); [|apply keeps_quiet_ret].
  apply keeps_quiet_bind; [apply keeps_quiet_close_position|]. intros _.
  apply keeps_quiet_enter_position.
Qed.

(** In the program as it is written no fill is matched: the record of
    data_stream.py keeps its initial value and the world of main.py stays
    quiet. *)
Lemma system_reachable_quiet (sys : System X) :
  system_reachable sys ->
  stream_position sys = position_init /\ quiet_world (main_world sys).
Proof.
  induction 1 as [x|sys sys' Hreach [IHs IHw] Hstep].
  { split; [reflexivity|]. repeat split. constructor. }
  destruct Hstep as [sys msg p q Hrun|sys s r w' Hrun|sys r w' Hrun
                    |sys cp r w' Hrun|sys cp r w' Hrun
                    |sys signal snapshot r w' Hrun]; cbn.
  - rewrite IHs in Hrun. apply user_handler_no_id in Hrun as [-> ->].
    split; [reflexivity|]. exact IHw.
  - split; [exact IHs|]. eapply keeps_quiet_run_trading_iteration; eauto.
  - split; [exact IHs|]. eapply keeps_quiet_drain_commands; eauto.
  - split; [exact IHs|]. eapply keeps_quiet_update_trailing_stop; eauto.
  - split; [exact IHs|]. eapply keeps_quiet_close_position; eauto.
  - split; [exact IHs|]. eapply keeps_quiet_enter_position; eauto.
Qed.

(** X21: the program never tracks a position.  The record [user_handler]
    reads and writes is that of data_stream.py, in which no order id is
    ever recorded; [enter_position] records the id of its order in the
    record of main.py.  So in every state the two records reach, from
    their initial values, through [user_handler] on any message and
    through the functions of main.py, whatever the exchange answers: no
    fill is matched and the record of data_stream.py keeps its initial
    value; no command is put on the queue; the record of main.py holds no
    position and no stop; and every order sent is a market order of
    [enter_position]: no stop order is placed or cancelled and no position
    is closed. *)
Theorem bot_never_tracks_a_position (sys : System X) :
  system_reachable sys ->
  stream_position sys = position_init /\
  Main.command_queue (main_world sys) = [] /\
  untracked (Main.position (main_world sys)) /\
  market_orders_only (Main.calls (main_world sys)).
Proof.
  intros Hr. destruct (system_reachable_quiet sys Hr) as (Hs & Hp & Hq & Hc).
  exact (conj Hs (conj Hq (conj Hp Hc))).
Qed.

Lemma untracked_position_invariant (p : Position) :
  untracked p -> position_invariant p.
Proof.
  intros ((Hst & He & Hq & Hm) & Hid & Hsp). split.
  - intros _. rewrite Hq, Hm. by repeat split.
  - intros Hn. by destruct Hn.
Qed.

(** C4 (as amended): the invariant of the design document holds with
    [entry_order_id] left out.  In every state the two position records of
    the program reach (that of data_stream.py, written by [user_handler],
    and that of main.py, written by its own functions), whatever the
    messages and whatever the exchange answers: in state [none] the stop
    order id, the entry and the stop price are null and [qty] and [max_pnl]
    are zero; in state [long] or [short] the entry and [qty] are set and
    positive.  And of one record written by [user_handler] and by the
    functions of main.py alike, on fills that report a positive quantity
    and price, the same holds with the stop price left out: no stop order
    id is recorded; in state [none] the entry is null and [qty] and
    [max_pnl] are zero; in state [long] or [short] the entry and [qty] are
    set and positive. *)
Theorem reachable_position_invariant :
  (forall sys : System X,
     system_reachable sys ->
     position_invariant (stream_position sys) /\
     position_invariant (Main.position (main_world sys))) /\
  (forall w : Main.World X,
     reachable w -> shared_record_invariant (Main.position w)).
Proof.
  split.
  - intros sys Hr. destruct (system_reachable_quiet sys Hr) as (Hs & Hp & _).
    split; [|by apply untracked_position_invariant].
    rewrite Hs. apply untracked_position_invariant. by repeat split.
  - exact reachable_shared_record.
Qed.

End BotProofs.

Lemma system_reachable_after_entry : system_reachable system_after_entry.
Proof.
  apply (system_reachable_step
           {| stream_position := position_init;
              main_world := paper_world 100 1000 position_init [] |}).
  - apply (system_reachable_init {| paper_price := 100; paper_balance := 1000;
                                    paper_next_id := 42 |}).
  - exact (system_enter_position
             {| stream_position := position_init;
                main_world := paper_world 100 1000 position_init [] |}
             "BUY" (DataStream.get_snapshot DataStream.state_init) _ _
             (surjective_pairing _)).
Qed.

Lemma system_reachable_after_fill : system_reachable system_after_fill.
Proof.
  eapply system_reachable_step; [exact system_reachable_after_entry|].
  apply (system_user_handler system_after_entry fill_42 position_init []).
  reflexivity.
Qed.

Lemma reachable_closed : reachable world_closed.
Proof.
  eapply reachable_step.
  - eapply reachable_step; [exact reachable_after_fill|].
    eapply (step_close_position _ 100). apply surjective_pairing.
  - eapply step_drain_commands. apply surjective_pairing.
Qed.

(** C4 (as stated) fails: once [enter_position] has placed its order, the
    record of main.py is in state [none] and its [entry_order_id] holds the
    id of the order.  And on one record written by both modules, the stop
    price is set in state [none] once the position the fill opened is
    closed and the stop command of the fill, still on the queue, is
    drained. *)
Lemma position_invariant_as_stated_fails :
  (system_reachable system_after_entry /\
   state (Main.position (main_world system_after_entry)) = none /\
   entry_order_id (Main.position (main_world system_after_entry)) = Some 42%Z /\
   ~ documented_position_invariant (Main.position (main_world system_after_entry))) /\
  (reachable world_closed /\
   state (Main.position world_closed) = none /\
   stop_price (Main.position world_closed) = Some (100 * (1 - (2 # 100))) /\
   ~ documented_position_invariant (Main.position world_closed)).
Proof.
  split.
  - split; [exact system_reachable_after_entry|].
    split; [reflexivity|]. split; [reflexivity|].
    intros [Hnone _]. destruct (Hnone eq_refl) as [Hid _]. discriminate Hid.
  - split; [exact reachable_closed|].
    split; [reflexivity|]. split; [reflexivity|].
    intros [Hnone _]. destruct (Hnone eq_refl) as (_ & _ & _ & Hsp & _).
    discriminate Hsp.
Qed.

Lemma reachable_position_invariant_witness :
  (position_invariant (stream_position system_after_fill) /\
   position_invariant (Main.position (main_world system_after_fill))) /\
  shared_record_invariant (Main.position world_after_fill).
Proof.
  split.
  - apply (proj1 reachable_position_invariant system_after_fill).
    exact system_reachable_after_fill.
  - apply (proj2 reachable_position_invariant world_after_fill).
    exact reachable_after_fill.
Defined.

Lemma bot_never_tracks_a_position_witness :
  stream_position system_after_fill = position_init /\
  Main.command_queue (main_world system_after_fill) = [] /\
  untracked (Main.position (main_world system_after_fill)) /\
  market_orders_only (Main.calls (main_world system_after_fill)).
Proof.
  apply (bot_never_tracks_a_position system_after_fill).
  exact system_reachable_after_fill.
Defined.
(** ** Errors of the price request *)

Section PriceErrors.
Context {X : Type} `{Main.Exchange X} `{FloatResidue}.

(** X22: [run_trading] has no exception handler.  When the price request
    of a pass raises, the pass raises the same exception, after the command
    drain and the decision: no order is sent and the position is as the
    drain left it. *)
Theorem pass_raises_when_price_request_fails (s : DataStream.Store)
    (w : Main.World X) (signal : string) (err : exn) (x : X) :
  decision s = Ok signal ->
  Main.futures_symbol_ticker (Main.exchange w) = (Raise err, x) ->
  Main.run_trading_iteration s w =
  (Raise err,
   {| Main.exchange := x;
      Main.calls := Main.calls w ++ [Main.CallSymbolTicker];
      Main.position := record_stop (Main.command_queue w) (Main.position w);
      Main.command_queue := [] |}).
Proof.
  intros Hsig Hreq. unfold Main.run_trading_iteration.
  rewrite (M_bind_run Main.drain_commands).
  unfold Main.drain_commands. rewrite apply_commands_run.
  unfold decision in Hsig.
  unfold mbind, Main.M_bind, Main.lift.
  destruct (Main.decision_inputs s (DataStream.get_snapshot s)) as [inputs|];
    [|discriminate].
  cbn [mbind outcome_bind] in Hsig. rewrite Hsig.
  unfold Main.request. cbn [Main.exchange]. rewrite Hreq.
  cbn [Main.calls Main.position Main.command_queue].
  by destruct (Main.command_queue w).
Qed.

(** X23: a price of zero is not caught.  When the exchange answers a
    price of zero, [enter_position] asks for the balance and then raises
    ZeroDivisionError, out of [calc_qty]: the test of the notional is not
    reached, no order is sent, and the position and the queue are
    unchanged. *)
Theorem enter_position_zero_price (w : Main.World X) (signal : string)
    (snapshot : DataStream.Snapshot) (price : Q) (x : X) :
  Main.futures_symbol_ticker (Main.exchange w) = (Ok price, x) ->
  price == 0 ->
  Main.enter_position signal snapshot w =
  (Raise ZeroDivisionError,
   {| Main.exchange := (Main.futures_account x).2;
      Main.calls := Main.calls w ++ [Main.CallSymbolTicker; Main.CallAccount];
      Main.position := Main.position w;
      Main.command_queue := Main.command_queue w |}).
Proof.
  intros Hreq Hz. unfold Main.enter_position, mbind, Main.M_bind.
  unfold Main.request at 1. rewrite Hreq. rewrite fetch_balance_run.
  cbn [Main.exchange Main.calls Main.position Main.command_queue].
  unfold Main.lift, Main.calc_qty, py_div.
  apply Qeq_eq_bool in Hz. rewrite Hz. cbn [mbind outcome_bind].
  by rewrite <- app_assoc.
Qed.

End PriceErrors.

Lemma pass_raises_when_price_request_fails_witness :
  Main.run_trading_iteration rising_market (offline_world position_init []) =
  (Raise APIError,
   {| Main.exchange := offline;
      Main.calls := Main.calls (offline_world position_init []) ++ [Main.CallSymbolTicker];
      Main.position :=
        record_stop (Main.command_queue (offline_world position_init []))
                    (Main.position (offline_world position_init []));
      Main.command_queue := [] |}).
Proof.
  apply (pass_raises_when_price_request_fails rising_market
           (offline_world position_init []) "BUY" APIError offline).
  - by vm_compute.
  - reflexivity.
Defined.

Lemma enter_position_zero_price_witness :
  Main.enter_position "BUY" (DataStream.get_snapshot DataStream.state_init)
    (paper_world 0 1000 position_init []) =
  (Raise ZeroDivisionError,
   {| Main.exchange :=
        (Main.futures_account
           {| paper_price := 0; paper_balance := 1000; paper_next_id := 42 |}).2;
      Main.calls := Main.calls (paper_world 0 1000 position_init []) ++
                      [Main.CallSymbolTicker; Main.CallAccount];
      Main.position := Main.position (paper_world 0 1000 position_init []);
      Main.command_queue := Main.command_queue (paper_world 0 1000 position_init []) |}).
Proof.
  apply (enter_position_zero_price (paper_world 0 1000 position_init []) "BUY"
           (DataStream.get_snapshot DataStream.state_init) 0
           {| paper_price := 0; paper_balance := 1000; paper_next_id := 42 |}).
  - reflexivity.
  - reflexivity.
Defined.
(** ** The balance request fails *)

Section BalanceFailure.
Context {X : Type} `{Main.Exchange X} `{FloatResidue}.

(** X24: without a balance no order is sent.  When the account request
    raises (or no asset is USDT), [fetch_balance] answers 0, the quantity
    is 0 and the notional is below the threshold: [enter_position] returns
    after the price and the account requests, sends no order and leaves the
    position and the queue unchanged. *)
Theorem enter_position_without_balance (w : Main.World X) (signal : string)
    (snapshot : DataStream.Snapshot) (price : Q) (x1 x2 : X) (err : exn) :
  Main.futures_symbol_ticker (Main.exchange w) = (Ok price, x1) ->
  Main.futures_account x1 = (Raise err, x2) ->
  ~ price == 0 ->
  Main.enter_position signal snapshot w =
  (Ok tt,
   {| Main.exchange := x2;
      Main.calls := Main.calls w ++ [Main.CallSymbolTicker; Main.CallAccount];
      Main.position := Main.position w;
      Main.command_queue := Main.command_queue w |}).
Proof.
  intros Ht Hb Hp.
  unfold Main.enter_position, mbind, Main.M_bind.
  unfold Main.request at 1. rewrite Ht. rewrite fetch_balance_run.
  cbn [Main.exchange Main.calls Main.position Main.command_queue].
  rewrite Hb. cbn [fst snd].
  unfold Main.lift, Main.calc_qty, py_div.
  destruct (Qeq_bool price 0) eqn:E; [apply Qeq_bool_eq in E; contradiction|].
  cbn [mbind outcome_bind].
  assert (Hq : py_round (0 * Main.RISK_PER_TRADE * Main.LEVERAGE / price) 3 == 0).
  { assert (Hz : 0 * Main.RISK_PER_TRADE * Main.LEVERAGE / price * 1000 == 0)
      by (field; exact Hp).
    unfold py_round. change (inject_Z (10 ^ Z.of_nat 3)) with 1000. cbv zeta.
    assert (Qfloor (0 * Main.RISK_PER_TRADE * Main.LEVERAGE / price * 1000) = 0%Z)
      as Hf by (rewrite Hz; reflexivity).
    rewrite Hf.
    destruct (Qltb _ (1 # 2)) eqn:E1; [reflexivity|].
    apply Qltb_ge in E1. rewrite Hz in E1. by vm_compute in E1. }
  assert (Hn : Qltb (py_round (0 * Main.RISK_PER_TRADE * Main.LEVERAGE / price) 3
                     * price) 20 = true).
  { apply Qltb_lt. rewrite Hq. lra. }
  rewrite Hn. cbn [mret Main.M_ret]. by rewrite <- app_assoc.
Qed.

End BalanceFailure.

Lemma enter_position_without_balance_witness :
  Main.enter_position "BUY" (DataStream.get_snapshot DataStream.state_init)
    (price_only_world 100) =
  (Ok tt,
   {| Main.exchange := {| quoted_price := 100 |};
      Main.calls := Main.calls (price_only_world 100) ++
                      [Main.CallSymbolTicker; Main.CallAccount];
      Main.position := Main.position (price_only_world 100);
      Main.command_queue := Main.command_queue (price_only_world 100) |}).
Proof.
  apply (enter_position_without_balance (price_only_world 100) "BUY"
           (DataStream.get_snapshot DataStream.state_init) 100
           {| quoted_price := 100 |} {| quoted_price := 100 |} APIError).
  - reflexivity.
  - reflexivity.
  - by vm_compute.
Defined.
(** ** The VWAP *)




